(** * gologger: an asynchronous, multi-sink logger

    A shallow embedding of [main.go] (package [gologger]) and the
    properties of its facade ([ERR], [WRN], [INF], [DBG], [Close]), of
    its caller resolution ([Log]) and of its dispatch worker ([daemon],
    [newFile]).

    Conventions of the embedding.
    - Go strings are byte strings: [string] of [ascii].
    - The logger, the outside world (standard output, syslog, the file
      system, the clock) and the instrumentation counters live in one
      [State]; the Go methods are computations in a small monad [M] over
      it whose results record a normal return, a goroutine parked in a
      channel send on a full queue, or a panic.
    - What the operating system answers is not decided by the program:
      the clock and the outcome of each system call are read from an
      environment [Env], one reading per call, in call order. *)

From Stdlib Require Import String Ascii List ZArith NArith Lia Bool Arith PeanoNat.
From Stdlib Require Import DecimalString.
From Stdlib Require DecimalN DecimalFacts.
Import ListNotations.
Open Scope string_scope.

(* ================================================================= *)
(** ** Strings and numbers as [fmt] and [time] print them *)

Module Fmt.

(** [%d] of a non-negative integer. *)
Definition itoa (n : N) : string := NilZero.string_of_uint (N.to_uint n).

Fixpoint zeros (n : nat) : string :=
  match n with
  | 0 => ""
  | S k => String "0" (zeros k)
  end.

(** [%0<width>d], and [appendInt] of package [time]: decimal, padded on
    the left with zeros up to [width]; longer numbers are not cut. *)
Definition appendInt (x : N) (width : nat) : string :=
  let d := itoa x in zeros (width - String.length d) ++ d.

(** [%c] of a byte: the UTF-8 encoding of the code point. *)
Definition fmt_c (b : ascii) : string :=
  let n := nat_of_ascii b in
  if (n <? 128)%nat then String b ""
  else String (ascii_of_nat (192 + n / 64))
         (String (ascii_of_nat (128 + n mod 64)) "").

Definition newline : string := String (ascii_of_nat 10) "".

Definition is_digit (c : ascii) : bool :=
  ((48 <=? nat_of_ascii c) && (nat_of_ascii c <=? 57))%nat.

Fixpoint all_chars (p : ascii -> bool) (s : string) : bool :=
  match s with
  | "" => true
  | String c s' => p c && all_chars p s'
  end.

Fixpoint has_char (c : ascii) (s : string) : bool :=
  match s with
  | "" => false
  | String d s' => Ascii.eqb c d || has_char c s'
  end.

End Fmt.
Import Fmt.

(* ================================================================= *)
(** ** Wall-clock time ([time.Time], as far as the logger looks at it) *)

Record Time := mkTime {
  year : N; month : N; day : N;
  hour : N; minute : N; second : N; nanosecond : N
}.

(** [t.Format("15:04:05.0000")]: two digits each for hour, minute and
    second, then the first four digits of the fraction of the second. *)
Definition Format_clock (t : Time) : string :=
  appendInt (hour t) 2 ++ ":" ++ appendInt (minute t) 2 ++ ":"
  ++ appendInt (second t) 2 ++ "." ++ appendInt (nanosecond t / 100000)%N 4.

(** [t.Format("2006-01-02")]. *)
Definition Format_date (t : Time) : string :=
  appendInt (year t) 4 ++ "-" ++ appendInt (month t) 2 ++ "-"
  ++ appendInt (day t) 2.

(** [_, _, d := t.Date()]: the third result is the day of the month. *)
Definition Date_day (t : Time) : N := day t.

Definition valid_time (t : Time) : Prop :=
  (hour t < 24 /\ minute t < 60 /\ second t < 60
   /\ nanosecond t < 1000000000)%N.

(* ================================================================= *)
(** ** The regular expression of [Log]

    Go's [regexp] returns the leftmost match, and among the matches that
    start there the one a backtracking search finds first.  The matcher
    below is that backtracking search, for the operators the pattern of
    [Log] uses.  The pattern's literals and classes are ASCII, and no
    byte of a multi-byte UTF-8 sequence lies in ['0'..'z'], so matching
    bytes agrees with matching runes. *)

Module Regexp.

Inductive regex :=
| Lit (c : ascii)                 (* one literal character *)
| Plus (cls : ascii -> bool)      (* [cls]+, greedy *)
| Cat (r1 r2 : regex)
| Cap (r : regex)                 (* capturing group *)
| Eot.                            (* $ *)

(** Continuations receive the text matched so far by the current
    sub-expression, what is left of the input, and the groups closed
    so far (in closing order). *)
Definition kont := string -> string -> list string -> option (list string).

(** [cls]*, longest first, giving characters back one at a time. *)
Fixpoint star (cls : ascii -> bool) (s : string)
         (k : string -> string -> option (list string))
  : option (list string) :=
  match s with
  | String c s' =>
      if cls c then
        match star cls s' (fun m rest => k (String c m) rest) with
        | Some r => Some r
        | None => k "" s
        end
      else k "" s
  | "" => k "" ""
  end.

Fixpoint run (r : regex) (s : string) (caps : list string) (k : kont)
  : option (list string) :=
  match r with
  | Lit c =>
      match s with
      | String d s' => if Ascii.eqb c d then k (String d "") s' caps else None
      | "" => None
      end
  | Plus cls =>
      match s with
      | String c s' =>
          if cls c then star cls s' (fun m rest => k (String c m) rest caps)
          else None
      | "" => None
      end
  | Cat r1 r2 =>
      run r1 s caps (fun m1 rest1 caps1 =>
        run r2 rest1 caps1 (fun m2 rest2 caps2 => k (m1 ++ m2) rest2 caps2))
  | Cap r' =>
      run r' s caps (fun m rest caps' => k m rest (caps' ++ [m])%list)
  | Eot =>
      match s with
      | "" => k "" "" caps
      | String _ _ => None
      end
  end.

(** A match anchored at the start of [s]: the whole match followed by
    the groups. *)
Definition match_here (r : regex) (s : string) : option (list string) :=
  run r s [] (fun m _ caps => Some (m :: caps)).

(** [re.FindStringSubmatch(s)]: [nil] ([None]) when nothing matches. *)
Fixpoint FindStringSubmatch (r : regex) (s : string) : option (list string) :=
  match match_here r s with
  | Some m => Some m
  | None =>
      match s with
      | String _ s' => FindStringSubmatch r s'
      | "" => None
      end
  end.

(** The range [0-z]: code points 48 to 122 (digits, [:;<=>?@], upper
    case, [[\]^_`], lower case). *)
Definition in_0z (c : ascii) : bool :=
  ((48 <=? nat_of_ascii c) && (nat_of_ascii c <=? 122))%nat.

(** [[0-z_]] *)
Definition cls_type (c : ascii) : bool := in_0z c || Ascii.eqb c "_".

(** [[0-z_\(\)]] *)
Definition cls_method (c : ascii) : bool :=
  in_0z c || Ascii.eqb c "_" || Ascii.eqb c "(" || Ascii.eqb c ")".

(** [\(\*([0-z_]+)\)\.([0-z_\(\)]+)$] *)
Definition method_pattern : regex :=
  Cat (Lit "(") (Cat (Lit "*") (Cat (Cap (Plus cls_type))
    (Cat (Lit ")") (Cat (Lit ".") (Cat (Cap (Plus cls_method)) Eot))))).

End Regexp.
Import Regexp.

(* ================================================================= *)
(** ** The logger, the world around it, and the monad of its methods *)

(** [syslog.Priority] values ([log/syslog]). *)
Definition LOG_EMERG : Z := 0.
Definition LOG_ALERT : Z := 1.
Definition LOG_CRIT : Z := 2.
Definition LOG_ERR : Z := 3.
Definition LOG_WARNING : Z := 4.
Definition LOG_NOTICE : Z := 5.
Definition LOG_INFO : Z := 6.
Definition LOG_DEBUG : Z := 7.

(** Flags of [os.OpenFile] (their values on Linux). *)
Definition O_WRONLY : Z := 1.
Definition O_CREATE : Z := 64.
Definition O_APPEND : Z := 1024.

(** A value of type [interface{}], by the cases [anyErrToString]
    tells apart.  [AOther v] is any value of another dynamic type
    (including [nil]); [v] is what [%v] prints for it. *)
Inductive any :=
| AErr (msg : string)        (* implements [error]; [msg] is [Error()] *)
| AStr (s : string)
| AByte (b : N)              (* [byte], that is [uint8] *)
| AInt (n : Z)
| AOther (v : string).

(** [chan string] with a buffer: [len(c)] is [length (buf c)]. *)
Record chan := mkChan { buf : list string; cap : nat }.

Definition make_chan (n : nat) : chan := {| buf := []; cap := n |}.

(** [*os.File]: [Close] leaves the object in place, unusable. *)
Record File := mkFile { fname : string; fclosed : bool }.

Record Log := mkLog {
  logChan : chan;
  syslogWriter : option string;     (* [nil], or a writer with its tag *)
  fileWriter : option File;         (* [nil], or the file object *)
  SyslogTag : string;
  Priority : Z;
  SendToStdout : bool;
  SendToSyslog : bool;
  SendToLogfile : bool
}.

(** The calls the process makes on its sinks and on the scheduler, in
    order.  A fallible call carries the error it returned ([None]: it
    succeeded).  The file of a write is [None] when [l.fileWriter] is
    [nil]. *)
Inductive Event :=
| EvStdout (s : string)
| EvSyslogNew (prio : Z) (tag : string) (err : option string)
| EvSyslogWrite (s : string) (err : option string)
| EvOpen (name : string) (flags perm : Z) (err : option string)
| EvClose (name : string) (err : option string)
| EvFileWrite (file : option string) (s : string) (err : option string)
| EvSleep (ms : nat).

(** The goroutine started by [init]. *)
Inductive Worker :=
| Spawned                   (* [go L.daemon()] done, [daemon] not yet entered *)
| Running (oldDate : N)     (* at the head of the loop *)
| Returned                  (* [daemon] has returned *)
| Deadlocked (line : string)
                            (* parked for good in [l.logChan <- line]: the
                               queue is full and only the worker empties it *)
| Crashed.                  (* panicked *)

Record State := mkState {
  L : Log;
  worker : Worker;
  trace : list Event;
  nNow : nat;        (* calls of [time.Now] so far *)
  nSys : nat;        (* fallible system calls so far *)
  nSprintf : nat;    (* calls of [fmt.Sprintf] so far *)
  nCaller : nat      (* calls of [runtime.Caller] so far *)
}.

(** What the program cannot decide. *)
Record Env := mkEnv {
  clock : nat -> Time;               (* the i-th answer of [time.Now()] *)
  fault : nat -> option string;      (* the error of the i-th system call *)
  baseName : string;                 (* [filepath.Base(os.Args[0])] *)
  pkgPath : string;                  (* the import path of the package *)
  Sprintf : string -> list any -> string   (* [fmt.Sprintf] on a caller's prompt *)
}.

Inductive Res (A : Type) : Type :=
| Ok (a : A) (s : State)
| Blocked (line : string) (s : State)   (* parked in [logChan <- line] *)
| Panicked (msg : string) (s : State).
Arguments Ok {A} a s.
Arguments Blocked {A} line s.
Arguments Panicked {A} msg s.

Definition M (A : Type) : Type := State -> Res A.

Definition ret {A} (a : A) : M A := fun s => Ok a s.

Definition bind {A B} (m : M A) (f : A -> M B) : M B :=
  fun s =>
    match m s with
    | Ok a s' => f a s'
    | Blocked l s' => Blocked l s'
    | Panicked msg s' => Panicked msg s'
    end.

Declare Scope go_scope.
Delimit Scope go_scope with go.
Notation "x <- m ;; k" := (bind m (fun x => k))
  (at level 61, m at next level, right associativity) : go_scope.
Notation "m ;; k" := (bind m (fun _ => k))
  (at level 61, right associativity) : go_scope.
Open Scope go_scope.

Definition panic {A} (msg : string) : M A := fun s => Panicked msg s.

Definition getL : M Log := fun s => Ok (L s) s.
Definition modify (f : State -> State) : M unit := fun s => Ok tt (f s).

Definition set_L (l : Log) (s : State) : State :=
  mkState l (worker s) (trace s) (nNow s) (nSys s) (nSprintf s) (nCaller s).
Definition set_worker (w : Worker) (s : State) : State :=
  mkState (L s) w (trace s) (nNow s) (nSys s) (nSprintf s) (nCaller s).
Definition add_event (e : Event) (s : State) : State :=
  mkState (L s) (worker s) (trace s ++ [e]) (nNow s) (nSys s) (nSprintf s)
          (nCaller s).
Definition tick_now (s : State) : State :=
  mkState (L s) (worker s) (trace s) (S (nNow s)) (nSys s) (nSprintf s)
          (nCaller s).
Definition tick_sys (s : State) : State :=
  mkState (L s) (worker s) (trace s) (nNow s) (S (nSys s)) (nSprintf s)
          (nCaller s).
Definition tick_sprintf (s : State) : State :=
  mkState (L s) (worker s) (trace s) (nNow s) (nSys s) (S (nSprintf s))
          (nCaller s).
Definition tick_caller (s : State) : State :=
  mkState (L s) (worker s) (trace s) (nNow s) (nSys s) (nSprintf s)
          (S (nCaller s)).

Definition set_logChan (c : chan) (l : Log) : Log :=
  mkLog c (syslogWriter l) (fileWriter l) (SyslogTag l) (Priority l)
        (SendToStdout l) (SendToSyslog l) (SendToLogfile l).
Definition set_syslogWriter (w : option string) (l : Log) : Log :=
  mkLog (logChan l) w (fileWriter l) (SyslogTag l) (Priority l)
        (SendToStdout l) (SendToSyslog l) (SendToLogfile l).
Definition set_fileWriter (f : option File) (l : Log) : Log :=
  mkLog (logChan l) (syslogWriter l) f (SyslogTag l) (Priority l)
        (SendToStdout l) (SendToSyslog l) (SendToLogfile l).

Definition emit (e : Event) : M unit := modify (add_event e).

(** [time.Now()] *)
Definition now (E : Env) : M Time :=
  fun s => Ok (clock E (nNow s)) (tick_now s).

(** The outcome of the next system call. *)
Definition sys (E : Env) : M (option string) :=
  fun s => Ok (fault E (nSys s)) (tick_sys s).

(** [len(l.logChan)] *)
Definition queue (s : State) : list string := buf (logChan (L s)).

(** [l.logChan <- line] *)
Definition chan_send (line : string) : M unit :=
  fun s =>
    let c := logChan (L s) in
    if (length (buf c) <? cap c)%nat
    then Ok tt (set_L (set_logChan (mkChan (buf c ++ [line]) (cap c)) (L s)) s)
    else Blocked line s.

(** [<-l.logChan], when a message is there. *)
Definition chan_recv (s : State) : option (string * State) :=
  let c := logChan (L s) in
  match buf c with
  | [] => None
  | m :: q => Some (m, set_L (set_logChan (mkChan q (cap c)) (L s)) s)
  end.

(* ================================================================= *)
(** ** Caller resolution and the shared logging routine *)

(** A frame of a goroutine's stack: the function's name as
    [runtime.FuncForPC(pc).Name()] gives it, and the line of the call. *)
Record Frame := mkFrame { fn_name : string; fn_line : N }.

(** The frame of a method of [*Log]. *)
Definition method_frame (E : Env) (method : string) (line : N) : Frame :=
  mkFrame (pkgPath E ++ ".(*Log)." ++ method) line.

(** [runtime.Caller(skip)] on the stack [stack], whose first frame is the
    function that makes the call; [None] is [ok == false]. *)
Definition runtime_Caller (stack : list Frame) (skip : nat) : M (option Frame) :=
  fun s => Ok (nth_error stack skip) (tick_caller s).

(** Lines 111-122 of [Log]: the name printed for a resolved caller. *)
Definition caller_name (name : string) : string :=
  match FindStringSubmatch method_pattern name with
  | Some match_ =>
      let funcName := nth 1 match_ "" in
      if (2 <? length match_)%nat
      then funcName ++ "." ++ nth (length match_ - 1) match_ ""
      else funcName
  | None => name
  end.

(** The name and the line [Log] prints, given the answer of
    [runtime.Caller]. *)
Definition resolved (fr : option Frame) : string * N :=
  match fr with
  | None => ("<nf>", 0%N)
  | Some f => (caller_name (fn_name f), fn_line f)
  end.

(** [fmt.Sprintf("|%c|%s():%d %s\n", level, funcName, line, message)] *)
Definition render (level : ascii) (funcName : string) (line : N)
           (message : string) : string :=
  "|" ++ fmt_c level ++ "|" ++ funcName ++ "():" ++ itoa line ++ " "
  ++ message ++ newline.

(** Method [Log] of [*Log].  [callers] is the stack above [Log]: the function that
    called [Log] first.  The extra depth counts frames, so it is a
    natural number here. *)
Definition Log_ (E : Env) (callers : list Frame) (stackTraceDepth : nat)
           (level : ascii) (message : string) : M unit :=
  fr <- runtime_Caller (method_frame E "Log" 107 :: callers)
                       (2 + stackTraceDepth) ;;
  let '(funcName, line) := resolved fr in
  modify tick_sprintf ;;
  chan_send (render level funcName line message).

(** Method [anyErrToString]. *)
Definition anyErrToString (e : any) (prompt : string) : M string :=
  match e with
  | AErr msg => modify tick_sprintf ;; ret (prompt ++ " err{" ++ msg ++ "}")
  | AStr s => modify tick_sprintf ;; ret (prompt ++ " err{" ++ s ++ "}")
  | AByte b => modify tick_sprintf ;; ret (prompt ++ " RC:" ++ appendInt b 2)
  | AInt _ =>
      (* [case byte, int:] evaluates [e.(byte)] *)
      panic "interface conversion: interface {} is int, not uint8"
  | AOther v =>
      modify tick_sprintf ;;
      ret (prompt ++ " ???{type(" ++ v ++ ")=" ++ v ++ "}")
  end.

(* ================================================================= *)
(** ** The facade *)

(** [if v != nil { prompt = fmt.Sprintf(prompt, v...) }]; a call without
    variadic arguments has [v == nil]. *)
Definition format_prompt (E : Env) (prompt : string) (v : option (list any))
  : M string :=
  match v with
  | Some args => modify tick_sprintf ;; ret (Sprintf E prompt args)
  | None => ret prompt
  end.

Definition ERR (E : Env) (callers : list Frame) (e : any) (prompt : string)
           (v : option (list any)) : M unit :=
  l <- getL ;;
  if (Priority l <? LOG_ERR)%Z then ret tt
  else
    p <- format_prompt E prompt v ;;
    s <- anyErrToString e p ;;
    Log_ E (method_frame E "ERR" 138 :: callers) 0 "E" s.

Definition WRN (E : Env) (callers : list Frame) (prompt : string)
           (v : option (list any)) : M unit :=
  l <- getL ;;
  if (Priority l <? LOG_WARNING)%Z then ret tt
  else
    p <- format_prompt E prompt v ;;
    Log_ E (method_frame E "WRN" 148 :: callers) 0 "W" p.

Definition INF (E : Env) (callers : list Frame) (prompt : string)
           (v : option (list any)) : M unit :=
  l <- getL ;;
  if (Priority l <? LOG_INFO)%Z then ret tt
  else
    p <- format_prompt E prompt v ;;
    Log_ E (method_frame E "INF" 158 :: callers) 0 "I" p.

Definition DBG (E : Env) (callers : list Frame) (prompt : string)
           (v : option (list any)) : M unit :=
  l <- getL ;;
  if (Priority l <? LOG_DEBUG)%Z then ret tt
  else
    p <- format_prompt E prompt v ;;
    Log_ E (method_frame E "DBG" 168 :: callers) 0 "D" p.

(* ================================================================= *)
(** ** The file sink: [os.File] and [newFile] *)

(** [f.Close()] on the file [l.fileWriter] points to.  Package [os]:
    "Close closes the File, rendering it unusable for I/O", whatever the
    system call answers; on a file already closed it fails with
    [os.ErrClosed] and no system call. *)
Definition File_Close (E : Env) (f : File) : M (option string) :=
  if fclosed f then
    let err := Some ("close " ++ fname f ++ ": file already closed") in
    emit (EvClose (fname f) err) ;;
    ret err
  else
    err <- sys E ;;
    emit (EvClose (fname f) err) ;;
    modify (fun s => set_L (set_fileWriter (Some (mkFile (fname f) true))
                                           (L s)) s) ;;
    ret err.

(** [l.fileWriter.Write(data)]: on [nil] it returns [os.ErrInvalid], on
    a closed file [os.ErrClosed], both without a system call. *)
Definition File_Write (E : Env) (data : string) : M (option string) :=
  l <- getL ;;
  match fileWriter l with
  | None =>
      let err := Some "invalid argument" in
      emit (EvFileWrite None data err) ;;
      ret err
  | Some f =>
      if fclosed f then
        let err := Some ("write " ++ fname f ++ ": file already closed") in
        emit (EvFileWrite (Some (fname f)) data err) ;;
        ret err
      else
        err <- sys E ;;
        emit (EvFileWrite (Some (fname f)) data err) ;;
        ret err
  end.

Definition open_flags : Z := Z.lor (Z.lor O_APPEND O_CREATE) O_WRONLY.
Definition open_perm : Z := 384.   (* 0600 *)

(** Method [newFile], called from [callers]. *)
Definition newFile (E : Env) (callers : list Frame) : M unit :=
  let here line := method_frame E "newFile" line :: callers in
  l <- getL ;;
  closed <-
    match fileWriter l with
    | Some f =>
        err <- File_Close E f ;;
        match err with
        | Some e =>
            ERR E (here 76%N) (AErr e) "Error closing logfile" None ;;
            ret false
        | None => ret true
        end
    | None => ret true
    end ;;
  if (closed : bool) then
    t <- now E ;;
    let fileName := baseName E ++ "_" ++ Format_date t ++ ".log" in
    err <- sys E ;;
    emit (EvOpen fileName open_flags open_perm err) ;;
    match err with
    | Some e => ERR E (here 84%N) (AErr e) "Error creating logfile" None
    | None =>
        modify (fun s => set_L (set_fileWriter (Some (mkFile fileName false))
                                               (L s)) s)
    end
  else ret tt.

(* ================================================================= *)
(** ** The dispatch worker *)

(** Lines 37-51 of [daemon]; [false]: [daemon] returns. *)
Definition daemon_syslog (E : Env) (message : string) : M bool :=
  let here line := [method_frame E "daemon" line] in
  l <- getL ;;
  if SendToSyslog l then
    ready <-
      match syslogWriter l with
      | None =>
          err <- sys E ;;
          emit (EvSyslogNew LOG_INFO (SyslogTag l) err) ;;
          match err with
          | Some e =>
              ERR E (here 41%N) (AErr e) "Error creating syslog" None ;;
              ret false
          | None =>
              modify (fun s => set_L (set_syslogWriter (Some (SyslogTag l))
                                                       (L s)) s) ;;
              ret true
          end
      | Some _ => ret true
      end ;;
    if (ready : bool) then
      err <- sys E ;;
      emit (EvSyslogWrite message err) ;;
      match err with
      | Some e =>
          ERR E (here 48%N) (AErr e) "Error writing to syslog" None ;;
          ret false
      | None => ret true
      end
    else ret false
  else ret true.

(** Lines 53-68 of [daemon]; the result is the new [oldDate], or [None]
    when [daemon] returns. *)
Definition daemon_logfile (E : Env) (oldDate : N) (messageWithTimestamp : string)
  : M (option N) :=
  let here line := [method_frame E "daemon" line] in
  l <- getL ;;
  if SendToLogfile l then
    match fileWriter l with
    | None => newFile E (here 55%N)
    | Some _ => ret tt
    end ;;
    t <- now E ;;
    let newDate := Date_day t in
    oldDate' <-
      (if negb (newDate =? oldDate)%N
       then newFile E (here 59%N) ;; ret newDate
       else ret oldDate) ;;
    err <- File_Write E messageWithTimestamp ;;
    match err with
    | Some e =>
        ERR E (here 65%N) (AErr e) "Error writing to logfile" None ;;
        ret None
    | None => ret (Some oldDate')
    end
  else ret (Some oldDate).

(** One turn of the loop of [daemon], after [message := <-l.logChan]. *)
Definition daemon_body (E : Env) (oldDate : N) (message : string)
  : M (option N) :=
  t <- now E ;;
  let messageWithTimestamp := Format_clock t ++ message in
  l <- getL ;;
  (if SendToStdout l then emit (EvStdout messageWithTimestamp) else ret tt) ;;
  go_on <- daemon_syslog E message ;;
  if (go_on : bool) then daemon_logfile E oldDate messageWithTimestamp
  else ret None.

(** Where the worker stands after a turn of its loop. *)
Definition finish (r : Res (option N)) : State :=
  match r with
  | Ok (Some d) s => set_worker (Running d) s
  | Ok None s => set_worker Returned s
  | Blocked line s => set_worker (Deadlocked line) s
  | Panicked _ s => set_worker Crashed s
  end.

(** The worker's progress, one message at a time (the handling of a
    message is taken as one step; producers run between steps, and a
    sender parked on the full queue gets its line in when it is resumed,
    see [Resume] below, not within the receive: whether a send of the
    worker itself finds room is therefore left open wherever the
    properties speak of one).
    - [Spawned]: [runtime.LockOSThread()] and
      [_, _, oldDate := time.Now().Date()].
    - [Running]: parked on an empty queue, or one turn of the loop.
    - otherwise the goroutine is gone or stuck: nothing happens. *)
Definition worker_step (E : Env) (s : State) : State :=
  match worker s with
  | Spawned => set_worker (Running (Date_day (clock E (nNow s)))) (tick_now s)
  | Running d =>
      match chan_recv s with
      | None => s
      | Some (m, s1) => finish (daemon_body E d m s1)
      end
  | _ => s
  end.

Fixpoint worker_steps (E : Env) (n : nat) (s : State) : State :=
  match n with
  | 0 => s
  | S k => worker_steps E k (worker_step E s)
  end.

(* ================================================================= *)
(** ** [Close] and [init] *)

Section Drain.

(** What the other goroutines (the worker, the producers) do to the
    state while [Close] sleeps for the i-th time. *)
Variable others : nat -> State -> State.

(** [time.Sleep(100 * time.Millisecond)] *)
Definition sleep (i : nat) (s : State) : State :=
  others i (add_event (EvSleep 100) s).

(** Method [Close], started before its [i]-th sleep.  The loop need not
    end; [fuel] bounds the number of sleeps, [None]: still polling. *)
Fixpoint Close (fuel i : nat) (s : State) : option State :=
  if (0 <? length (queue s))%nat then
    match fuel with
    | 0 => None
    | S fuel' => Close fuel' (S i) (sleep i s)
    end
  else Some s.

(** The state at the [k]-th look at the queue. *)
Fixpoint looked (k i : nat) (s : State) : State :=
  match k with
  | 0 => s
  | S k' => looked k' (S i) (sleep i s)
  end.

End Drain.

(** [init]: the singleton and [go L.daemon()]. *)
Definition init : State :=
  mkState
    (mkLog (make_chan 1000) None None "GOLOGGER" LOG_DEBUG true false false)
    Spawned [] 0 0 0 0.

(* ================================================================= *)
(** ** Vocabulary of the properties *)

(** The rest of an input does not go on with a character of [cls]. *)
Definition stops (cls : ascii -> bool) (rest : string) : Prop :=
  match rest with
  | "" => True
  | String c _ => cls c = false
  end.

(** The worker leaves its loop on the result of a last call. *)
Definition halt (r : Res unit) : State :=
  match r with
  | Ok _ s => set_worker Returned s
  | Blocked line s => set_worker (Deadlocked line) s
  | Panicked _ s => set_worker Crashed s
  end.

(** A stretch of [daemon] ends on the result of a last call, with the
    value [a]. *)
Definition ending {A} (a : A) (r : Res unit) : Res A :=
  match r with
  | Ok _ s => Ok a s
  | Blocked line s => Blocked line s
  | Panicked msg s => Panicked msg s
  end.

(** The counters after [ERR] has rendered a line. *)
Definition bump (s : State) : State :=
  tick_sprintf (tick_caller (tick_sprintf s)).

(** The worker's loop is over: [daemon] has returned, or sits for good
    in the enqueue of its own report. *)
Definition stopped (s : State) : Prop :=
  worker s = Returned \/ exists line, worker s = Deadlocked line.

(** A line has been handed to the queue, or the worker is parked
    handing it over. *)
Definition submitted (line : string) (s : State) : Prop :=
  In line (queue s) \/ worker s = Deadlocked line.

(** How often a line stands in a queue. *)
Definition occurrences (line : string) (q : list string) : nat :=
  count_occ string_dec q line.

(** The facade, one call at a time. *)
Inductive Call :=
| CallERR (e : any)
| CallWRN
| CallINF
| CallDBG.

Definition severity (c : Call) : Z :=
  match c with
  | CallERR _ => LOG_ERR
  | CallWRN => LOG_WARNING
  | CallINF => LOG_INFO
  | CallDBG => LOG_DEBUG
  end.

Definition call (E : Env) (callers : list Frame) (c : Call) (prompt : string)
           (v : option (list any)) : M unit :=
  match c with
  | CallERR e => ERR E callers e prompt v
  | CallWRN => WRN E callers prompt v
  | CallINF => INF E callers prompt v
  | CallDBG => DBG E callers prompt v
  end.

(** The sink failures after which [daemon] itself calls [ERR] and
    returns: the line of the call, its prompt, and the error. *)
Definition fatal_event (ev : Event) : option (N * string * string) :=
  match ev with
  | EvSyslogNew _ _ (Some e) => Some (41%N, "Error creating syslog", e)
  | EvSyslogWrite _ (Some e) => Some (48%N, "Error writing to syslog", e)
  | EvFileWrite _ _ (Some e) => Some (65%N, "Error writing to logfile", e)
  | _ => None
  end.

Definition nonfatal (ev : Event) : Prop := fatal_event ev = None.

(** [l.ERR(err, prompt)] at that line of [daemon]. *)
Definition report_of (E : Env) (x : N * string * string) : M unit :=
  let '(line, prompt, e) := x in
  ERR E [method_frame E "daemon" line] (AErr e) prompt None.

(** The line [ERR] renders for an error reported by a method of the
    logger. *)
Definition report (method : string) (line : N) (prompt e : string) : string :=
  render "E" ("Log." ++ method) line (prompt ++ " err{" ++ e ++ "}").

(** The report the logger makes of a failed call, if it makes one. *)
Definition report_line (ev : Event) : option string :=
  match ev with
  | EvSyslogNew _ _ (Some e) => Some (report "daemon" 41 "Error creating syslog" e)
  | EvSyslogWrite _ (Some e) => Some (report "daemon" 48 "Error writing to syslog" e)
  | EvFileWrite _ _ (Some e) => Some (report "daemon" 65 "Error writing to logfile" e)
  | EvClose _ (Some e) => Some (report "newFile" 76 "Error closing logfile" e)
  | EvOpen _ _ _ (Some e) => Some (report "newFile" 84 "Error creating logfile" e)
  | _ => None
  end.

Fixpoint reports (evs : list Event) : list string :=
  match evs with
  | [] => []
  | ev :: rest =>
      match report_line ev with
      | Some l => l :: reports rest
      | None => reports rest
      end
  end.

(** The reports that pass the filter of [ERR] in state [s]. *)
Definition posted (s : State) (evs : list Event) : list string :=
  if (Priority (L s) <? LOG_ERR)%Z then [] else reports evs.

Definition failed_close (ev : Event) : Prop :=
  match ev with
  | EvClose _ (Some _) => True
  | _ => False
  end.

(** No sink call failed in a way that ends the loop, at once or at the
    next write. *)
Definition benign (ev : Event) : Prop := nonfatal ev /\ ~ failed_close ev.

(** Calls of [newFile]. *)
Definition admin (ev : Event) : Prop :=
  match ev with
  | EvClose _ _ | EvOpen _ _ _ _ => True
  | _ => False
  end.

(** [l.fileWriter] points to a file that has been closed. *)
Definition closedW (s : State) : Prop :=
  match fileWriter (L s) with
  | Some f => fclosed f = true
  | None => False
  end.

(** What a sink is handed for the message [m]: the stamped line on the
    console and in the file, the line itself on syslog. *)
Definition conforms (m stamped : string) (ev : Event) : Prop :=
  match ev with
  | EvStdout x => x = stamped
  | EvFileWrite _ x _ => x = stamped
  | EvSyslogWrite x _ => x = m
  | _ => True
  end.

(** What no method of the logger changes: the worker's standing (set by
    [worker_step] only), the configuration, and the queue's capacity. *)
Record frame (s s' : State) : Prop := mkFrameRel {
  fr_worker : worker s' = worker s;
  fr_stdout : SendToStdout (L s') = SendToStdout (L s);
  fr_syslog : SendToSyslog (L s') = SendToSyslog (L s);
  fr_logfile : SendToLogfile (L s') = SendToLogfile (L s);
  fr_priority : Priority (L s') = Priority (L s);
  fr_tag : SyslogTag (L s') = SyslogTag (L s);
  fr_cap : cap (logChan (L s')) = cap (logChan (L s))
}.

(** The ways a stretch of [daemon] can end, started in [s] with result
    [r], having made the calls [evs]: it goes on ([a] is not the value
    that makes [daemon] return); a fatal sink failure, reported at
    [s_mid] as the last thing done; or the worker is parked in the
    report of a failure of [newFile]. *)
Inductive outcome {A : Type} (E : Env) (P : Event -> Prop) (stopv : A)
          (s : State) (r : Res A) (evs : list Event) : Prop :=
| out_pass (a : A) (s' : State) :
    r = Ok a s' -> a <> stopv ->
    trace s' = (trace s ++ evs)%list -> Forall benign evs -> Forall P evs ->
    queue s' = (queue s ++ posted s evs)%list -> frame s s' ->
    outcome E P stopv s r evs
| out_fatal (s_mid : State) (evs0 : list Event) (ev : Event)
            (x : N * string * string) :
    evs = (evs0 ++ [ev])%list -> fatal_event ev = Some x -> Forall nonfatal evs0 ->
    trace s_mid = (trace s ++ evs)%list -> Forall P evs ->
    queue s_mid = (queue s ++ posted s evs0)%list -> frame s s_mid ->
    r = ending stopv (report_of E x s_mid) ->
    outcome E P stopv s r evs
| out_stuck (l : string) (s' : State) :
    r = Blocked l s' ->
    trace s' = (trace s ++ evs)%list -> Forall nonfatal evs -> Forall P evs ->
    (queue s' ++ [l] = queue s ++ posted s evs)%list ->
    (cap (logChan (L s')) <= length (queue s'))%nat -> frame s s' ->
    outcome E P stopv s r evs.

(** How a call of [newFile] ends: it returns, or the worker is parked
    in the report of its failure. *)
Inductive nf_outcome (s : State) (r : Res unit) (evs : list Event) : Prop :=
| nf_done (s' : State) :
    r = Ok tt s' ->
    trace s' = (trace s ++ evs)%list -> Forall admin evs ->
    queue s' = (queue s ++ posted s evs)%list -> frame s s' ->
    (closedW s -> closedW s') -> (closedW s' \/ Forall benign evs) ->
    nf_outcome s r evs
| nf_stuck (l : string) (s' : State) :
    r = Blocked l s' ->
    trace s' = (trace s ++ evs)%list -> Forall admin evs ->
    (queue s' ++ [l] = queue s ++ posted s evs)%list ->
    (cap (logChan (L s')) <= length (queue s'))%nat -> frame s s' ->
    nf_outcome s r evs.

(** The line the console and the file are handed: the message behind
    the time of the first look at the clock in this turn. *)
Definition stamped (E : Env) (s : State) (m : string) : string :=
  Format_clock (clock E (nNow s)) ++ m.

(** The console's share of a turn. *)
Definition console (E : Env) (s : State) (m : string) : list Event :=
  if SendToStdout (L s) then [EvStdout (stamped E s m)] else [].

(** The state [s] with the queue holding [q]: what the worker works on
    once it has taken a message, what producers leave behind. *)
Definition taken (s : State) (q : list string) : State :=
  set_L (set_logChan (mkChan q (cap (logChan (L s)))) (L s)) s.

(** The frame of the facade method a call runs in, and the letter it
    passes to [Log]. *)
Definition facade_frame (E : Env) (c : Call) : Frame :=
  match c with
  | CallERR _ => method_frame E "ERR" 138
  | CallWRN => method_frame E "WRN" 148
  | CallINF => method_frame E "INF" 158
  | CallDBG => method_frame E "DBG" 168
  end.

Definition level_of (c : Call) : ascii :=
  match c with
  | CallERR _ => "E"
  | CallWRN => "W"
  | CallINF => "I"
  | CallDBG => "D"
  end%char.

(** A run of decimal digits of a given length. *)
Definition digits (n : nat) (s : string) : Prop :=
  String.length s = n /\ all_chars is_digit s = true.

(** The number a run of decimal digits reads as, most significant digit
    first. *)
Fixpoint read_from (acc : N) (s : string) : N :=
  match s with
  | "" => acc
  | String c rest => read_from (10 * acc + (N_of_ascii c - 48)) rest
  end.

Definition decimal_value (s : string) : N := read_from 0 s.

(** [s] is the number [n] in exactly [w] decimal digits. *)
Definition padded (w : nat) (n : N) (s : string) : Prop :=
  digits w s /\ decimal_value s = n.

(** [s] is the number [n] in decimal as one writes it: digits only, at
    least one, and no zero in front of another digit. *)
Definition numeral (n : N) (s : string) : Prop :=
  s <> "" /\ all_chars is_digit s = true /\ decimal_value s = n
  /\ forall rest, s = String "0" rest -> rest = "".

(** ** Sample surroundings, for the examples *)

Definition sample_path : string := "github.com/danielwiratman/gologger".

(** 15 January 2024, 09:05:07.123456789. *)
Definition jan15 : Time := mkTime 2024 1 15 9 5 7 123456789.
Definition jan16 : Time := mkTime 2024 1 16 0 0 1 5000000.
Definition feb15 : Time := mkTime 2024 2 15 9 5 7 123456789.

(** A clock that always shows [t], a system that fails exactly at the
    calls listed in [faults]. *)
Definition sample_env (t : Time) (faults : list (nat * string)) : Env :=
  mkEnv (fun _ => t)
        (fun i => match find (fun p => Nat.eqb (fst p) i) faults with
                  | Some p => Some (snd p)
                  | None => None
                  end)
        "app" sample_path (fun p _ => p).

Definition sample_line : string := render "I" "main.main" 10 "hello".

(** A logger at work on 15 January: one line queued, the sinks as
    given, the day's file open or not. *)
Definition sample_state (threshold : Z) (stdout syslog logfile : bool)
           (file : option File) (q : list string) : State :=
  mkState (mkLog (mkChan q 1000) None file "GOLOGGER" threshold
                 stdout syslog logfile)
          (Running 15) [] 0 0 0 0.

Definition jan15_file : File := mkFile "app_2024-01-15.log" false.

(** The messages [lines] sent one after the other. *)
Fixpoint send_all (lines : list string) : M unit :=
  match lines with
  | [] => ret tt
  | l :: rest => chan_send l ;; send_all rest
  end.

(* ================================================================= *)
(** ** Vocabulary of the invariants *)

(** The state a computation leaves, however it ends. *)
Definition state_of {A} (r : Res A) : State :=
  match r with
  | Ok _ s => s
  | Blocked _ s => s
  | Panicked _ s => s
  end.

(** A computation keeps an invariant, however it ends. *)
Definition preserves (I : State -> Prop) {A} (c : M A) : Prop :=
  forall s, I s -> I (state_of (c s)).

(** Invariants that survive what the facade does to the state: it
    counts its calls of [fmt.Sprintf] and [runtime.Caller] and puts a
    line at the end of a queue that has room. *)
Record fstable (I : State -> Prop) : Prop := mkFstable {
  fs_sprintf : forall s, I s -> I (tick_sprintf s);
  fs_caller : forall s, I s -> I (tick_caller s);
  fs_push : forall l s,
      I s -> (length (queue s) < cap (logChan (L s)))%nat ->
      I (taken s (queue s ++ [l]))
}.

(** Invariants that also survive what the worker does inside a turn:
    it reads the clock, calls the system, leaves events, sets the
    syslog writer where there was none, and replaces the file. *)
Record stable (I : State -> Prop) : Prop := mkStable {
  st_facade : fstable I;
  st_event : forall ev s, I s -> I (add_event ev s);
  st_now : forall s, I s -> I (tick_now s);
  st_sys : forall s, I s -> I (tick_sys s);
  st_syslogW : forall w s,
      I s -> syslogWriter (L s) = None ->
      I (set_L (set_syslogWriter (Some w) (L s)) s);
  st_fileW : forall f s, I s -> I (set_L (set_fileWriter (Some f) (L s)) s)
}.

(** ... and what it does between turns: it takes the first line of the
    queue and changes its own standing. *)
Record steady (I : State -> Prop) : Prop := mkSteady {
  sd_stable : stable I;
  sd_take : forall m q s, I s -> queue s = m :: q -> I (taken s q);
  sd_worker : forall w s, I s -> I (set_worker w s)
}.

(** What goes on around the logger, one thing at a time: the worker
    makes a step, a goroutine calls the facade, or a send that was
    parked on a full queue is tried again. *)
Inductive action :=
| Work
| Say (callers : list Frame) (c : Call) (prompt : string)
      (v : option (list any))
| Resume (line : string).

Definition act (E : Env) (a : action) (s : State) : State :=
  match a with
  | Work => worker_step E s
  | Say callers c prompt v => state_of (call E callers c prompt v s)
  | Resume line => state_of (chan_send line s)
  end.

Fixpoint play (E : Env) (acts : list action) (s : State) : State :=
  match acts with
  | [] => s
  | a :: rest => play E rest (act E a s)
  end.

(** The queue holds no more than its capacity. *)
Definition bounded (s : State) : Prop :=
  (length (queue s) <= cap (logChan (L s)))%nat.

(** The configuration of [s'] is that of [s]. *)
Definition same_config (s s' : State) : Prop :=
  SendToStdout (L s') = SendToStdout (L s)
  /\ SendToSyslog (L s') = SendToSyslog (L s)
  /\ SendToLogfile (L s') = SendToLogfile (L s)
  /\ Priority (L s') = Priority (L s)
  /\ SyslogTag (L s') = SyslogTag (L s)
  /\ cap (logChan (L s')) = cap (logChan (L s)).

(** The state after a turn that only the console takes part in. *)
Definition console_state (E : Env) (s : State) (m : string)
           (q : list string) : State :=
  if SendToStdout (L s)
  then add_event (EvStdout (stamped E s m)) (tick_now (taken s q))
  else tick_now (taken s q).

(** What the console is handed for the lines [ms], the first one at the
    [n]-th look at the clock. *)
Fixpoint delivered (E : Env) (n : nat) (ms : list string) : list Event :=
  match ms with
  | [] => []
  | m :: rest =>
      EvStdout (Format_clock (clock E n) ++ m) :: delivered E (S n) rest
  end.

Definition is_stdout (ev : Event) : Prop :=
  match ev with
  | EvStdout _ => True
  | _ => False
  end.

Definition is_syslog_new (ev : Event) : Prop :=
  match ev with
  | EvSyslogNew _ _ _ => True
  | _ => False
  end.

(** The text a facade call hands to [Log]: the prompt, formatted when
    there are arguments, and for [ERR] the rendering of the cause. *)
Definition formatted (E : Env) (prompt : string) (v : option (list any))
  : string :=
  match v with
  | Some args => Sprintf E prompt args
  | None => prompt
  end.

Definition cause_text (e : any) (p : string) : string :=
  match e with
  | AErr msg => p ++ " err{" ++ msg ++ "}"
  | AStr str => p ++ " err{" ++ str ++ "}"
  | AByte b => p ++ " RC:" ++ appendInt b 2
  | AInt _ => p
  | AOther v => p ++ " ???{type(" ++ v ++ ")=" ++ v ++ "}"
  end.

Definition call_text (E : Env) (c : Call) (prompt : string)
           (v : option (list any)) : string :=
  match c with
  | CallERR e => cause_text e (formatted E prompt v)
  | _ => formatted E prompt v
  end.

Definition int_cause (c : Call) : Prop :=
  match c with
  | CallERR (AInt _) => True
  | _ => False
  end.

(** The line a facade call renders for the stack [callers] above it. *)
Definition call_line (E : Env) (callers : list Frame) (c : Call)
           (prompt : string) (v : option (list any)) : string :=
  render (level_of c) (fst (resolved (nth_error callers 0)))
         (snd (resolved (nth_error callers 0))) (call_text E c prompt v).

(** The state a facade call leaves apart from the queue: the counters
    of the calls it made. *)
Definition counted (c : Call) (v : option (list any)) (s : State) : State :=
  let s1 := match v with Some _ => tick_sprintf s | None => s end in
  let s2 := match c with CallERR _ => tick_sprintf s1 | _ => s1 end in
  tick_sprintf (tick_caller s2).

(** What a facade call can touch: the queue, at its end, and the
    counters of its own calls. *)
Definition only_queued (s s' : State) : Prop :=
  trace s' = trace s /\ worker s' = worker s
  /\ nNow s' = nNow s /\ nSys s' = nSys s
  /\ syslogWriter (L s') = syslogWriter (L s)
  /\ fileWriter (L s') = fileWriter (L s)
  /\ same_config s s'
  /\ exists more, queue s' = (queue s ++ more)%list.

(** With syslog and the file off, as [init] leaves them: no handle, only
    console writes so far, and a worker that is about to run or runs. *)
Definition console_only_state (s : State) : Prop :=
  SendToSyslog (L s) = false /\ SendToLogfile (L s) = false
  /\ syslogWriter (L s) = None /\ fileWriter (L s) = None
  /\ Forall is_stdout (trace s)
  /\ (worker s = Spawned \/ exists d, worker s = Running d).

(** Nothing has been written since [s], and the queue has only grown. *)
Definition silent_since (s s' : State) : Prop :=
  worker s' = worker s /\ trace s' = trace s
  /\ exists more, queue s' = (queue s ++ more)%list.

(** Any call but [syslog.New]. *)
Definition not_syslog_new (ev : Event) : Prop := ~ is_syslog_new ev.

(** The syslog writer is there. *)
Definition connected (w : string) (s : State) : Prop :=
  syslogWriter (L s) = Some w.

(* ================================================================= *)
(** * Properties *)

(* ================================================================= *)
(** ** Strings *)

Lemma append_empty_r (s : string) : s ++ "" = s.
Proof. induction s as [|c s IH]; simpl; [reflexivity | now rewrite IH]. Qed.

Lemma append_assoc' (a b c : string) : (a ++ b) ++ c = a ++ (b ++ c).
Proof. induction a as [|x a IH]; simpl; [reflexivity | now rewrite IH]. Qed.

Lemma has_char_append (c : ascii) (a b : string) :
  has_char c (a ++ b) = has_char c a || has_char c b.
Proof.
  induction a as [|x a IH]; simpl; [reflexivity |].
  now rewrite IH, orb_assoc.
Qed.

(** A string made of characters of a class has none from outside it. *)
Lemma all_chars_has_char (p : ascii -> bool) (c : ascii) (s : string) :
  p c = false -> all_chars p s = true -> has_char c s = false.
Proof.
  intros Hc. induction s as [|x s IH]; simpl; [reflexivity |].
  intros H. apply andb_true_iff in H as [Hx Hs].
  rewrite (IH Hs), orb_false_r.
  destruct (Ascii.eqb_spec c x) as [->|]; [congruence | reflexivity].
Qed.

(* ================================================================= *)
(** ** The matcher on the pattern of [Log] *)

Module RegexpFacts.

(** Greedy: when the continuation accepts the longest run, that is the
    answer. *)
Lemma star_longest cls body :
  forall rest k r,
    all_chars cls body = true ->
    stops cls rest ->
    k body rest = Some r ->
    star cls (body ++ rest) k = Some r.
Proof.
  induction body as [|c body IH]; intros rest k r Hall Hstop Hk; simpl in *.
  - destruct rest as [|d rest]; simpl in *; [assumption |].
    now rewrite Hstop.
  - apply andb_true_iff in Hall as [Hc Hall]. rewrite Hc.
    now rewrite (IH rest (fun m rest0 => k (String c m) rest0) r Hall Hstop Hk).
Qed.

(** Whatever [star] answers, the continuation answered it on a split
    of the input whose first part lies in the class. *)
Lemma star_split cls :
  forall s k r,
    star cls s k = Some r ->
    exists body rest,
      s = body ++ rest /\ all_chars cls body = true /\ k body rest = Some r.
Proof.
  induction s as [|c s IH]; intros k r H; simpl in H.
  - exists "", "". auto.
  - destruct (cls c) eqn:Hc.
    + destruct (star cls s (fun m rest => k (String c m) rest)) as [r'|] eqn:Hs.
      * injection H as <-.
        apply IH in Hs as (body & rest & -> & Hall & Hk).
        exists (String c body), rest. simpl. now rewrite Hc, Hall.
      * exists "", (String c s). auto.
    + exists "", (String c s). auto.
Qed.

Lemma cls_type_star : cls_type "*" = false.
Proof. reflexivity. Qed.

Lemma cls_method_star : cls_method "*" = false.
Proof. reflexivity. Qed.

(** An anchored match is ["(*"], a type, [")."], a method, and the end. *)
Lemma match_here_shape s r :
  match_here method_pattern s = Some r ->
  exists ty me,
    s = "(*" ++ ty ++ ")." ++ me
    /\ all_chars cls_type ty = true /\ all_chars cls_method me = true
    /\ r = [s; ty; me].
Proof.
  unfold match_here, method_pattern. cbn [run].
  destruct s as [|c0 s]; [discriminate |].
  destruct (Ascii.eqb_spec "("%char c0) as [<-|]; [|discriminate].
  destruct s as [|c1 s]; [discriminate |].
  destruct (Ascii.eqb_spec "*"%char c1) as [<-|]; [|discriminate].
  destruct s as [|t0 s]; [discriminate |].
  destruct (cls_type t0) eqn:Ht0; [|discriminate].
  intros H. apply star_split in H as (ty & rest & -> & Hty & H).
  cbv beta in H.
  destruct rest as [|c2 rest]; [discriminate |].
  destruct (Ascii.eqb_spec ")"%char c2) as [<-|]; [|discriminate].
  destruct rest as [|c3 rest]; [discriminate |].
  destruct (Ascii.eqb_spec "."%char c3) as [<-|]; [|discriminate].
  destruct rest as [|m0 rest]; [discriminate |].
  destruct (cls_method m0) eqn:Hm0; [|discriminate].
  apply star_split in H as (me & rest' & -> & Hme & H).
  cbv beta in H.
  destruct rest' as [|? ?]; [|discriminate].
  injection H as <-.
  exists (String t0 ty), (String m0 me).
  cbn [all_chars append app]. rewrite Ht0, Hm0, Hty, Hme, !append_empty_r.
  repeat split; reflexivity.
Qed.

(** The pattern matches at the start of a method-style name, and the
    groups are the type and the method. *)
Lemma match_here_method ty me :
  ty <> "" -> me <> "" ->
  all_chars cls_type ty = true -> all_chars cls_method me = true ->
  match_here method_pattern ("(*" ++ ty ++ ")." ++ me)
  = Some ["(*" ++ ty ++ ")." ++ me; ty; me].
Proof.
  intros Hty0 Hme0 Hty Hme.
  destruct ty as [|t0 ty]; [congruence |].
  destruct me as [|m0 me]; [congruence |].
  simpl in Hty, Hme.
  apply andb_true_iff in Hty as [Ht0 Hty].
  apply andb_true_iff in Hme as [Hm0 Hme].
  unfold match_here, method_pattern. cbn [run append].
  rewrite !Ascii.eqb_refl, Ht0.
  apply star_longest; [assumption | reflexivity |].
  cbn [append]. rewrite !Ascii.eqb_refl, Hm0.
  rewrite <- (append_empty_r me) at 1.
  apply star_longest; [assumption | exact I |].
  cbn [append app]. now rewrite !append_empty_r.
Qed.

(** No anchored match has a star after its second character. *)
Lemma match_here_star_free a b s r :
  match_here method_pattern (String a (String b s)) = Some r ->
  has_char "*" s = false.
Proof.
  intros H. apply match_here_shape in H as (ty & me & Hs & Hty & Hme & _).
  simpl in Hs. injection Hs as _ _ Hs. subst s.
  rewrite has_char_append. simpl.
  rewrite (all_chars_has_char _ _ _ cls_type_star Hty).
  now rewrite (all_chars_has_char _ _ _ cls_method_star Hme).
Qed.

Lemma find_here r s m :
  match_here r s = Some m -> FindStringSubmatch r s = Some m.
Proof. intros H. destruct s; cbn [FindStringSubmatch]; now rewrite H. Qed.

(** [FindStringSubmatch] on a name that ends in a method-style suffix:
    the match is that suffix, wherever it starts. *)
Lemma find_method prefix ty me :
  ty <> "" -> me <> "" ->
  all_chars cls_type ty = true -> all_chars cls_method me = true ->
  FindStringSubmatch method_pattern (prefix ++ "(*" ++ ty ++ ")." ++ me)
  = Some ["(*" ++ ty ++ ")." ++ me; ty; me].
Proof.
  intros Hty0 Hme0 Hty Hme.
  induction prefix as [|c prefix IH].
  - apply find_here. now apply match_here_method.
  - change (String c prefix ++ "(*" ++ ty ++ ")." ++ me)
      with (String c (prefix ++ "(*" ++ ty ++ ")." ++ me)).
    cbn [FindStringSubmatch].
    destruct (match_here method_pattern
                (String c (prefix ++ "(*" ++ ty ++ ")." ++ me))) as [r|] eqn:Hm;
      [exfalso | exact IH].
    destruct prefix as [|b prefix].
    + apply match_here_star_free in Hm. discriminate.
    + change (String b prefix ++ "(*" ++ ty ++ ")." ++ me)
        with (String b (prefix ++ "(*" ++ ty ++ ")." ++ me)) in Hm.
      apply match_here_star_free in Hm.
      rewrite has_char_append in Hm. simpl in Hm.
      now rewrite orb_true_r in Hm.
Qed.

(** A name without a star has no match. *)
Lemma find_plain name :
  has_char "*" name = false ->
  FindStringSubmatch method_pattern name = None.
Proof.
  induction name as [|c name IH]; intros H.
  - reflexivity.
  - cbn [FindStringSubmatch].
    destruct (match_here method_pattern (String c name)) as [r|] eqn:Hm.
    + apply match_here_shape in Hm as (ty & me & Hs & _).
      rewrite Hs in H. discriminate.
    + simpl in H. apply orb_false_iff in H as [_ H]. auto.
Qed.

End RegexpFacts.

(* ================================================================= *)
(** ** The monad, the frame, the queue *)

Ltac conjs := repeat match goal with |- _ /\ _ => split end.

Lemma bind_Ok {A B} (m : M A) (k : A -> M B) s a s' :
  m s = Ok a s' -> bind m k s = k a s'.
Proof. unfold bind. now intros ->. Qed.

Lemma bind_Blocked {A B} (m : M A) (k : A -> M B) s l s' :
  m s = Blocked l s' -> bind m k s = Blocked l s'.
Proof. unfold bind. now intros ->. Qed.

Lemma bind_ret {A B} (a : A) (k : A -> M B) s : bind (ret a) k s = k a s.
Proof. reflexivity. Qed.

Lemma bind_getL {B} (k : Log -> M B) s : bind getL k s = k (L s) s.
Proof. reflexivity. Qed.

Lemma bind_emit {B} (ev : Event) (k : unit -> M B) s :
  bind (emit ev) k s = k tt (add_event ev s).
Proof. reflexivity. Qed.

Lemma bind_modify {B} (f : State -> State) (k : unit -> M B) s :
  bind (modify f) k s = k tt (f s).
Proof. reflexivity. Qed.

Lemma bind_sys {B} (E : Env) (k : option string -> M B) s :
  bind (sys E) k s = k (fault E (nSys s)) (tick_sys s).
Proof. reflexivity. Qed.

Lemma bind_now {B} (E : Env) (k : Time -> M B) s :
  bind (now E) k s = k (clock E (nNow s)) (tick_now s).
Proof. reflexivity. Qed.

Lemma bind_bind {A B C} (m : M A) (f : A -> M B) (k : B -> M C) s :
  bind (bind m f) k s = bind m (fun a => bind (f a) k) s.
Proof. unfold bind. now destruct (m s). Qed.

(** One step of a computation at a time. *)
Ltac go :=
  repeat (rewrite ?bind_bind, ?bind_ret, ?bind_getL, ?bind_emit, ?bind_modify,
            ?bind_sys, ?bind_now; cbv beta).

Lemma frame_refl s : frame s s.
Proof. now constructor. Qed.

Lemma frame_trans s1 s2 s3 : frame s1 s2 -> frame s2 s3 -> frame s1 s3.
Proof.
  intros [] []. constructor; etransitivity; eassumption.
Qed.

Lemma reports_app (a b : list Event) :
  reports (a ++ b) = (reports a ++ reports b)%list.
Proof.
  induction a as [|ev a IH]; simpl; [reflexivity |].
  destruct (report_line ev); simpl; now rewrite IH.
Qed.

Lemma posted_app s (a b : list Event) :
  posted s (a ++ b) = (posted s a ++ posted s b)%list.
Proof.
  unfold posted. destruct (Priority (L s) <? LOG_ERR)%Z; [reflexivity |].
  apply reports_app.
Qed.

Lemma posted_frame s s' evs : frame s s' -> posted s' evs = posted s evs.
Proof. intros F. unfold posted. now rewrite (fr_priority _ _ F). Qed.

Lemma posted_quiet s evs : reports evs = [] -> posted s evs = [].
Proof. intros H. unfold posted. rewrite H. now destruct (_ <? _)%Z. Qed.

(** A send puts the line at the end of the queue, or parks the sender
    on a full queue. *)
Lemma chan_send_cases line s :
  (exists s', chan_send line s = Ok tt s'
              /\ queue s' = (queue s ++ [line])%list
              /\ trace s' = trace s /\ frame s s'
              /\ fileWriter (L s') = fileWriter (L s)
              /\ syslogWriter (L s') = syslogWriter (L s))
  \/ (chan_send line s = Blocked line s
      /\ (cap (logChan (L s)) <= length (queue s))%nat).
Proof.
  unfold chan_send, queue.
  destruct (Nat.ltb_spec (length (buf (logChan (L s)))) (cap (logChan (L s)))).
  - left. eexists. split; [reflexivity |].
    conjs; try reflexivity. now constructor.
  - right. split; [reflexivity | assumption].
Qed.

(* ================================================================= *)
(** ** Caller names, and [ERR] called by the logger's own methods *)

(** A method of [*Log] is named after the type, whatever the import
    path of the package. *)
Lemma caller_name_method (E : Env) (method : string) (line : N) :
  method <> "" -> all_chars cls_method method = true ->
  caller_name (fn_name (method_frame E method line)) = "Log." ++ method.
Proof.
  intros Hne Hall. unfold caller_name, method_frame. cbn [fn_name].
  replace (pkgPath E ++ ".(*Log)." ++ method)
    with ((pkgPath E ++ ".") ++ "(*" ++ "Log" ++ ")." ++ method)
    by (now rewrite append_assoc').
  rewrite RegexpFacts.find_method by (assumption || reflexivity || discriminate).
  reflexivity.
Qed.

(** [ERR] with an error value and no arguments, called at [line] of
    [method]: nothing below the threshold, else the rendered report is
    sent. *)
Lemma ERR_method (E : Env) (method : string) (line : N) (cs : list Frame)
      (e prompt : string) (s : State) :
  method <> "" -> all_chars cls_method method = true ->
  ERR E (method_frame E method line :: cs) (AErr e) prompt None s
  = if (Priority (L s) <? LOG_ERR)%Z then Ok tt s
    else chan_send (report method line prompt e) (bump s).
Proof.
  intros Hne Hall. unfold ERR, bind, getL.
  destruct (Priority (L s) <? LOG_ERR)%Z; [reflexivity |].
  unfold report. rewrite <- (caller_name_method E method line Hne Hall).
  reflexivity.
Qed.

Lemma report_of_fatal (E : Env) (ev : Event) (x : N * string * string) s :
  fatal_event ev = Some x ->
  exists line,
    report_line ev = Some line
    /\ report_of E x s
       = if (Priority (L s) <? LOG_ERR)%Z then Ok tt s
         else chan_send line (bump s).
Proof.
  intros H.
  destruct ev as [| ? ? [e|] | ? [e|] | | | ? ? [e|] | ]; try discriminate;
    injection H as <-; eexists; (split; [reflexivity |]);
    unfold report_of; now rewrite ERR_method.
Qed.

Lemma ERR_method_cases (E : Env) (method : string) (line : N)
      (cs : list Frame) (e prompt : string) (s : State) :
  method <> "" -> all_chars cls_method method = true ->
  let l := report method line prompt e in
  let r := ERR E (method_frame E method line :: cs) (AErr e) prompt None s in
  (exists s',
      r = Ok tt s' /\ trace s' = trace s
      /\ queue s' = (queue s ++ if (Priority (L s) <? LOG_ERR)%Z then [] else [l])%list
      /\ frame s s' /\ fileWriter (L s') = fileWriter (L s))
  \/ (exists s',
         r = Blocked l s' /\ trace s' = trace s /\ queue s' = queue s
         /\ frame s s' /\ (Priority (L s) <? LOG_ERR)%Z = false
         /\ (cap (logChan (L s')) <= length (queue s'))%nat).
Proof.
  intros Hne Hall l r. subst r. rewrite ERR_method by assumption. fold l.
  destruct (Priority (L s) <? LOG_ERR)%Z eqn:Hp.
  - left. exists s. rewrite app_nil_r. conjs; try reflexivity.
    apply frame_refl.
  - destruct (chan_send_cases l (bump s))
      as [(s' & -> & Hq & Ht & F & Hf & _) | [-> Hfull]].
    + left. exists s'. conjs; try assumption; try reflexivity.
      eapply frame_trans; [|exact F]. now constructor.
    + right. exists (bump s). conjs; try assumption; try reflexivity.
      now constructor.
Qed.

(* ================================================================= *)
(** ** The file sink *)

Ltac frame_by_computation := constructor; reflexivity.

(** The report of a failure of [newFile] is the last thing it does. *)
Lemma nf_report (E : Env) (cs : list Frame) (line : N) (prompt e : string)
      (s s1 : State) (evs : list Event) (r : Res unit) :
  let call :=
    ERR E (method_frame E "newFile" line :: cs) (AErr e) prompt None s1 in
  (forall s', call = Ok tt s' -> r = Ok tt s') ->
  (forall l s', call = Blocked l s' -> r = Blocked l s') ->
  frame s s1 -> trace s1 = (trace s ++ evs)%list -> queue s1 = queue s ->
  Forall admin evs -> reports evs = [report "newFile" line prompt e] ->
  (closedW s -> closedW s1) -> (closedW s1 \/ Forall benign evs) ->
  nf_outcome s r evs.
Proof.
  intros call HOk HBl F Ht Hq Hadm Hrep Hcl Hben.
  assert (Hne : "newFile" <> "") by discriminate.
  assert (Hall : all_chars cls_method "newFile" = true) by reflexivity.
  destruct (ERR_method_cases E "newFile" line cs e prompt s1 Hne Hall)
    as [(s' & Hr & Ht' & Hq' & F' & Hw) | (s' & Hr & Ht' & Hq' & F' & Hp & Hfull)].
  - apply nf_done with s'.
    + now apply HOk.
    + now rewrite Ht'.
    + assumption.
    + rewrite Hq', Hq. unfold posted. rewrite Hrep, (fr_priority _ _ F).
      now destruct (Priority (L s) <? LOG_ERR)%Z.
    + eapply frame_trans; eassumption.
    + intros H. unfold closedW. rewrite Hw. now apply Hcl.
    + destruct Hben as [H|H]; [left | now right].
      unfold closedW. now rewrite Hw.
  - eapply nf_stuck with (s' := s').
    + apply HBl. exact Hr.
    + now rewrite Ht'.
    + assumption.
    + rewrite Hq', Hq. unfold posted. rewrite Hrep.
      rewrite (fr_priority _ _ F) in Hp. now rewrite Hp.
    + assumption.
    + eapply frame_trans; eassumption.
Qed.

Lemma benign_open name flags perm err : benign (EvOpen name flags perm err).
Proof. split; [reflexivity | exact (fun x => x)]. Qed.

Lemma benign_close name : benign (EvClose name None).
Proof. split; [reflexivity | exact (fun x => x)]. Qed.

(** Every way through [newFile]. *)
Lemma newFile_spec (E : Env) (cs : list Frame) (s : State) :
  exists evs, nf_outcome s (newFile E cs s) evs.
Proof.
  unfold newFile. go.
  destruct (fileWriter (L s)) as [f|] eqn:Hf.
  - unfold File_Close. destruct (fclosed f) eqn:Hc; go.
    + (* the file was closed before *)
      eexists. eapply nf_report with (line := 76%N).
      * intros s' H. unfold bind. now rewrite H.
      * intros l s' H. unfold bind. now rewrite H.
      * frame_by_computation.
      * reflexivity.
      * reflexivity.
      * repeat constructor.
      * reflexivity.
      * intros _. unfold closedW. cbn. now rewrite Hf.
      * left. unfold closedW. cbn. now rewrite Hf.
    + (* [Close] reaches the system *)
      destruct (fault E (nSys s)) as [e|] eqn:Hfault; go.
      * eexists. eapply nf_report with (line := 76%N).
        -- intros s' H. unfold bind. now rewrite H.
        -- intros l s' H. unfold bind. now rewrite H.
        -- frame_by_computation.
        -- reflexivity.
        -- reflexivity.
        -- repeat constructor.
        -- reflexivity.
        -- intros _. reflexivity.
        -- left. reflexivity.
      * (* closed; now the new file *)
        cbn [nSys tick_sys tick_now add_event set_L].
        destruct (fault E (S (nSys s))) as [e|] eqn:Hfault2; go.
        -- eexists. eapply nf_report with (line := 84%N).
           ++ intros s' H. exact H.
           ++ intros l s' H. exact H.
           ++ frame_by_computation.
           ++ cbn. rewrite <- app_assoc. reflexivity.
           ++ reflexivity.
           ++ repeat constructor.
           ++ reflexivity.
           ++ intros _. reflexivity.
           ++ left. reflexivity.
        -- eexists. eapply nf_done.
           ++ reflexivity.
           ++ cbn. rewrite <- app_assoc. reflexivity.
           ++ repeat constructor.
           ++ rewrite posted_quiet by reflexivity. now rewrite app_nil_r.
           ++ frame_by_computation.
           ++ unfold closedW at 1. rewrite Hf, Hc. discriminate.
           ++ right. repeat constructor; auto using benign_open, benign_close.
  - (* no file yet *)
    go. cbn [nSys tick_sys tick_now add_event set_L].
    destruct (fault E (nSys s)) as [e|] eqn:Hfault; go.
    + eexists. eapply nf_report with (line := 84%N).
      * intros s' H. exact H.
      * intros l s' H. exact H.
      * frame_by_computation.
      * reflexivity.
      * reflexivity.
      * repeat constructor.
      * reflexivity.
      * unfold closedW at 1. now rewrite Hf.
      * right. repeat constructor; auto using benign_open.
    + eexists. eapply nf_done.
      * reflexivity.
      * reflexivity.
      * repeat constructor.
      * rewrite posted_quiet by reflexivity. now rewrite app_nil_r.
      * frame_by_computation.
      * unfold closedW at 1. now rewrite Hf.
      * right. repeat constructor; auto using benign_open.
Qed.

Lemma admin_nonfatal ev : admin ev -> nonfatal ev.
Proof. destruct ev; simpl; intros H; try contradiction; reflexivity. Qed.

Lemma benign_nonfatal ev : benign ev -> nonfatal ev.
Proof. now intros []. Qed.

(** A call of [newFile] after some calls that went well. *)
Lemma nf_shift (s s1 : State) (evs1 evs2 : list Event) (r : Res unit) :
  frame s s1 -> trace s1 = (trace s ++ evs1)%list ->
  queue s1 = (queue s ++ posted s evs1)%list -> Forall admin evs1 ->
  (closedW s -> closedW s1) -> (closedW s1 \/ Forall benign evs1) ->
  nf_outcome s1 r evs2 ->
  nf_outcome s r (evs1 ++ evs2).
Proof.
  intros F Ht Hq Hadm Hcl Hben [s2 Hr Ht2 Hadm2 Hq2 F2 Hcl2 Hben2
                               | l s2 Hr Ht2 Hadm2 Hq2 Hfull F2].
  - apply nf_done with s2; try assumption.
    + now rewrite Ht2, Ht, app_assoc.
    + now apply Forall_app.
    + now rewrite Hq2, Hq, (posted_frame _ _ _ F), posted_app, app_assoc.
    + eapply frame_trans; eassumption.
    + auto.
    + destruct Hben as [H|H]; [left; auto |].
      destruct Hben2 as [H2|H2]; [now left | right].
      now apply Forall_app.
  - apply nf_stuck with l s2; try assumption.
    + now rewrite Ht2, Ht, app_assoc.
    + now apply Forall_app.
    + now rewrite Hq2, Hq, (posted_frame _ _ _ F), posted_app, app_assoc.
    + eapply frame_trans; eassumption.
Qed.

(** A stretch of [daemon] after some calls that went well. *)
Lemma outcome_shift {A} (E : Env) (P : Event -> Prop) (stopv : A)
      (s s1 : State) (evs1 evs2 : list Event) (r : Res A) :
  frame s s1 -> trace s1 = (trace s ++ evs1)%list ->
  queue s1 = (queue s ++ posted s evs1)%list ->
  Forall benign evs1 -> Forall P evs1 ->
  outcome E P stopv s1 r evs2 ->
  outcome E P stopv s r (evs1 ++ evs2).
Proof.
  intros F Ht Hq Hben HP
         [a s2 Hr Ha Ht2 Hben2 HP2 Hq2 F2
         | s_mid evs0 ev x Hevs Hx Hnf Ht2 HP2 Hq2 F2 Hr
         | l s2 Hr Ht2 Hnf HP2 Hq2 Hfull F2].
  - apply out_pass with a s2; try assumption.
    + now rewrite Ht2, Ht, app_assoc.
    + now apply Forall_app.
    + now apply Forall_app.
    + now rewrite Hq2, Hq, (posted_frame _ _ _ F), posted_app, app_assoc.
    + eapply frame_trans; eassumption.
  - apply out_fatal with s_mid (evs1 ++ evs0)%list ev x; try assumption.
    + now rewrite Hevs, app_assoc.
    + apply Forall_app. split; [|assumption].
      eapply Forall_impl; [|exact Hben]. apply benign_nonfatal.
    + now rewrite Ht2, Ht, app_assoc.
    + now apply Forall_app.
    + now rewrite Hq2, Hq, (posted_frame _ _ _ F), posted_app, app_assoc.
    + eapply frame_trans; eassumption.
  - apply out_stuck with l s2; try assumption.
    + now rewrite Ht2, Ht, app_assoc.
    + apply Forall_app. split; [|assumption].
      eapply Forall_impl; [|exact Hben]. apply benign_nonfatal.
    + now apply Forall_app.
    + now rewrite Hq2, Hq, (posted_frame _ _ _ F), posted_app, app_assoc.
    + eapply frame_trans; eassumption.
Qed.

(** A stretch that makes no call. *)
Lemma outcome_idle {A} (E : Env) (P : Event -> Prop) (stopv a : A) (s : State) :
  a <> stopv -> outcome E P stopv s (Ok a s) [].
Proof.
  intros Ha.
  apply out_pass with a s;
    [ reflexivity | assumption | now rewrite app_nil_r | constructor
    | constructor | | apply frame_refl ].
  rewrite posted_quiet by reflexivity. now rewrite app_nil_r.
Qed.

Lemma nf_idle (s : State) : nf_outcome s (Ok tt s) [].
Proof.
  apply nf_done with s;
    [ reflexivity | now rewrite app_nil_r | constructor | | apply frame_refl
    | auto | right; constructor ].
  rewrite posted_quiet by reflexivity. now rewrite app_nil_r.
Qed.

(** The write that ends the file sink's turn (lines 63-67). *)
Lemma write_tail (E : Env) (P : Event -> Prop) (d' : N) (mts : string)
      (s s3 : State) (evs : list Event) :
  frame s s3 -> trace s3 = (trace s ++ evs)%list -> Forall admin evs ->
  queue s3 = (queue s ++ posted s evs)%list ->
  (closedW s3 \/ Forall benign evs) ->
  (forall ev, admin ev -> P ev) ->
  (forall f err, P (EvFileWrite f mts err)) ->
  exists evs',
    outcome E P None s
      (bind (File_Write E mts)
            (fun err =>
               match err with
               | Some e =>
                   ERR E [method_frame E "daemon" 65] (AErr e)
                       "Error writing to logfile" None ;;
                   ret None
               | None => ret (Some d')
               end) s3) evs'.
Proof.
  intros F Ht Hadm Hq Hben HPadm HPw.
  assert (HP : Forall P evs) by (eapply Forall_impl; [apply HPadm | exact Hadm]).
  assert (Hnf : Forall nonfatal evs)
    by (eapply Forall_impl; [apply admin_nonfatal | exact Hadm]).
  assert (Fatal : forall fo e s_mid,
             frame s3 s_mid -> trace s_mid = (trace s3 ++ [EvFileWrite fo mts (Some e)])%list ->
             queue s_mid = queue s3 ->
             outcome E P (@None N) s
               (bind (ERR E [method_frame E "daemon" 65] (AErr e)
                          "Error writing to logfile" None)
                     (fun _ => ret (@None N)) s_mid)
               (evs ++ [EvFileWrite fo mts (Some e)])).
  { intros fo e s_mid F' Ht' Hq'.
    eapply out_fatal with (s_mid := s_mid) (evs0 := evs)
                          (x := (65%N, "Error writing to logfile", e)).
    - reflexivity.
    - reflexivity.
    - assumption.
    - now rewrite Ht', Ht, app_assoc.
    - apply Forall_app. split; [assumption |]. repeat constructor. apply HPw.
    - now rewrite Hq', Hq.
    - eapply frame_trans; eassumption.
    - unfold report_of, ending, bind. now destruct (ERR _ _ _ _ _ _). }
  unfold File_Write. go.
  destruct (fileWriter (L s3)) as [f|] eqn:Hf; go.
  - destruct (fclosed f) eqn:Hc; go.
    + eexists. apply Fatal; [frame_by_computation | reflexivity | reflexivity].
    + destruct (fault E (nSys s3)) as [e|] eqn:Hfault; go.
      * eexists. apply Fatal; [frame_by_computation | reflexivity | reflexivity].
      * exists (evs ++ [EvFileWrite (Some (fname f)) mts None])%list.
        eapply out_pass.
        -- reflexivity.
        -- discriminate.
        -- cbn. now rewrite Ht, app_assoc.
        -- apply Forall_app. split.
           ++ destruct Hben as [H|H]; [|assumption].
              unfold closedW in H. rewrite Hf, Hc in H. discriminate.
           ++ repeat constructor. exact (fun x => x).
        -- apply Forall_app. split; [assumption |]. repeat constructor. apply HPw.
        -- rewrite posted_app, (posted_quiet _ [_]) by reflexivity.
           rewrite app_nil_r. exact Hq.
        -- eapply frame_trans; [exact F | frame_by_computation].
  - eexists. apply Fatal; [frame_by_computation | reflexivity | reflexivity].
Qed.

(** Every way through the file sink's turn. *)
Lemma daemon_logfile_outcome (E : Env) (P : Event -> Prop) (d : N)
      (mts : string) (s : State) :
  (forall ev, admin ev -> P ev) ->
  (forall f err, P (EvFileWrite f mts err)) ->
  exists evs, outcome E P None s (daemon_logfile E d mts s) evs.
Proof.
  intros HPadm HPw.
  assert (Stuck : forall l s' evs,
             trace s' = (trace s ++ evs)%list -> Forall admin evs ->
             (queue s' ++ [l] = queue s ++ posted s evs)%list ->
             (cap (logChan (L s')) <= length (queue s'))%nat -> frame s s' ->
             outcome E P (@None N) s (Blocked l s') evs).
  { intros l s' evs Ht Hadm Hq Hfull F.
    apply out_stuck with l s'; try assumption; try reflexivity.
    - eapply Forall_impl; [apply admin_nonfatal | exact Hadm].
    - eapply Forall_impl; [apply HPadm | exact Hadm]. }
  unfold daemon_logfile. go.
  destruct (SendToLogfile (L s)) eqn:Hon.
  2:{ exists []. apply outcome_idle. discriminate. }
  (* lines 54-56 *)
  assert (H1 : exists evs1,
             nf_outcome s
               (match fileWriter (L s) with
                | Some _ => ret tt
                | None => newFile E [method_frame E "daemon" 55]
                end s) evs1).
  { destruct (fileWriter (L s)); [|apply newFile_spec].
    exists []. apply nf_idle. }
  destruct H1 as [evs1 [s1 Hr1 Ht1 Hadm1 Hq1 F1 Hcl1 Hben1
                       | l s1 Hr1 Ht1 Hadm1 Hq1 Hfull1 F1]].
  2:{ exists evs1. rewrite (bind_Blocked _ _ _ _ _ Hr1). now apply Stuck. }
  rewrite (bind_Ok _ _ _ _ _ Hr1). go.
  (* lines 57-61 *)
  destruct (negb (Date_day (clock E (nNow s1)) =? d)%N); go.
  - destruct (newFile_spec E [method_frame E "daemon" 59] (tick_now s1))
      as [evs2 H2].
    apply (nf_shift s (tick_now s1) evs1 evs2) in H2; try assumption.
    destruct H2 as [s2 Hr2 Ht2 Hadm2 Hq2 F2 Hcl2 Hben2
                   | l s2 Hr2 Ht2 Hadm2 Hq2 Hfull2 F2].
    + rewrite (bind_Ok _ _ _ _ _ Hr2). go.
      now apply write_tail with (evs := (evs1 ++ evs2)%list).
    + exists (evs1 ++ evs2)%list. rewrite (bind_Blocked _ _ _ _ _ Hr2).
      now apply Stuck.
    + eapply frame_trans; [exact F1 | frame_by_computation].
  - apply write_tail with (evs := evs1); try assumption.
    eapply frame_trans; [exact F1 | frame_by_computation].
Qed.

Ltac side :=
  first
    [ reflexivity
    | discriminate
    | frame_by_computation
    | (repeat constructor; auto; fail)
    | (cbn; now rewrite <- app_assoc)
    | (rewrite posted_quiet by reflexivity; now rewrite app_nil_r)
    | (unfold report_of, ending, bind; now destruct (ERR _ _ _ _ _ _)) ].

(** Every way through the syslog sink's turn. *)
Lemma daemon_syslog_outcome (E : Env) (P : Event -> Prop) (m : string)
      (s : State) :
  (forall prio tag err, P (EvSyslogNew prio tag err)) ->
  (forall err, P (EvSyslogWrite m err)) ->
  exists evs, outcome E P false s (daemon_syslog E m s) evs.
Proof.
  intros HPn HPw.
  assert (Fatal : forall s_mid evs0 ev x r,
             fatal_event ev = Some x -> Forall benign evs0 ->
             Forall P (evs0 ++ [ev]) ->
             frame s s_mid -> trace s_mid = (trace s ++ evs0 ++ [ev])%list ->
             queue s_mid = queue s -> reports evs0 = [] ->
             r = ending false (report_of E x s_mid) ->
             outcome E P false s r (evs0 ++ [ev])).
  { intros s_mid evs0 ev x r Hx Hben HP F Ht Hq Hrep Hr.
    eapply out_fatal with (s_mid := s_mid) (evs0 := evs0); try eassumption.
    - reflexivity.
    - eapply Forall_impl; [apply benign_nonfatal | exact Hben].
    - rewrite posted_quiet by assumption. now rewrite app_nil_r. }
  assert (Bok : forall prio tag, benign (EvSyslogNew prio tag None))
    by (split; [reflexivity | exact (fun x => x)]).
  assert (Bok' : forall x, benign (EvSyslogWrite x None))
    by (split; [reflexivity | exact (fun x => x)]).
  unfold daemon_syslog. go.
  destruct (SendToSyslog (L s)) eqn:Hon.
  2:{ exists []. apply outcome_idle. discriminate. }
  destruct (syslogWriter (L s)) as [w|] eqn:Hw; go.
  - (* the writer is there *)
    destruct (fault E (nSys s)) as [e|] eqn:Hfault.
    + exists ([] ++ [EvSyslogWrite m (Some e)])%list.
      apply Fatal with (s_mid := add_event (EvSyslogWrite m (Some e)) (tick_sys s))
                       (x := (48%N, "Error writing to syslog", e));
        side.
    + exists [EvSyslogWrite m None]. go.
      eapply out_pass; side.
  - (* [syslog.New] first *)
    destruct (fault E (nSys s)) as [e|] eqn:Hfault.
    + exists ([] ++ [EvSyslogNew LOG_INFO (SyslogTag (L s)) (Some e)])%list.
      apply Fatal with (s_mid := add_event (EvSyslogNew LOG_INFO (SyslogTag (L s))
                                                        (Some e)) (tick_sys s))
                       (x := (41%N, "Error creating syslog", e));
        side.
    + go. cbn [nSys tick_sys add_event set_L].
      destruct (fault E (S (nSys s))) as [e|] eqn:Hfault2.
      * exists ([EvSyslogNew LOG_INFO (SyslogTag (L s)) None]
                ++ [EvSyslogWrite m (Some e)])%list.
        eapply Fatal with (x := (48%N, "Error writing to syslog", e));
          cycle -1.
        -- unfold report_of, bind.
           match goal with
           | |- match ERR ?E' ?c ?x ?p ?v ?st with _ => _ end = _ =>
               transitivity (ending false (ERR E' c x p v st));
               [ unfold ending; now destruct (ERR E' c x p v st)
               | reflexivity ]
           end.
        -- reflexivity.
        -- side.
        -- side.
        -- side.
        -- cbn. now rewrite <- app_assoc.
        -- reflexivity.
        -- reflexivity.
      * exists [EvSyslogNew LOG_INFO (SyslogTag (L s)) None; EvSyslogWrite m None].
        go. eapply out_pass; side.
Qed.

(* ================================================================= *)
(** ** One turn of the worker's loop *)

(** A stretch that can end the loop, followed by the rest of the turn. *)
Lemma outcome_bind {A B} (E : Env) (P : Event -> Prop) (stopa : A) (stopb : B)
      (c : M A) (k : A -> M B) (s : State) (evs1 : list Event) :
  outcome E P stopa s (c s) evs1 ->
  (forall s0, k stopa s0 = Ok stopb s0) ->
  (forall a s1, a <> stopa -> exists evs2, outcome E P stopb s1 (k a s1) evs2) ->
  exists evs2, outcome E P stopb s (bind c k s) (evs1 ++ evs2).
Proof.
  intros [a s1 Hr Ha Ht Hben HP Hq F
         | s_mid evs0 ev x Hevs Hx Hnf Ht HP Hq F Hr
         | l s1 Hr Ht Hnf HP Hq Hfull F] Hstop Hgo.
  - destruct (Hgo a s1 Ha) as [evs2 H2]. exists evs2.
    rewrite (bind_Ok _ _ _ _ _ Hr).
    now apply outcome_shift with s1.
  - exists []. rewrite app_nil_r.
    apply out_fatal with s_mid evs0 ev x; try assumption.
    unfold bind. rewrite Hr. unfold ending.
    destruct (report_of E x s_mid); try reflexivity. apply Hstop.
  - exists []. rewrite app_nil_r.
    apply out_stuck with l s1; try assumption.
    now rewrite (bind_Blocked _ _ _ _ _ Hr).
Qed.

(** Every way through a turn of the loop. *)
Lemma daemon_body_outcome (E : Env) (d : N) (m : string) (s : State) :
  exists evs,
    outcome E (conforms m (stamped E s m)) None s (daemon_body E d m s)
            (console E s m ++ evs).
Proof.
  set (P := conforms m (stamped E s m)).
  unfold daemon_body. go.
  set (s1 := if SendToStdout (L s)
             then add_event (EvStdout (stamped E s m)) (tick_now s)
             else tick_now s).
  assert (Hs1 : forall B (k : unit -> M B),
             bind (if SendToStdout (L (tick_now s))
                   then emit (EvStdout (Format_clock (clock E (nNow s)) ++ m))
                   else ret tt) k (tick_now s)
             = k tt s1).
  { intros B k. subst s1. cbn [L tick_now]. now destruct (SendToStdout (L s)). }
  rewrite Hs1. clear Hs1.
  assert (F : frame s s1)
    by (subst s1; destruct (SendToStdout (L s)); frame_by_computation).
  assert (Ht : trace s1 = (trace s ++ console E s m)%list).
  { subst s1. unfold console. destruct (SendToStdout (L s)); cbn.
    - reflexivity.
    - now rewrite app_nil_r. }
  assert (Hq : queue s1 = (queue s ++ posted s (console E s m))%list).
  { rewrite posted_quiet.
    - subst s1. rewrite app_nil_r. now destruct (SendToStdout (L s)).
    - unfold console. now destruct (SendToStdout (L s)). }
  assert (Hb : Forall benign (console E s m)).
  { unfold console. destruct (SendToStdout (L s)); repeat constructor.
    exact (fun x => x). }
  assert (HP : Forall P (console E s m)).
  { unfold console. destruct (SendToStdout (L s)); repeat constructor. }
  destruct (daemon_syslog_outcome E P m s1) as [evs1 H1];
    [ intros; exact I | intros; reflexivity | ].
  eapply outcome_bind in H1 as [evs2 H2].
  - exists (evs1 ++ evs2)%list.
    apply outcome_shift with s1; try assumption. exact H2.
  - reflexivity.
  - intros a s2 Ha. destruct a; [|congruence].
    apply daemon_logfile_outcome.
    + intros ev Hev. destruct ev; try contradiction; exact I.
    + intros; reflexivity.
Qed.

Lemma worker_step_running (E : Env) (s : State) (d : N) (m : string)
      (q : list string) :
  worker s = Running d -> queue s = m :: q ->
  worker_step E s = finish (daemon_body E d m (taken s q)).
Proof.
  intros Hw Hq. unfold worker_step, chan_recv. rewrite Hw.
  unfold queue in Hq. now rewrite Hq.
Qed.

(** Once the loop is over nothing is taken from the queue any more. *)
Lemma stopped_forever (s : State) :
  stopped s -> forall E n, worker_steps E n s = s.
Proof.
  intros H E n. induction n as [|n IH]; [reflexivity |].
  cbn [worker_steps].
  assert (Hs : worker_step E s = s).
  { unfold worker_step. destruct H as [-> | [l ->]]; reflexivity. }
  now rewrite Hs.
Qed.


(** What the report of a fatal failure leaves behind. *)
Lemma halt_report (E : Env) (ev : Event) (x : N * string * string)
      (s_mid : State) :
  fatal_event ev = Some x ->
  let s' := halt (report_of E x s_mid) in
  trace s' = trace s_mid /\ stopped s'
  /\ (forall line, worker s' = Deadlocked line ->
                   (cap (logChan (L s')) <= length (queue s'))%nat)
  /\ (forall l, In l (queue s_mid) -> In l (queue s'))
  /\ (forall l, report_line ev = Some l ->
                (LOG_ERR <= Priority (L s_mid))%Z -> submitted l s').
Proof.
  intros Hx. destruct (report_of_fatal E ev x s_mid Hx) as (line & Hl & ->).
  destruct (Z.ltb_spec (Priority (L s_mid)) LOG_ERR) as [Hp|Hp].
  - cbn [halt]. conjs; try reflexivity.
    + now left.
    + discriminate.
    + auto.
    + intros; lia.
  - destruct (chan_send_cases line (bump s_mid))
      as [(s2 & -> & Hq & Ht & F & _) | [-> Hfull]]; cbn [halt].
    + conjs.
      * exact Ht.
      * now left.
      * discriminate.
      * intros l Hin. change (In l (queue s2)). rewrite Hq.
        apply in_or_app. now left.
      * intros l Hl' _. left. change (In l (queue s2)). rewrite Hq.
        apply in_or_app. right. left. congruence.
    + conjs.
      * reflexivity.
      * right. now eexists.
      * intros _ _. exact Hfull.
      * auto.
      * intros l Hl' _. right. cbn. congruence.
Qed.

(** The three ways a turn ends, seen from the state it leaves. *)
Lemma turn_ends (E : Env) (s : State) (d : N) (m : string) (q : list string) :
  worker s = Running d -> queue s = m :: q ->
  let s' := worker_step E s in
  exists evs,
    trace s' = (trace s ++ console E s m ++ evs)%list
    /\ Forall (conforms m (stamped E s m)) (console E s m ++ evs)
    /\ ((exists d', worker s' = Running d'
                    /\ Forall benign (console E s m ++ evs))
        \/ (exists evs0 ev x s_mid,
               (console E s m ++ evs = evs0 ++ [ev])%list
               /\ fatal_event ev = Some x /\ Forall nonfatal evs0
               /\ trace s_mid = trace s'
               /\ queue s_mid = (q ++ posted s evs0)%list
               /\ Priority (L s_mid) = Priority (L s)
               /\ s' = halt (report_of E x s_mid))
        \/ (exists l,
               worker s' = Deadlocked l
               /\ Forall nonfatal (console E s m ++ evs)
               /\ (queue s' ++ [l] = q ++ posted s (console E s m ++ evs))%list)).
Proof.
  intros Hw Hq s'. subst s'. rewrite (worker_step_running E s d m q Hw Hq).
  destruct (daemon_body_outcome E d m (taken s q)) as [evs H].
  exists evs.
  change (console E (taken s q) m) with (console E s m) in H.
  change (stamped E (taken s q) m) with (stamped E s m) in H.
  destruct H as [a s2 Hr Ha Ht Hben HP Hq2 F
                | s_mid evs0 ev x Hevs Hx Hnf Ht HP Hq2 F Hr
                | l s2 Hr Ht Hnf HP Hq2 Hfull F]; rewrite Hr.
  - destruct a as [d'|]; [|congruence]. cbn [finish]. conjs.
    + exact Ht.
    + exact HP.
    + left. exists d'. now split.
  - assert (Hfin : finish (ending None (report_of E x s_mid))
                   = halt (report_of E x s_mid))
      by (unfold ending, halt; now destruct (report_of E x s_mid)).
    rewrite Hfin.
    destruct (halt_report E ev x s_mid Hx) as (Ht' & _).
    conjs.
    + now rewrite Ht', Ht.
    + exact HP.
    + right. left. exists evs0, ev, x, s_mid. conjs; try assumption.
      * now rewrite Ht'.
      * exact (fr_priority _ _ F).
      * reflexivity.
  - cbn [finish]. conjs.
    + exact Ht.
    + exact HP.
    + right. right. exists l. conjs; try assumption. reflexivity.
Qed.

(* ================================================================= *)
(** * The facade *)

(** C1.  A call of [ERR], [WRN], [INF] or [DBG] whose severity lies above
    the configured [Priority] returns at once and leaves the whole
    state as it was: the queue, the sinks, and the counters of
    [fmt.Sprintf] and [runtime.Caller] calls. *)
Theorem C1_below_threshold_is_noop (E : Env) (callers : list Frame)
        (c : Call) (prompt : string) (v : option (list any)) (s : State) :
  (Priority (L s) < severity c)%Z ->
  call E callers c prompt v s = Ok tt s.
Proof.
  intros H. apply Z.ltb_lt in H.
  destruct c; cbn [call severity] in *;
    unfold ERR, WRN, INF, DBG; rewrite bind_getL; now rewrite H.
Qed.

Lemma C1_witness :
  (Priority (L (sample_state LOG_WARNING true false false None [])) < severity CallINF)%Z
  /\ call (sample_env jan15 []) [] CallINF "start" None
          (sample_state LOG_WARNING true false false None [])
     = Ok tt (sample_state LOG_WARNING true false false None []).
Proof.
  split; [reflexivity |].
  apply (C1_below_threshold_is_noop (sample_env jan15 []) [] CallINF "start" None
           (sample_state LOG_WARNING true false false None [])).
  reflexivity.
Defined.

(** What [Log] does: one look at the stack, one rendering, one send. *)
Lemma Log_eq (E : Env) (callers : list Frame) (depth : nat) (level : ascii)
      (msg : string) (s : State) :
  Log_ E callers depth level msg s
  = chan_send (render level (fst (resolved (nth_error callers (S depth))))
                      (snd (resolved (nth_error callers (S depth)))) msg)
              (tick_sprintf (tick_caller s)).
Proof.
  unfold Log_, runtime_Caller, bind.
  change (nth_error (method_frame E "Log" 107 :: callers) (2 + depth))
    with (nth_error callers (S depth)).
  now destruct (resolved (nth_error callers (S depth))).
Qed.

(** A call at or under the threshold does have effects: both counters
    move and the line is sent. *)
Lemma above_threshold_effects (E : Env) (callers : list Frame)
      (prompt : string) (s : State) :
  (LOG_INFO <= Priority (L s))%Z ->
  (length (queue s) < cap (logChan (L s)))%nat ->
  exists s',
    INF E callers prompt None s = Ok tt s'
    /\ nSprintf s' = S (nSprintf s) /\ nCaller s' = S (nCaller s)
    /\ queue s' = (queue s ++ [render "I" (fst (resolved (nth_error callers 0)))
                                     (snd (resolved (nth_error callers 0)))
                                     prompt])%list.
Proof.
  intros Hp Hroom. unfold INF. rewrite bind_getL.
  apply Z.ltb_ge in Hp. rewrite Hp. cbn [format_prompt]. rewrite bind_ret.
  rewrite Log_eq. cbn [nth_error].
  unfold chan_send. cbn [L tick_sprintf tick_caller].
  apply Nat.ltb_lt in Hroom. unfold queue in Hroom. rewrite Hroom.
  eexists. split; [reflexivity |]. now conjs.
Qed.

(** The cases of [anyErrToString] that return. *)
Lemma anyErrToString_returns (prompt : string) (s : State) :
  (forall msg, anyErrToString (AErr msg) prompt s
               = Ok (prompt ++ " err{" ++ msg ++ "}") (tick_sprintf s))
  /\ (forall str, anyErrToString (AStr str) prompt s
                  = Ok (prompt ++ " err{" ++ str ++ "}") (tick_sprintf s))
  /\ (forall b, anyErrToString (AByte b) prompt s
                = Ok (prompt ++ " RC:" ++ appendInt b 2) (tick_sprintf s))
  /\ (forall v, anyErrToString (AOther v) prompt s
                = Ok (prompt ++ " ???{type(" ++ v ++ ")=" ++ v ++ "}")
                     (tick_sprintf s)).
Proof. now conjs. Qed.

Lemma anyErrToString_int (n : Z) (prompt : string) (s : State) :
  anyErrToString (AInt n) prompt s
  = Panicked "interface conversion: interface {} is int, not uint8" s.
Proof. reflexivity. Qed.

(** C3.  The cause [5] of type [int]: [case byte, int] is entered and the
    assertion [e.(byte)] panics; the call [L.ERR(5, "p")] on a fresh
    logger ends in that panic, with nothing rendered and nothing queued,
    where the byte [5] gives ["p RC:05"]. *)
Theorem C3_int_cause_panics :
  ERR (sample_env jan15 []) [mkFrame "main.main" 10] (AInt 5) "p" None init
  = Panicked "interface conversion: interface {} is int, not uint8" init
  /\ (exists s',
         ERR (sample_env jan15 []) [mkFrame "main.main" 10] (AByte 5) "p"
             None init = Ok tt s'
         /\ queue s' = [render "E" "main.main" 10 "p RC:05"]).
Proof.
  split; [reflexivity |]. eexists. split; reflexivity.
Qed.

(* ================================================================= *)
(** * Caller resolution *)

Lemma caller_name_suffix (prefix ty me : string) :
  ty <> "" -> me <> "" ->
  all_chars cls_type ty = true -> all_chars cls_method me = true ->
  caller_name (prefix ++ "(*" ++ ty ++ ")." ++ me) = ty ++ "." ++ me.
Proof.
  intros. unfold caller_name. now rewrite RegexpFacts.find_method.
Qed.

Lemma caller_name_plain (name : string) :
  has_char "*" name = false -> caller_name name = name.
Proof.
  intros. unfold caller_name. now rewrite RegexpFacts.find_plain.
Qed.

(** The classes of the pattern hold the ASCII letters, digits and the
    underscore, not the dot: the receiver of a method of a generic
    type, which the runtime prints with ["[...]"], is outside them, and
    such a name is printed whole. *)
Remark caller_name_generic_receiver :
  caller_name "main.(*Tree[...]).Insert" = "main.(*Tree[...]).Insert"
  /\ caller_name "main.(*Tree).Insert" = "Tree.Insert".
Proof. split; reflexivity. Qed.

(** What a facade call does once it has passed the filter (without
    variadic arguments): render the cause, for [ERR] only, and hand over
    to [Log] with depth [0] from its own frame. *)
Lemma call_passes (E : Env) (callers : list Frame) (c : Call)
      (prompt : string) (s : State) :
  (severity c <= Priority (L s))%Z ->
  call E callers c prompt None s
  = bind (match c with
          | CallERR e => anyErrToString e prompt
          | _ => ret prompt
          end)
         (fun msg => Log_ E (facade_frame E c :: callers) 0 (level_of c) msg) s.
Proof.
  intros H. apply Z.ltb_ge in H.
  destruct c; cbn [call severity facade_frame level_of] in *;
    unfold ERR, WRN, INF, DBG; rewrite bind_getL, H; reflexivity.
Qed.

(** C7.  [Log] asks [runtime.Caller] for frame [2 + stackTraceDepth] of
    its own stack, that is, it skips its own frame, the frame of the
    function that called it (a facade method, which passes depth 0) and
    [stackTraceDepth] more.  When the stack is not that deep the name is
    ["<nf>"] (and the line 0).  A name that ends in "(*Type).Method",
    with [Type] made of the characters of the pattern's first class and
    [Method] of those of its second, is printed as [Type.Method],
    whatever comes before; a name without a star is printed as it is. *)
Theorem C7_caller_resolution (E : Env) (callers : list Frame) (depth : nat)
        (level : ascii) (msg : string) (s : State)
        (prefix ty me plain : string) (line : N) :
  ty <> "" -> me <> "" ->
  all_chars cls_type ty = true -> all_chars cls_method me = true ->
  has_char "*" plain = false ->
  let who := resolved (nth_error (method_frame E "Log" 107 :: callers)
                                 (2 + depth)) in
  Log_ E callers depth level msg s
  = chan_send (render level (fst who) (snd who) msg)
              (tick_sprintf (tick_caller s))
  /\ (forall f1 rest,
         nth_error (method_frame E "Log" 107 :: f1 :: rest) (2 + depth)
         = nth_error rest depth)
  /\ (forall c prompt,
         (severity c <= Priority (L s))%Z ->
         call E callers c prompt None s
         = bind (match c with
                 | CallERR e => anyErrToString e prompt
                 | _ => ret prompt
                 end)
                (fun m => Log_ E (facade_frame E c :: callers) 0 (level_of c) m)
                s)
  /\ (forall stack skip,
         (length stack <= skip)%nat ->
         resolved (nth_error stack skip) = ("<nf>", 0%N))
  /\ resolved (Some (mkFrame (prefix ++ "(*" ++ ty ++ ")." ++ me) line))
     = (ty ++ "." ++ me, line)
  /\ resolved (Some (mkFrame plain line)) = (plain, line).
Proof.
  intros Hty Hme Hcty Hcme Hplain who. conjs.
  - apply Log_eq.
  - reflexivity.
  - intros c prompt. apply call_passes.
  - intros stack skip H. apply nth_error_None in H. now rewrite H.
  - cbn [resolved fn_name fn_line]. now rewrite caller_name_suffix.
  - cbn [resolved fn_name fn_line]. now rewrite caller_name_plain.
Qed.

Lemma C7_witness :
  let who := resolved (nth_error (method_frame (sample_env jan15 []) "Log" 107
                                   :: [method_frame (sample_env jan15 []) "INF" 158;
                                       mkFrame "main.(*Test).exampleFunc" 42])
                                 (2 + 0)) in
  who = ("Test.exampleFunc", 42%N)
  /\ resolved (Some (mkFrame ("main." ++ "(*" ++ "Test" ++ ")." ++ "exampleFunc") 42))
     = ("Test" ++ "." ++ "exampleFunc", 42%N)
  /\ resolved (Some (mkFrame "main.run" 42)) = ("main.run", 42%N).
Proof.
  pose proof (C7_caller_resolution (sample_env jan15 [])
                [method_frame (sample_env jan15 []) "INF" 158;
                 mkFrame "main.(*Test).exampleFunc" 42]
                0 "I"%char "start" init "main." "Test" "exampleFunc" "main.run" 42%N)
    as H.
  cbv zeta in H.
  destruct H as (_ & _ & _ & _ & Hm & Hp);
    [discriminate | discriminate | reflexivity | reflexivity | reflexivity |].
  split; [reflexivity | split; [exact Hm | exact Hp]].
Defined.

(** C7, as the claim words it, fails: the method [Insert] of a generic
    type [Tree], whose name the runtime gives as
    "main.(*Tree[...]).Insert", ends in "(*Type).Method" with the type
    [Tree[...]], and is not printed as [Tree[...].Insert]: the dots are
    outside the class of the pattern, nothing matches, and the whole
    name goes into the line. *)
Lemma C7_counterexample :
  let name := "main." ++ "(*" ++ "Tree[...]" ++ ")." ++ "Insert" in
  let E := sample_env jan15 [] in
  fst (resolved (Some (mkFrame name 12))) <> "Tree[...]" ++ "." ++ "Insert"
  /\ fst (resolved (Some (mkFrame name 12))) = name
  /\ queue (state_of (INF E [mkFrame name 12] "hi" None init))
     = [render "I" "main.(*Tree[...]).Insert" 12 "hi"].
Proof.
  cbv zeta. split; [|split]; [ vm_compute; discriminate | reflexivity | reflexivity ].
Qed.

(** C10.  A pointer-receiver method "pkg.(*Type).Method", with [Type]
    and [Method] made of the characters of the pattern's classes, is
    reported as [Type.Method], without the package, while a plain
    function [pkg.Func] is reported with it, as [pkg.Func]. *)
Theorem C10_method_loses_package (pkg ty me fn : string) (line : N) :
  ty <> "" -> me <> "" ->
  all_chars cls_type ty = true -> all_chars cls_method me = true ->
  has_char "*" pkg = false -> has_char "*" fn = false ->
  resolved (Some (mkFrame (pkg ++ "." ++ "(*" ++ ty ++ ")." ++ me) line))
  = (ty ++ "." ++ me, line)
  /\ resolved (Some (mkFrame (pkg ++ "." ++ fn) line)) = (pkg ++ "." ++ fn, line).
Proof.
  intros Hty Hme Hcty Hcme Hpkg Hfn. cbn [resolved fn_name fn_line]. split.
  - replace (pkg ++ "." ++ "(*" ++ ty ++ ")." ++ me)
      with ((pkg ++ ".") ++ "(*" ++ ty ++ ")." ++ me)
      by (now rewrite append_assoc').
    now rewrite caller_name_suffix.
  - rewrite caller_name_plain; [reflexivity |].
    rewrite has_char_append, Hpkg. cbn. exact Hfn.
Qed.

Lemma C10_witness :
  resolved (Some (mkFrame ("main" ++ "." ++ "(*" ++ "Test" ++ ")." ++ "exampleFunc") 42))
  = ("Test" ++ "." ++ "exampleFunc", 42%N)
  /\ resolved (Some (mkFrame ("main" ++ "." ++ "run") 42))
     = ("main" ++ "." ++ "run", 42%N).
Proof.
  apply (C10_method_loses_package "main" "Test" "exampleFunc" "run" 42%N);
    (discriminate || reflexivity).
Defined.

(** C10, as the claim words it, fails: a pointer-receiver method of a
    type whose name has a letter outside ASCII (here "Caf" followed by
    an e with acute accent, the bytes 195 and 169 in UTF-8) keeps its
    package and its star, like a plain function keeps its package. *)
Lemma C10_counterexample :
  let e_acute := String (ascii_of_nat 195) (String (ascii_of_nat 169) "") in
  let ty := "Caf" ++ e_acute in
  let name := "main" ++ "." ++ "(*" ++ ty ++ ")." ++ "Run" in
  resolved (Some (mkFrame name 7)) <> (ty ++ "." ++ "Run", 7%N)
  /\ resolved (Some (mkFrame name 7)) = (name, 7%N).
Proof.
  cbv zeta. split; [ vm_compute; discriminate | reflexivity ].
Qed.

(* ================================================================= *)
(** * The singleton and its queue *)

Lemma taken_same (s : State) : taken s (queue s) = s.
Proof.
  destruct s as [[[b c] sw fw tag pr so ss sl] w tr n1 n2 n3 n4]. reflexivity.
Qed.

(** Sends go through as long as there is room, and the first one that
    finds the queue full parks the sender. *)
Lemma send_all_spec (lines : list string) :
  forall s,
    (length (queue s) <= cap (logChan (L s)))%nat ->
    let room := (cap (logChan (L s)) - length (queue s))%nat in
    send_all lines s
    = if (length lines <=? room)%nat
      then Ok tt (taken s (queue s ++ lines))
      else Blocked (nth room lines "") (taken s (queue s ++ firstn room lines)).
Proof.
  induction lines as [|l lines IH]; intros s Hwf room.
  - cbn. now rewrite app_nil_r, taken_same.
  - cbn [send_all]. unfold bind at 1, chan_send.
    fold (queue s).
    destruct (Nat.ltb_spec (length (queue s)) (cap (logChan (L s)))) as [Hlt|Hge].
    + fold (taken s (queue s ++ [l])).
      rewrite IH by (cbn; rewrite length_app; cbn; lia).
      cbn [L taken set_L logChan set_logChan cap queue buf].
      rewrite length_app. cbn [length].
      fold (queue s).
      replace (cap (logChan (L s)) - (length (queue s) + 1))%nat
        with (pred room) by (subst room; lia).
      destruct room as [|room'] eqn:Hroom; [subst room; lia |].
      cbn [pred length nth firstn Nat.leb].
      rewrite <- !app_assoc. reflexivity.
    + assert (Hroom : room = 0%nat) by (subst room; lia).
      rewrite Hroom. cbn. now rewrite app_nil_r, taken_same.
Qed.

(** C8.  [init] makes the singleton with an empty queue of capacity 1000
    (a thousand lines are taken, the next send parks its sender),
    console on, syslog and file off, threshold [LOG_DEBUG], under which
    every facade call passes, and tag ["GOLOGGER"]; both handles are
    [nil]; the worker has been spawned, and its first step enters
    [daemon] and notes the day. *)
Theorem C8_init_defaults :
  cap (logChan (L init)) = 1000%nat
  /\ queue init = []
  /\ (forall lines,
         send_all lines init
         = if (length lines <=? 1000)%nat
           then Ok tt (taken init lines)
           else Blocked (nth 1000 lines "") (taken init (firstn 1000 lines)))
  /\ SendToStdout (L init) = true
  /\ SendToSyslog (L init) = false
  /\ SendToLogfile (L init) = false
  /\ Priority (L init) = LOG_DEBUG
  /\ (forall c, severity c <= Priority (L init))%Z
  /\ SyslogTag (L init) = "GOLOGGER"
  /\ syslogWriter (L init) = None /\ fileWriter (L init) = None
  /\ worker init = Spawned
  /\ (forall E, worker (worker_step E init) = Running (Date_day (clock E 0))).
Proof.
  conjs; try reflexivity.
  - intros lines. rewrite send_all_spec by (cbn; lia). reflexivity.
  - intros []; cbn; unfold LOG_ERR, LOG_WARNING, LOG_INFO, LOG_DEBUG; lia.
Qed.

(* ================================================================= *)
(** * Draining *)

Section DrainFacts.

Variable others : nat -> State -> State.

Lemma Close_empty (fuel i : nat) (s : State) :
  queue s = [] -> Close others fuel i s = Some s.
Proof. intros H. destruct fuel; cbn; now rewrite H. Qed.

(** [Close] returns at the first look that finds the queue empty, after
    exactly that many sleeps, and not before. *)
Lemma Close_spec (k : nat) :
  forall fuel i s,
    (forall j, (j < k)%nat -> queue (looked others j i s) <> []) ->
    queue (looked others k i s) = [] ->
    Close others fuel i s
    = if (k <=? fuel)%nat then Some (looked others k i s) else None.
Proof.
  induction k as [|k IH]; intros fuel i s Hbusy Hempty.
  - cbn [Nat.leb looked] in *. now apply Close_empty.
  - pose proof (Hbusy 0%nat (Nat.lt_0_succ k)) as H0. cbn [looked] in H0.
    assert (Hlen : (0 <? length (queue s))%nat = true).
    { apply Nat.ltb_lt. destruct (queue s); [congruence | cbn; lia]. }
    destruct fuel as [|fuel]; cbn [Close Nat.leb looked]; rewrite Hlen;
      [reflexivity |].
    apply IH.
    + intros j Hj. apply (Hbusy (S j)). lia.
    + exact Hempty.
Qed.

End DrainFacts.

(** C9.  [Close] on an empty queue returns at once, in the state it was
    called in: no sleep, no change.  On a queue that is not empty it
    sleeps 100 ms, looks again, and so on; it returns at the first look
    that finds the queue empty (the [k]-th, say, after [k] sleeps), and
    as long as no look does, it is still polling. *)
Theorem C9_drain (others : nat -> State -> State) (k i : nat) (s : State) :
  (forall j, (j < k)%nat -> queue (looked others j i s) <> []) ->
  queue (looked others k i s) = [] ->
  (forall fuel, (k <= fuel)%nat ->
                Close others fuel i s = Some (looked others k i s))
  /\ (forall fuel, (fuel < k)%nat -> Close others fuel i s = None)
  /\ (k = 0%nat -> forall fuel, Close others fuel i s = Some s)
  /\ looked others 0 i s = s
  /\ (forall j, looked others (S j) i s
                = looked others j (S i) (others i (add_event (EvSleep 100) s))).
Proof.
  intros Hbusy Hempty. conjs; try reflexivity.
  - intros fuel H. rewrite (Close_spec others k fuel i s Hbusy Hempty).
    apply Nat.leb_le in H. now rewrite H.
  - intros fuel H. rewrite (Close_spec others k fuel i s Hbusy Hempty).
    apply Nat.leb_gt in H. now rewrite H.
  - intros -> fuel. now apply Close_empty.
Qed.

Lemma C9_witness :
  let others := fun (_ : nat) => worker_step (sample_env jan15 []) in
  let s := sample_state LOG_DEBUG true false false None [sample_line] in
  (forall j, (j < 1)%nat -> queue (looked others j 0 s) <> [])
  /\ queue (looked others 1 0 s) = []
  /\ Close others 5 0 s = Some (looked others 1 0 s)
  /\ Close others 0 0 s = None
  /\ trace (looked others 1 0 s)
     = [EvSleep 100; EvStdout ("09:05:07.1234" ++ sample_line)].
Proof.
  intros others s.
  assert (Hbusy : forall j, (j < 1)%nat -> queue (looked others j 0 s) <> []).
  { intros j Hj. assert (j = 0)%nat as -> by lia. discriminate. }
  assert (Hempty : queue (looked others 1 0 s) = []) by reflexivity.
  destruct (C9_drain others 1 0 s Hbusy Hempty) as (Hret & Hpoll & _).
  split; [exact Hbusy |]. split; [exact Hempty |].
  split; [apply Hret; lia |]. split; [apply Hpoll; lia | reflexivity].
Defined.

(* ================================================================= *)
(** * The dispatch worker *)

(** With syslog and the file off a turn is the console's share and the
    loop goes on. *)
Lemma console_only (E : Env) (s : State) (d : N) (m : string) (q : list string) :
  worker s = Running d -> queue s = m :: q ->
  SendToSyslog (L s) = false -> SendToLogfile (L s) = false ->
  worker (worker_step E s) = Running d
  /\ trace (worker_step E s) = (trace s ++ console E s m)%list.
Proof.
  intros Hw Hq Hsys Hfile. rewrite (worker_step_running E s d m q Hw Hq).
  unfold daemon_body, daemon_syslog, daemon_logfile, console, stamped. go.
  cbn [L tick_now taken set_L SendToStdout SendToSyslog SendToLogfile
         set_logChan nNow].
  destruct (SendToStdout (L s)); go;
    cbn [L tick_now taken set_L add_event SendToSyslog SendToLogfile
           set_logChan];
    rewrite Hsys; go;
    cbn [L tick_now taken set_L add_event SendToSyslog SendToLogfile
           set_logChan];
    rewrite Hfile; cbn; split; try reflexivity.
  now rewrite app_nil_r.
Qed.

Lemma chan_send_if (line : string) (s : State) :
  chan_send line s
  = if (length (queue s) <? cap (logChan (L s)))%nat
    then Ok tt (taken s (queue s ++ [line]))
    else Blocked line s.
Proof. reflexivity. Qed.

Lemma ERR_method_if (E : Env) (method : string) (line : N) (cs : list Frame)
      (e prompt : string) (s : State) :
  method <> "" -> all_chars cls_method method = true ->
  ERR E (method_frame E method line :: cs) (AErr e) prompt None s
  = if (Priority (L s) <? LOG_ERR)%Z then Ok tt s
    else if (length (queue s) <? cap (logChan (L s)))%nat
         then Ok tt (taken (bump s) (queue s ++ [report method line prompt e]))
         else Blocked (report method line prompt e) (bump s).
Proof. intros Hne Hall. now rewrite ERR_method, chan_send_if. Qed.

(** A turn with syslog off is the console's share and then the file's. *)
Lemma turn_syslog_off (E : Env) (s : State) (d : N) (m : string)
      (q : list string) :
  worker s = Running d -> queue s = m :: q -> SendToSyslog (L s) = false ->
  worker_step E s
  = finish (daemon_logfile E d (stamped E s m) (console_state E s m q)).
Proof.
  intros Hw Hq Hsys. rewrite (worker_step_running E s d m q Hw Hq).
  unfold daemon_body, daemon_syslog, console_state, stamped. go.
  cbn [L tick_now taken set_L SendToStdout SendToSyslog set_logChan nNow].
  destruct (SendToStdout (L s)); go;
    cbn [L tick_now taken set_L add_event SendToSyslog set_logChan];
    rewrite Hsys; go; reflexivity.
Qed.

(** The file's share of a turn, with the console's behind it, step by
    step on the state. *)
Ltac file_turn :=
  unfold console_state, daemon_logfile, newFile, File_Close, File_Write; go;
  cbn [L fileWriter set_L set_fileWriter set_logChan tick_now tick_sys
         add_event nNow nSys SendToLogfile SendToStdout fname fclosed taken
         logChan Priority queue buf cap bump tick_sprintf tick_caller negb].

Ltac file_done :=
  cbv beta delta [ret];
  cbn [finish set_worker trace worker L fileWriter queue buf logChan app
         set_L set_fileWriter add_event tick_sys tick_now taken set_logChan];
  rewrite <- ?app_assoc; conjs; reflexivity.

Lemma bind_ERR_method {B} (E : Env) (method : string) (line : N)
      (cs : list Frame) (e prompt : string) (k : unit -> M B) (s : State) :
  method <> "" -> all_chars cls_method method = true ->
  bind (ERR E (method_frame E method line :: cs) (AErr e) prompt None) k s
  = if (Priority (L s) <? LOG_ERR)%Z then k tt s
    else if (length (queue s) <? cap (logChan (L s)))%nat
         then k tt (taken (bump s) (queue s ++ [report method line prompt e]))
         else Blocked (report method line prompt e) (bump s).
Proof.
  intros Hne Hall. unfold bind at 1. rewrite ERR_method_if by assumption.
  destruct (Priority (L s) <? LOG_ERR)%Z; [reflexivity |].
  now destruct (length (queue s) <? cap (logChan (L s)))%nat.
Qed.

(** The file's share of a turn with a report of [newFile] in it. *)
Ltac file_turn_report :=
  file_turn;
  rewrite ?bind_ERR_method by (discriminate || reflexivity);
  rewrite ?ERR_method_if by (discriminate || reflexivity);
  cbn [L fileWriter set_L set_fileWriter set_logChan tick_now tick_sys
         add_event nNow nSys SendToLogfile SendToStdout fname fclosed taken
         logChan Priority queue buf cap bump tick_sprintf tick_caller negb].

Ltac file_turn_done :=
  cbv beta delta [ret bind];
  cbn [finish set_worker trace worker L fileWriter queue buf logChan app
         set_L set_fileWriter add_event tick_sys tick_now taken set_logChan
         bump tick_sprintf tick_caller];
  rewrite <- ?app_assoc; conjs; reflexivity.

(** A failed system call shows in the turn: with syslog on, the first
    call of the turn is [syslog.New] when there is no writer yet, the
    write when there is one. *)
Lemma syslog_failure_shows (E : Env) (s : State) (d : N) (m : string)
      (q : list string) (e : string) :
  worker s = Running d -> queue s = m :: q ->
  SendToSyslog (L s) = true -> fault E (nSys s) = Some e ->
  trace (worker_step E s)
  = (trace s ++ console E s m
       ++ [match syslogWriter (L s) with
           | None => EvSyslogNew LOG_INFO (SyslogTag (L s)) (Some e)
           | Some _ => EvSyslogWrite m (Some e)
           end])%list.
Proof.
  intros Hw Hq Hsys Hfault. rewrite (worker_step_running E s d m q Hw Hq).
  unfold daemon_body, daemon_syslog, console, stamped. go.
  cbn [L tick_now taken set_L SendToStdout SendToSyslog set_logChan nNow].
  destruct (SendToStdout (L s)), (syslogWriter (L s)) eqn:Hwr; go;
    cbn [L tick_now taken set_L add_event SendToSyslog set_logChan
           syslogWriter nSys tick_sys SyslogTag];
    rewrite Hsys, ?Hwr; go;
    cbn [L tick_now taken set_L add_event SendToSyslog set_logChan
           syslogWriter nSys tick_sys SyslogTag];
    rewrite Hfault; go;
    rewrite bind_ERR_method by (discriminate || reflexivity);
    cbn [L tick_now taken set_L add_event set_logChan tick_sys Priority queue
           buf logChan cap];
    destruct (Priority (L s) <? LOG_ERR)%Z;
    try destruct (length q <? cap (logChan (L s)))%nat;
    go; cbv beta delta [ret];
    cbn [finish set_worker trace taken set_L bump tick_sprintf tick_caller
           add_event tick_sys tick_now];
    rewrite <- ?app_assoc; reflexivity.
Qed.

(** With syslog off and the day's file open, the first call of the turn
    is the write to the file. *)
Lemma file_failure_shows (E : Env) (s : State) (d : N) (m : string)
      (q : list string) (f : File) (e : string) :
  worker s = Running d -> queue s = m :: q ->
  SendToSyslog (L s) = false -> SendToLogfile (L s) = true ->
  fileWriter (L s) = Some f -> fclosed f = false ->
  Date_day (clock E (S (nNow s))) = d -> fault E (nSys s) = Some e ->
  trace (worker_step E s)
  = (trace s ++ console E s m
       ++ [EvFileWrite (Some (fname f)) (stamped E s m) (Some e)])%list.
Proof.
  intros Hw Hq Hsys Hon Hf Hc Hday Hfault.
  rewrite (turn_syslog_off E s d m q Hw Hq Hsys). unfold console, console_state.
  destruct (SendToStdout (L s));
    repeat (progress (file_turn_report;
                      rewrite ?Hon, ?Hf, ?Hc, ?Hday, ?Hfault, ?N.eqb_refl));
    destruct (Priority (L s) <? LOG_ERR)%Z;
    try destruct (length q <? cap (logChan (L s)))%nat;
    go; cbv beta delta [ret];
    cbn [finish set_worker trace taken set_L bump tick_sprintf tick_caller
           add_event tick_sys tick_now];
    rewrite <- ?app_assoc; reflexivity.
Qed.

(** The reports of [daemon] and those of [newFile] are different
    lines. *)
Lemma report_of_daemon (ev : Event) (x : N * string * string) :
  fatal_event ev = Some x ->
  exists line prompt e, report_line ev = Some (report "daemon" line prompt e).
Proof.
  destruct ev as [| ? ? [e|] | ? [e|] | | | ? ? [e|] | ]; try discriminate;
    intros _; do 3 eexists; reflexivity.
Qed.

Lemma report_of_newFile (ev : Event) (l : string) :
  nonfatal ev -> report_line ev = Some l ->
  exists line prompt e, l = report "newFile" line prompt e.
Proof.
  unfold nonfatal.
  destruct ev as [| ? ? [e|] | ? [e|] | ? ? ? [e|] | ? [e|] | ? ? [e|] | ];
    try discriminate; intros _ H; injection H as <-; do 3 eexists; reflexivity.
Qed.

Lemma reports_differ (line line' : N) (prompt e prompt' e' : string) :
  report "daemon" line prompt e <> report "newFile" line' prompt' e'.
Proof. unfold report, render. cbn [append fmt_c nat_of_ascii]. discriminate. Qed.

Lemma fatal_report_fresh (s : State) (evs0 : list Event) (ev : Event)
      (x : N * string * string) (l : string) :
  Forall nonfatal evs0 -> fatal_event ev = Some x -> report_line ev = Some l ->
  occurrences l (posted s evs0) = 0.
Proof.
  intros Hnf Hx Hl. unfold occurrences. apply count_occ_not_In.
  unfold posted. destruct (Priority (L s) <? LOG_ERR)%Z; [exact (fun H => H) |].
  destruct (report_of_daemon ev x Hx) as (line & prompt & e & Hd).
  assert (l = report "daemon" line prompt e) as -> by congruence.
  clear Hl Hd Hx. induction Hnf as [|ev0 evs0 Hev0 _ IH]; [exact (fun H => H) |].
  cbn [reports]. destruct (report_line ev0) as [l0|] eqn:Hl0; [|exact IH].
  intros [H | H]; [|now apply IH].
  destruct (report_of_newFile ev0 l0 Hev0 Hl0) as (line' & prompt' & e' & ->).
  symmetry in H. now apply reports_differ in H.
Qed.

(** The one call of [ERR] that ends the loop: what it leaves on the
    queue and where it leaves the worker. *)
Lemma halt_report_once (E : Env) (ev : Event) (x : N * string * string)
      (l : string) (s_mid : State) :
  fatal_event ev = Some x -> report_line ev = Some l ->
  let s' := halt (report_of E x s_mid) in
  (worker s' = Returned ->
   queue s' = (queue s_mid
               ++ if (Priority (L s_mid) <? LOG_ERR)%Z then [] else [l])%list)
  /\ (forall l', worker s' = Deadlocked l' ->
                 l' = l /\ queue s' = queue s_mid
                 /\ (LOG_ERR <= Priority (L s_mid))%Z).
Proof.
  intros Hx Hl. destruct (report_of_fatal E ev x s_mid Hx) as (line & Hl' & ->).
  assert (line = l) as -> by congruence.
  destruct (Z.ltb_spec (Priority (L s_mid)) LOG_ERR) as [Hp|Hp]; cbn [halt].
  - split; [intros _; now rewrite app_nil_r | discriminate].
  - destruct (chan_send_cases l (bump s_mid))
      as [(s2 & -> & Hq & _) | [-> _]]; cbn [halt].
    + split; [intros _; exact Hq | discriminate].
    + split; [discriminate |].
      intros l' H. injection H as <-. now conjs.
Qed.

(** C2.  In a turn of the worker's loop, a failed [syslog.New], a failed
    write to syslog or a failed write to the log file is the last call
    the turn makes on any sink; the worker then calls [ERR] once with
    that error and its loop is over: [daemon] has returned, or it is
    parked for good in the send of that report, on a full queue.  When
    [daemon] has returned, the report stands on the queue once more
    than before the turn if [Priority] lets errors pass, and as often as
    before if not; when it is parked, the report is in its hand and not
    on the queue.  The lines that were queued stay, and no later step
    of the worker does anything.  Such a failure is in the turn when the
    system call fails: with syslog on, the first call of the turn
    ([syslog.New], or the write when the writer is there); with syslog
    off and the day's file open, the write to the file.  With syslog
    and the file off, the turn is the write to the console, if enabled,
    and the worker goes on. *)
Theorem C2_fatal_sink_failure (E : Env) (s : State) (d : N) (m : string)
        (q : list string) :
  worker s = Running d -> queue s = m :: q ->
  let s' := worker_step E s in
  exists evs,
    trace s' = (trace s ++ evs)%list
    /\ (forall ev x,
           In ev evs -> fatal_event ev = Some x ->
           exists evs0 l,
             evs = (evs0 ++ [ev])%list
             /\ Forall nonfatal evs0
             /\ report_line ev = Some l
             /\ stopped s'
             /\ (exists more, queue s' = (q ++ more)%list)
             /\ (worker s' = Returned ->
                 occurrences l (queue s')
                 = (occurrences l q
                    + if (Priority (L s) <? LOG_ERR)%Z then 0 else 1)%nat)
             /\ (forall l', worker s' = Deadlocked l' ->
                            l' = l
                            /\ occurrences l (queue s') = occurrences l q
                            /\ (LOG_ERR <= Priority (L s))%Z
                            /\ (cap (logChan (L s')) <= length (queue s'))%nat)
             /\ (forall E' n, worker_steps E' n s' = s'))
    /\ (forall e,
           SendToSyslog (L s) = true -> fault E (nSys s) = Some e ->
           In (match syslogWriter (L s) with
               | None => EvSyslogNew LOG_INFO (SyslogTag (L s)) (Some e)
               | Some _ => EvSyslogWrite m (Some e)
               end) evs)
    /\ (forall f e,
           SendToSyslog (L s) = false -> SendToLogfile (L s) = true ->
           fileWriter (L s) = Some f -> fclosed f = false ->
           Date_day (clock E (S (nNow s))) = d -> fault E (nSys s) = Some e ->
           In (EvFileWrite (Some (fname f)) (stamped E s m) (Some e)) evs)
    /\ (SendToSyslog (L s) = false -> SendToLogfile (L s) = false ->
        worker s' = Running d /\ evs = console E s m).
Proof.
  intros Hw Hq s'.
  destruct (turn_ends E s d m q Hw Hq) as (evs & Ht & _ & Hend).
  fold s' in Ht, Hend.
  assert (Hshows : forall ev,
             trace s' = (trace s ++ console E s m ++ [ev])%list ->
             In ev (console E s m ++ evs)%list).
  { intros ev H. rewrite Ht in H. apply app_inv_head in H.
    rewrite H. apply in_or_app. right. now left. }
  exists (console E s m ++ evs)%list. conjs.
  - exact Ht.
  - intros ev x Hin Hx.
    destruct Hend as [(d' & _ & Hben)
                     | [(evs0 & ev0 & x0 & s_mid & Hevs & Hx0 & Hnf & Htm & Hqm
                         & Hpm & Hs')
                       | (l & _ & Hnf & _)]].
    + rewrite Forall_forall in Hben. apply Hben in Hin as [Hin _].
      unfold nonfatal in Hin. congruence.
    + rewrite Hevs in Hin. apply in_app_or in Hin as [Hin | [<- | []]].
      * rewrite Forall_forall in Hnf. apply Hnf in Hin.
        unfold nonfatal in Hin. congruence.
      * assert (x0 = x) as -> by congruence.
        destruct (report_of_daemon ev0 x Hx0) as (line & prompt & e & Hl).
        set (l := report "daemon" line prompt e) in *.
        destruct (halt_report E ev0 x s_mid Hx0) as (_ & Hstop & Hfull & _).
        destruct (halt_report_once E ev0 x l s_mid Hx0 Hl) as [Hret Hdead].
        rewrite <- Hs' in Hstop, Hfull, Hret, Hdead.
        pose proof (fatal_report_fresh s evs0 ev0 x l Hnf Hx0 Hl) as Hfresh.
        unfold occurrences in *.
        exists evs0, l. conjs.
        -- exact Hevs.
        -- exact Hnf.
        -- exact Hl.
        -- exact Hstop.
        -- destruct Hstop as [Hr | [l' Hd]].
           ++ rewrite (Hret Hr), Hqm, <- app_assoc. now eexists.
           ++ destruct (Hdead l' Hd) as (_ & -> & _). rewrite Hqm. now eexists.
        -- intros Hr. rewrite (Hret Hr), Hqm, Hpm, !count_occ_app, Hfresh.
           destruct (Priority (L s) <? LOG_ERR)%Z; cbn [count_occ].
           ++ lia.
           ++ destruct (string_dec l l); [lia | congruence].
        -- intros l' Hd. destruct (Hdead l' Hd) as (-> & Hq' & Hp).
           conjs.
           ++ reflexivity.
           ++ rewrite Hq', Hqm, count_occ_app, Hfresh. lia.
           ++ now rewrite <- Hpm.
           ++ now apply (Hfull l).
        -- now apply stopped_forever.
    + rewrite Forall_forall in Hnf. apply Hnf in Hin.
      unfold nonfatal in Hin. congruence.
  - intros e Hsys Hfault. apply Hshows.
    now apply syslog_failure_shows with d q.
  - intros f e Hsys Hon Hf Hc Hday Hfault. apply Hshows.
    now apply file_failure_shows with d q.
  - intros Hsys Hfile.
    destruct (console_only E s d m q Hw Hq Hsys Hfile) as [Hrun Htr].
    fold s' in Hrun, Htr. split; [exact Hrun |].
    rewrite Ht in Htr. apply app_inv_head in Htr.
    rewrite <- (app_nil_r (console E s m)) in Htr at 2.
    apply app_inv_head in Htr. now rewrite Htr, app_nil_r.
Qed.


Lemma C2_witness :
  let E := sample_env jan15 [(0%nat, "dial unixgram /dev/log: no such file")] in
  let s := sample_state LOG_DEBUG true true true None [sample_line] in
  worker s = Running 15 /\ queue s = [sample_line]
  /\ stopped (worker_step E s)
  /\ trace (worker_step E s)
     = [EvStdout ("09:05:07.1234" ++ sample_line);
        EvSyslogNew LOG_INFO "GOLOGGER"
                    (Some "dial unixgram /dev/log: no such file")]
  /\ queue (worker_step E s)
     = [report "daemon" 41 "Error creating syslog"
               "dial unixgram /dev/log: no such file"].
Proof.
  intros E s.
  destruct (C2_fatal_sink_failure E s 15 sample_line [] eq_refl eq_refl)
    as (evs & Ht & Hfatal & _).
  pose proof (Ht : [EvStdout ("09:05:07.1234" ++ sample_line);
                    EvSyslogNew LOG_INFO "GOLOGGER"
                      (Some "dial unixgram /dev/log: no such file")] = evs)
    as Hevs.
  destruct (Hfatal (EvSyslogNew LOG_INFO "GOLOGGER"
                      (Some "dial unixgram /dev/log: no such file"))
                   (41%N, "Error creating syslog",
                    "dial unixgram /dev/log: no such file"))
    as (evs0 & l & _ & _ & _ & Hstop & _).
  - rewrite <- Hevs. right. left. reflexivity.
  - reflexivity.
  - repeat split; try reflexivity. exact Hstop.
Defined.

(** C2, as the claim words it, fails: [daemon] need not return.  The
    queue holds two lines and is full; the open of the log file fails,
    and the report of that takes the place the worker has just freed;
    the write to the [nil] file then fails, and the report of this
    failure finds the queue full.  The worker is parked in that send for
    good, since no one else takes lines from the queue: [daemon] never
    returns, and the report never reaches the queue. *)
Lemma C2_counterexample :
  let E := sample_env jan15
             [(0%nat, "open app_2024-01-15.log: permission denied")] in
  let s := mkState
             (mkLog (mkChan [sample_line; sample_line] 2) None None "GOLOGGER"
                    LOG_DEBUG true false true)
             (Running 15) [] 0 0 0 0 in
  let failed := EvFileWrite None ("09:05:07.1234" ++ sample_line)
                            (Some "invalid argument") in
  let r := report "daemon" 65 "Error writing to logfile" "invalid argument" in
  let s' := worker_step E s in
  length (queue s) = cap (logChan (L s))
  /\ In failed (trace s')
  /\ fatal_event failed = Some (65%N, "Error writing to logfile", "invalid argument")
  /\ worker s' = Deadlocked r
  /\ ~ In r (queue s')
  /\ forall n, worker (worker_steps E n s') <> Returned.
Proof.
  intros E s failed r s'.
  assert (Hw : worker s' = Deadlocked r) by reflexivity.
  conjs.
  - reflexivity.
  - right. right. left. reflexivity.
  - reflexivity.
  - exact Hw.
  - vm_compute. intros [H | [H | []]]; discriminate.
  - intros n. rewrite stopped_forever.
    + rewrite Hw. discriminate.
    + right. exists r. exact Hw.
Qed.


(* ================================================================= *)
(** * What the sinks are handed *)

Lemma padded_digits (w : nat) (bound : nat) :
  forallb (fun k => (String.length (appendInt (N.of_nat k) w) =? w)%nat
                    && all_chars is_digit (appendInt (N.of_nat k) w)
                    && (decimal_value (appendInt (N.of_nat k) w) =? N.of_nat k)%N)
          (seq 0 bound) = true ->
  forall n, (n < N.of_nat bound)%N -> padded w n (appendInt n w).
Proof.
  intros Hall n Hn. rewrite forallb_forall in Hall.
  specialize (Hall (N.to_nat n)).
  rewrite N2Nat.id in Hall.
  assert (Hin : In (N.to_nat n) (seq 0 bound)) by (apply in_seq; lia).
  apply Hall in Hin. apply andb_true_iff in Hin as [Hin Hval].
  apply andb_true_iff in Hin as [Hlen Hdig].
  apply Nat.eqb_eq in Hlen. apply N.eqb_eq in Hval. now repeat split.
Qed.

Lemma two_digits (n : N) : (n < 100)%N -> padded 2 n (appendInt n 2).
Proof. apply (padded_digits 2 100). vm_compute. reflexivity. Qed.

Lemma four_digits (n : N) : (n < 10000)%N -> padded 4 n (appendInt n 4).
Proof. apply (padded_digits 4 (100 * 100)). vm_compute. reflexivity. Qed.

(** The timestamp of a valid time is [HH:MM:SS.ffff]: hour, minute and
    second in two digits each, and the ten-thousandths of the second in
    four. *)
Lemma Format_clock_layout (t : Time) :
  valid_time t ->
  exists hh mm ss ffff,
    padded 2 (hour t) hh /\ padded 2 (minute t) mm /\ padded 2 (second t) ss
    /\ padded 4 (nanosecond t / 100000)%N ffff
    /\ Format_clock t = hh ++ ":" ++ mm ++ ":" ++ ss ++ "." ++ ffff.
Proof.
  intros (Hh & Hm & Hs & Hn).
  exists (appendInt (hour t) 2), (appendInt (minute t) 2),
         (appendInt (second t) 2), (appendInt (nanosecond t / 100000)%N 4).
  conjs.
  - apply two_digits. lia.
  - apply two_digits. lia.
  - apply two_digits. lia.
  - apply four_digits. apply N.Div0.div_lt_upper_bound. lia.
  - reflexivity.
Qed.

(** [%d] prints a number as its decimal numeral. *)
Lemma read_acc (d : Decimal.uint) :
  forall acc : positive,
    read_from (Npos acc) (NilEmpty.string_of_uint d)
    = Npos (Pos.of_uint_acc d acc).
Proof.
  induction d; intros acc;
    cbn [NilEmpty.string_of_uint read_from Pos.of_uint_acc];
    try reflexivity; rewrite <- IHd; f_equal;
    match goal with
    | |- (_ + (N_of_ascii ?c - 48))%N = _ =>
        let v := eval vm_compute in (N_of_ascii c - 48)%N in
        change (N_of_ascii c - 48)%N with v
    end; lia.
Qed.

Lemma read_uint (d : Decimal.uint) :
  decimal_value (NilEmpty.string_of_uint d) = N.of_uint d.
Proof.
  unfold decimal_value, N.of_uint.
  induction d; cbn [NilEmpty.string_of_uint read_from Pos.of_uint];
    try reflexivity; try exact IHd; apply (read_acc d).
Qed.

Lemma uint_digits (d : Decimal.uint) :
  all_chars is_digit (NilEmpty.string_of_uint d) = true.
Proof. induction d; cbn; auto. Qed.

Lemma to_uint_shape (n : N) :
  N.to_uint n <> Decimal.Nil
  /\ (forall d, N.to_uint n = Decimal.D0 d -> d = Decimal.Nil).
Proof.
  pose proof (DecimalN.Unsigned.to_of (N.to_uint n)) as H.
  rewrite DecimalN.Unsigned.of_to in H. unfold Decimal.unorm in H.
  pose proof (DecimalFacts.nzhead_nonzero (N.to_uint n)) as Hnz.
  destruct (Decimal.nzhead (N.to_uint n)) as [|x|x|x|x|x|x|x|x|x|x];
    try (rewrite H; split; [discriminate | intros d' Hd; now inversion Hd]).
  now destruct (Hnz x).
Qed.

Lemma itoa_numeral (n : N) : numeral n (itoa n).
Proof.
  unfold numeral, itoa. destruct (to_uint_shape n) as [Hnil Hz].
  assert (Hs : NilZero.string_of_uint (N.to_uint n)
               = NilEmpty.string_of_uint (N.to_uint n))
    by (destruct (N.to_uint n); [now destruct Hnil | reflexivity ..]).
  rewrite Hs. conjs.
  - destruct (N.to_uint n); [now destruct Hnil | discriminate ..].
  - apply uint_digits.
  - rewrite read_uint. apply DecimalN.Unsigned.of_to.
  - intros rest H. destruct (N.to_uint n) eqn:Hd; try discriminate.
    rewrite (Hz _ eq_refl) in H. cbn in H. now injection H.
Qed.

(** C4.  In a turn of the worker's loop for the queued line [m], every
    write to the console and to the file is handed the timestamp of the
    turn followed by [m], and every write to syslog is handed [m]
    itself; the console gets its line whenever it is enabled.  A line
    that [Log] has rendered reaches the console and the file as
    [HH:MM:SS.ffff|<L>|<func>():<line> <message>] and a line feed:
    hour, minute and second of the turn's clock reading in two digits
    each, its ten-thousandths of a second in four, the level character
    between bars, the function's name, the line number as a decimal
    numeral, one space, the message. *)
Theorem C4_sink_records (E : Env) (s : State) (d : N) (m : string)
        (q : list string) (level : ascii) (fn : string) (line : N)
        (msg : string) :
  worker s = Running d -> queue s = m :: q ->
  valid_time (clock E (nNow s)) ->
  m = render level fn line msg ->
  let s' := worker_step E s in
  let t := clock E (nNow s) in
  let ts := Format_clock t in
  exists evs,
    trace s' = (trace s ++ evs)%list
    /\ (forall x, In (EvStdout x) evs -> x = ts ++ m)
    /\ (forall f x err, In (EvFileWrite f x err) evs -> x = ts ++ m)
    /\ (forall x err, In (EvSyslogWrite x err) evs -> x = m)
    /\ (SendToStdout (L s) = true -> In (EvStdout (ts ++ m)) evs)
    /\ exists hh mm ss ffff letter ln,
        padded 2 (hour t) hh /\ padded 2 (minute t) mm
        /\ padded 2 (second t) ss
        /\ padded 4 (nanosecond t / 100000)%N ffff
        /\ ((nat_of_ascii level < 128)%nat -> letter = String level "")
        /\ numeral line ln
        /\ ts ++ m
           = hh ++ ":" ++ mm ++ ":" ++ ss ++ "." ++ ffff
             ++ "|" ++ letter ++ "|" ++ fn ++ "():" ++ ln
             ++ " " ++ msg ++ String (ascii_of_nat 10) "".
Proof.
  intros Hw Hq Hvalid Hm s' t ts.
  destruct (turn_ends E s d m q Hw Hq) as (evs & Ht & HP & _).
  fold s' in Ht. rewrite Forall_forall in HP.
  exists (console E s m ++ evs)%list. conjs.
  - exact Ht.
  - intros x Hin. exact (HP _ Hin).
  - intros f x err Hin. exact (HP _ Hin).
  - intros x err Hin. exact (HP _ Hin).
  - intros Hon. unfold console. rewrite Hon. now left.
  - destruct (Format_clock_layout _ Hvalid)
      as (hh & mm & ss & ffff & H1 & H2 & H3 & H4 & Hts).
    exists hh, mm, ss, ffff, (fmt_c level), (itoa line).
    conjs; try assumption.
    + intros Hl. unfold fmt_c. apply Nat.ltb_lt in Hl. now rewrite Hl.
    + apply itoa_numeral.
    + subst ts t. rewrite Hts, Hm. unfold render, newline.
      now rewrite !append_assoc'.
Qed.

Lemma C4_witness :
  let E := sample_env jan15 [] in
  let s := sample_state LOG_DEBUG true true true None [sample_line] in
  worker s = Running 15 /\ queue s = [sample_line]
  /\ valid_time (clock E (nNow s))
  /\ sample_line = render "I" "main.main" 10 "hello"
  /\ (exists evs,
         trace (worker_step E s) = (trace s ++ evs)%list
         /\ (forall x, In (EvStdout x) evs -> x = "09:05:07.1234" ++ sample_line)
         /\ (forall f x err, In (EvFileWrite f x err) evs
                             -> x = "09:05:07.1234" ++ sample_line)
         /\ (forall x err, In (EvSyslogWrite x err) evs -> x = sample_line))
  /\ trace (worker_step E s)
     = [EvStdout ("09:05:07.1234" ++ sample_line);
        EvSyslogNew LOG_INFO "GOLOGGER" None;
        EvSyslogWrite sample_line None;
        EvOpen "app_2024-01-15.log" open_flags open_perm None;
        EvFileWrite (Some "app_2024-01-15.log") ("09:05:07.1234" ++ sample_line)
                    None]
  /\ "09:05:07.1234" ++ sample_line
     = "09:05:07.1234|I|main.main():10 hello" ++ String (ascii_of_nat 10) "".
Proof.
  intros E s.
  assert (Hvalid : valid_time (clock E (nNow s))) by (cbv; repeat split).
  destruct (C4_sink_records E s 15 sample_line [] "I"%char "main.main" 10
                            "hello" eq_refl eq_refl Hvalid eq_refl)
    as (evs & Ht & H1 & H2 & H3 & _).
  repeat split; try reflexivity.
  exists evs. repeat split; assumption.
Defined.

(* ================================================================= *)
(** * The file sink, turn by turn *)

Ltac go_file :=
  unfold daemon_logfile, newFile, File_Close, File_Write; go;
  cbn [L fileWriter set_L set_fileWriter tick_now tick_sys add_event nNow nSys
         SendToLogfile fname fclosed].

(** [os.O_APPEND|os.O_CREATE|os.O_WRONLY] and [0600]. *)
Lemma open_mode :
  Z.land open_flags O_APPEND = O_APPEND
  /\ Z.land open_flags O_CREATE = O_CREATE
  /\ Z.land open_flags 3 = O_WRONLY
  /\ open_perm = (6 * 64 + 0 * 8 + 0)%Z.
Proof. now conjs. Qed.

(** No file is open: one is opened, named after the process and the
    date of the moment, and written to. *)
Lemma logfile_first_open (E : Env) (d : N) (mts : string) (s : State) :
  SendToLogfile (L s) = true -> fileWriter (L s) = None ->
  fault E (nSys s) = None -> fault E (S (nSys s)) = None ->
  Date_day (clock E (S (nNow s))) = d ->
  let name := baseName E ++ "_" ++ Format_date (clock E (nNow s)) ++ ".log" in
  exists s',
    daemon_logfile E d mts s = Ok (Some d) s'
    /\ trace s' = (trace s ++ [EvOpen name open_flags open_perm None;
                               EvFileWrite (Some name) mts None])%list
    /\ fileWriter (L s') = Some (mkFile name false).
Proof.
  intros Hon Hnil Hopen Hwrite Hday name.
  repeat (progress (go_file;
                    rewrite ?Hon, ?Hnil, ?Hopen, ?Hwrite, ?Hday, ?N.eqb_refl;
                    cbn [negb])).
  eexists. split; [reflexivity |]. split; [|reflexivity].
  cbn. now rewrite <- app_assoc.
Qed.

(** A file is open and the day of the month is another than the one the
    worker remembers: the file is closed, one named after the date of
    the moment is opened and written to, and the day is remembered. *)
Lemma logfile_rotates (E : Env) (d : N) (mts : string) (s : State) (f : File) :
  SendToLogfile (L s) = true -> fileWriter (L s) = Some f -> fclosed f = false ->
  Date_day (clock E (nNow s)) <> d ->
  fault E (nSys s) = None -> fault E (S (nSys s)) = None ->
  fault E (S (S (nSys s))) = None ->
  let name := baseName E ++ "_" ++ Format_date (clock E (S (nNow s))) ++ ".log" in
  exists s',
    daemon_logfile E d mts s = Ok (Some (Date_day (clock E (nNow s)))) s'
    /\ trace s' = (trace s ++ [EvClose (fname f) None;
                               EvOpen name open_flags open_perm None;
                               EvFileWrite (Some name) mts None])%list
    /\ fileWriter (L s') = Some (mkFile name false).
Proof.
  intros Hon Hf Hc Hday Hclose Hopen Hwrite name.
  apply N.eqb_neq in Hday.
  repeat (progress (go_file;
                    rewrite ?Hon, ?Hf, ?Hc, ?Hday, ?Hclose, ?Hopen, ?Hwrite;
                    cbn [negb])).
  eexists. split; [reflexivity |]. split; [|reflexivity].
  cbn. now rewrite <- !app_assoc.
Qed.

(** A file is open and the day of the month is the one the worker
    remembers, whatever the month and the year: the line goes to the
    open file. *)
Lemma logfile_same_day (E : Env) (d : N) (mts : string) (s : State) (f : File) :
  SendToLogfile (L s) = true -> fileWriter (L s) = Some f -> fclosed f = false ->
  Date_day (clock E (nNow s)) = d ->
  fault E (nSys s) = None ->
  daemon_logfile E d mts s
  = Ok (Some d) (add_event (EvFileWrite (Some (fname f)) mts None)
                           (tick_sys (tick_now s))).
Proof.
  intros Hon Hf Hc Hday Hwrite.
  repeat (progress (go_file;
                    rewrite ?Hon, ?Hf, ?Hc, ?Hday, ?N.eqb_refl, ?Hwrite;
                    cbn [negb])).
  reflexivity.
Qed.

(** C5.  The file of 15 January 2024 is open and the next line for the
    file comes on 15 February 2024: the worker compares days of the
    month only, 15 and 15, so it neither closes the file nor opens
    [app_2024-02-15.log]; the line of 15 February is appended to
    [app_2024-01-15.log].  A line that comes on 16 January does rotate. *)
Theorem C5_same_day_of_next_month_keeps_file :
  let s := sample_state LOG_DEBUG false false true (Some jan15_file)
                        [sample_line] in
  Format_date feb15 = "2024-02-15"
  /\ trace (worker_step (sample_env feb15 []) s)
     = [EvFileWrite (Some "app_2024-01-15.log") ("09:05:07.1234" ++ sample_line)
                    None]
  /\ fileWriter (L (worker_step (sample_env feb15 []) s)) = Some jan15_file
  /\ worker (worker_step (sample_env feb15 []) s) = Running 15
  /\ trace (worker_step (sample_env jan16 []) s)
     = [EvClose "app_2024-01-15.log" None;
        EvOpen "app_2024-01-16.log" open_flags open_perm None;
        EvFileWrite (Some "app_2024-01-16.log") ("00:00:01.0050" ++ sample_line)
                    None]
  /\ worker (worker_step (sample_env jan16 []) s) = Running 16.
Proof. cbv zeta. repeat split; reflexivity. Qed.

(* ================================================================= *)
(** * Invariants of the methods *)

Lemma preserves_ret (I : State -> Prop) {A} (a : A) : preserves I (ret a).
Proof. intros s Hs. exact Hs. Qed.

Lemma preserves_panic (I : State -> Prop) {A} (msg : string) :
  preserves I (@panic A msg).
Proof. intros s Hs. exact Hs. Qed.

Lemma preserves_getL (I : State -> Prop) : preserves I getL.
Proof. intros s Hs. exact Hs. Qed.

Lemma preserves_bind (I : State -> Prop) {A B} (m : M A) (k : A -> M B) :
  preserves I m -> (forall a, preserves I (k a)) -> preserves I (bind m k).
Proof.
  intros Hm Hk s Hs. unfold bind. specialize (Hm s Hs).
  destruct (m s) as [a s'|l s'|msg s']; cbn [state_of] in *; auto.
  now apply Hk.
Qed.

Lemma preserves_modify (I : State -> Prop) (f : State -> State) :
  (forall s, I s -> I (f s)) -> preserves I (modify f).
Proof. intros H s Hs. now apply H. Qed.

Lemma preserves_chan_send (I : State -> Prop) (line : string) :
  fstable I -> preserves I (chan_send line).
Proof.
  intros F s Hs. unfold chan_send.
  destruct (Nat.ltb_spec (length (buf (logChan (L s)))) (cap (logChan (L s))))
    as [Hroom|_]; [|exact Hs].
  exact (fs_push I F line s Hs Hroom).
Qed.

Lemma preserves_Log (I : State -> Prop) (E : Env) (callers : list Frame)
      (depth : nat) (level : ascii) (msg : string) :
  fstable I -> preserves I (Log_ E callers depth level msg).
Proof.
  intros F s Hs. rewrite Log_eq. apply preserves_chan_send; [assumption |].
  apply (fs_sprintf I F). now apply (fs_caller I F).
Qed.

Lemma preserves_anyErrToString (I : State -> Prop) (e : any) (prompt : string) :
  fstable I -> preserves I (anyErrToString e prompt).
Proof.
  intros F s Hs. destruct e; cbn; try exact Hs; now apply (fs_sprintf I F).
Qed.

Lemma preserves_format_prompt (I : State -> Prop) (E : Env) (prompt : string)
      (v : option (list any)) :
  fstable I -> preserves I (format_prompt E prompt v).
Proof.
  intros F s Hs. destruct v; cbn; [now apply (fs_sprintf I F) | exact Hs].
Qed.

Create HintDb pres.
#[local] Hint Resolve preserves_ret preserves_panic preserves_getL
  preserves_chan_send preserves_Log preserves_anyErrToString
  preserves_format_prompt st_facade : pres.

(** Walks through a method, bind by bind and branch by branch. *)
Ltac pres :=
  repeat
    first
      [ solve [auto with pres]
      | match goal with |- ?G => lazymatch G with forall _, _ => intro end end
      | apply preserves_bind
      | match goal with
        | |- preserves _ (match ?x with _ => _ end) => destruct x
        | |- preserves _ (if ?x then _ else _) => destruct x
        end ].

Lemma preserves_call (I : State -> Prop) (E : Env) (callers : list Frame)
      (c : Call) (prompt : string) (v : option (list any)) :
  fstable I -> preserves I (call E callers c prompt v).
Proof.
  intros F. destruct c; cbn [call]; unfold ERR, WRN, INF, DBG;
    apply preserves_bind; auto with pres; intros l;
    destruct (Priority l <? _)%Z; auto with pres; pres.
Qed.

Lemma preserves_ERR (I : State -> Prop) (E : Env) (callers : list Frame)
      (e : any) (prompt : string) (v : option (list any)) :
  fstable I -> preserves I (ERR E callers e prompt v).
Proof. intros F. exact (preserves_call I E callers (CallERR e) prompt v F). Qed.

Lemma preserves_emit (I : State -> Prop) (ev : Event) :
  stable I -> preserves I (emit ev).
Proof. intros St s Hs. now apply (st_event I St). Qed.

Lemma preserves_now (I : State -> Prop) (E : Env) :
  stable I -> preserves I (now E).
Proof. intros St s Hs. now apply (st_now I St). Qed.

Lemma preserves_sys (I : State -> Prop) (E : Env) :
  stable I -> preserves I (sys E).
Proof. intros St s Hs. now apply (st_sys I St). Qed.

Lemma preserves_set_file (I : State -> Prop) (f : File) :
  stable I ->
  preserves I (modify (fun s => set_L (set_fileWriter (Some f) (L s)) s)).
Proof. intros St. apply preserves_modify. intros s Hs. now apply (st_fileW I St). Qed.

#[local] Hint Resolve preserves_ERR preserves_emit preserves_now preserves_sys
  preserves_set_file : pres.

Lemma preserves_File_Close (I : State -> Prop) (E : Env) (f : File) :
  stable I -> preserves I (File_Close E f).
Proof. intros St. unfold File_Close. pres. Qed.

Lemma preserves_File_Write (I : State -> Prop) (E : Env) (data : string) :
  stable I -> preserves I (File_Write E data).
Proof. intros St. unfold File_Write. pres. Qed.

#[local] Hint Resolve preserves_File_Close preserves_File_Write : pres.

Lemma preserves_newFile (I : State -> Prop) (E : Env) (callers : list Frame) :
  stable I -> preserves I (newFile E callers).
Proof. intros St. unfold newFile. pres. Qed.

#[local] Hint Resolve preserves_newFile : pres.

Lemma preserves_daemon_logfile (I : State -> Prop) (E : Env) (d : N)
      (mts : string) :
  stable I -> preserves I (daemon_logfile E d mts).
Proof. intros St. unfold daemon_logfile. pres. Qed.

(** In applied form, for the stretches that are followed state by
    state. *)
Lemma keep_bind (I : State -> Prop) {A B} (m : M A) (k : A -> M B) (s : State) :
  I s -> preserves I m -> (forall a, preserves I (k a)) ->
  I (state_of (bind m k s)).
Proof. intros Hs Hm Hk. now apply (preserves_bind I m k Hm Hk). Qed.

Lemma preserves_daemon_syslog (I : State -> Prop) (E : Env) (m : string) :
  stable I -> preserves I (daemon_syslog E m).
Proof.
  intros St s Hs.
  assert (Ev : forall ev s0, I s0 -> I (add_event ev (tick_sys s0)))
    by (intros; now apply (st_event I St), (st_sys I St)).
  unfold daemon_syslog. go.
  destruct (SendToSyslog (L s)); [|exact Hs].
  destruct (syslogWriter (L s)) as [w|] eqn:Hw; go.
  - destruct (fault E (nSys s)) as [e|]; go.
    + apply keep_bind; auto with pres.
    + now apply Ev.
  - destruct (fault E (nSys s)) as [e|]; go.
    + apply keep_bind; auto with pres. pres.
    + assert (Hs2 : I (set_L (set_syslogWriter (Some (SyslogTag (L s)))
                                (L (add_event (EvSyslogNew LOG_INFO (SyslogTag (L s)) None)
                                              (tick_sys s))))
                             (add_event (EvSyslogNew LOG_INFO (SyslogTag (L s)) None)
                                        (tick_sys s))))
        by (apply (st_syslogW I St); [now apply Ev | exact Hw]).
      revert Hs2. generalize (set_L (set_syslogWriter (Some (SyslogTag (L s)))
                                (L (add_event (EvSyslogNew LOG_INFO (SyslogTag (L s)) None)
                                              (tick_sys s))))
                             (add_event (EvSyslogNew LOG_INFO (SyslogTag (L s)) None)
                                        (tick_sys s))).
      intros s2 Hs2.
      destruct (fault E (nSys s2)) as [e|]; go.
      * apply keep_bind; auto with pres.
      * now apply Ev.
Qed.

#[local] Hint Resolve preserves_daemon_syslog preserves_daemon_logfile : pres.

Lemma preserves_daemon_body (I : State -> Prop) (E : Env) (d : N) (m : string) :
  stable I -> preserves I (daemon_body E d m).
Proof. intros St. unfold daemon_body. pres. Qed.

(** A step of the worker keeps what its turn and its bookkeeping keep. *)
Lemma steady_worker_step (I : State -> Prop) (E : Env) (s : State) :
  steady I -> I s -> I (worker_step E s).
Proof.
  intros [St Take Work] Hs. unfold worker_step.
  destruct (worker s) as [|d|  | |] eqn:Hw; try exact Hs.
  - apply Work. now apply (st_now I St).
  - unfold chan_recv. destruct (buf (logChan (L s))) as [|m q] eqn:Hq;
      [exact Hs |].
    fold (taken s q).
    pose proof (preserves_daemon_body I E d m St (taken s q) (Take m q s Hs Hq))
      as H.
    destruct (daemon_body E d m (taken s q)) as [[d'|] s'|l s'|msg s'];
      cbn [finish state_of] in *; now apply Work.
Qed.

(** Whatever goes on around the logger keeps a steady invariant. *)
Lemma steady_play (I : State -> Prop) (E : Env) (acts : list action) :
  steady I -> forall s, I s -> I (play E acts s).
Proof.
  intros Sd. induction acts as [|a acts IH]; intros s Hs; [exact Hs |].
  cbn [play]. apply IH. destruct a as [|callers c prompt v|line]; cbn [act].
  - now apply steady_worker_step.
  - apply preserves_call; [|exact Hs]. apply st_facade, sd_stable, Sd.
  - apply preserves_chan_send; [|exact Hs]. apply st_facade, sd_stable, Sd.
Qed.

(* ================================================================= *)
(** * The queue and the configuration, whatever goes on *)

Lemma steady_bounded : steady bounded.
Proof.
  unfold bounded. constructor; [constructor; [constructor |..] |..];
    try (intros; assumption).
  - intros l s _ Hroom. cbn. rewrite length_app. cbn. lia.
  - intros m q s Hs Hq. cbn. rewrite Hq in Hs. cbn in Hs. lia.
Qed.

(** X1.  The queue never holds more than its capacity: whatever the
    worker, the callers of the facade and the parked senders do, and in
    whatever order, a queue within its capacity stays within it. *)
Theorem queue_stays_bounded (E : Env) (acts : list action) (s : State) :
  bounded s -> bounded (play E acts s).
Proof. apply steady_play, steady_bounded. Qed.

Lemma queue_stays_bounded_witness :
  bounded init
  /\ bounded (play (sample_env jan15 [])
                   [Say [mkFrame "main.main" 10] CallINF "start" None; Work;
                    Resume "late"; Work]
                   init).
Proof.
  assert (H : bounded init) by (unfold bounded; cbn; lia).
  split; [exact H |].
  apply (queue_stays_bounded (sample_env jan15 [])
           [Say [mkFrame "main.main" 10] CallINF "start" None; Work;
            Resume "late"; Work] init H).
Defined.

Lemma steady_same_config (s0 : State) : steady (same_config s0).
Proof.
  unfold same_config.
  constructor; [constructor; [constructor |..] |..]; intros; assumption.
Qed.

(** X2.  The logger never changes its own configuration: after any
    number of worker steps, facade calls and sends, in any order, the
    three sink switches, [Priority], [SyslogTag] and the capacity of the
    queue are what they were. *)
Theorem config_is_never_touched (E : Env) (acts : list action) (s : State) :
  same_config s (play E acts s).
Proof.
  apply steady_play; [apply steady_same_config |].
  unfold same_config. now conjs.
Qed.

(* ================================================================= *)
(** * The facade does no I/O *)

Lemma fstable_only_queued (s0 : State) : fstable (only_queued s0).
Proof.
  unfold only_queued, same_config. constructor.
  - intros s H. exact H.
  - intros s H. exact H.
  - intros l s (Ht & Hw & Hn & Hy & Hsw & Hfw & Hc & more & Hq) _.
    conjs; try assumption; try (now destruct Hc as (? & ? & ? & ? & ? & ?)).
    exists (more ++ [l])%list. cbn. now rewrite Hq, app_assoc.
Qed.

(** X3.  A facade call does no I/O and touches nothing but the queue:
    however it ends (returned, parked or panicked), the sinks' trace,
    the clock and system-call counts, both handles, the worker and the
    configuration are as before, and the queue has only grown at its
    end. *)
Theorem facade_only_queues (E : Env) (callers : list Frame) (c : Call)
        (prompt : string) (v : option (list any)) (s : State) :
  only_queued s (state_of (call E callers c prompt v s)).
Proof.
  apply preserves_call; [apply fstable_only_queued |].
  unfold only_queued, same_config. conjs; try reflexivity.
  exists []. now rewrite app_nil_r.
Qed.

(** The facade in one formula: nothing under the threshold, a panic for
    an [int] cause, else one send of the rendered line. *)
Lemma call_result (E : Env) (callers : list Frame) (c : Call)
      (prompt : string) (v : option (list any)) (s : State) :
  (severity c <= Priority (L s))%Z -> ~ int_cause c ->
  call E callers c prompt v s
  = chan_send (call_line E callers c prompt v) (counted c v s).
Proof.
  intros Hp Hint. apply Z.ltb_ge in Hp. unfold call_line, counted.
  destruct c as [e| | |]; cbn [call severity level_of call_text] in *;
    unfold ERR, WRN, INF, DBG; rewrite bind_getL, Hp;
    destruct v as [args|]; cbn [format_prompt formatted]; go;
    try (rewrite Log_eq; reflexivity);
    destruct e; try (exfalso; apply Hint; exact I);
    cbn [anyErrToString cause_text]; go; rewrite Log_eq; reflexivity.
Qed.

(** X4.  A facade call at or under the threshold, whose cause is not an
    [int], renders one line: the letter of the level, the caller found
    two frames above [Log], the prompt (formatted when arguments are
    given) and for [ERR] the rendering of the cause.  With room in the
    queue the line becomes its last element and the call returns; on a
    full queue the caller is parked with that line and the queue is as
    it was: nothing is dropped and nothing overwritten. *)
Theorem facade_sends_one_line (E : Env) (callers : list Frame) (c : Call)
        (prompt : string) (v : option (list any)) (s : State) :
  (severity c <= Priority (L s))%Z -> ~ int_cause c ->
  let line := call_line E callers c prompt v in
  ((length (queue s) < cap (logChan (L s)))%nat ->
   exists s',
     call E callers c prompt v s = Ok tt s'
     /\ queue s' = (queue s ++ [line])%list
     /\ nCaller s' = S (nCaller s))
  /\ ((cap (logChan (L s)) <= length (queue s))%nat ->
      exists s',
        call E callers c prompt v s = Blocked line s'
        /\ queue s' = queue s).
Proof.
  intros Hp Hint line. rewrite (call_result E callers c prompt v s Hp Hint).
  fold line. rewrite chan_send_if.
  assert (Hq : queue (counted c v s) = queue s)
    by (unfold counted; destruct c, v; reflexivity).
  assert (Hc : cap (logChan (L (counted c v s))) = cap (logChan (L s)))
    by (unfold counted; destruct c, v; reflexivity).
  rewrite Hq, Hc. split; intros Hroom.
  - apply Nat.ltb_lt in Hroom. rewrite Hroom. eexists. split; [reflexivity |].
    split.
    + reflexivity.
    + unfold counted. destruct c, v; reflexivity.
  - apply Nat.ltb_ge in Hroom. rewrite Hroom. eexists. split; [reflexivity |].
    exact Hq.
Qed.

Lemma facade_sends_one_line_witness :
  let E := sample_env jan15 [] in
  let s := sample_state LOG_DEBUG true false false None [] in
  let full := sample_state LOG_DEBUG true false false None
                           (repeat sample_line 1000) in
  (severity (CallERR (AStr "boom")) <= Priority (L s))%Z
  /\ ~ int_cause (CallERR (AStr "boom"))
  /\ call_line E [mkFrame "main.(*Job).Run" 7] (CallERR (AStr "boom"))
               "step %d" None
     = render "E" "Job.Run" 7 "step %d err{boom}"
  /\ (exists s',
         call E [mkFrame "main.(*Job).Run" 7] (CallERR (AStr "boom"))
              "step %d" None s = Ok tt s'
         /\ queue s' = [render "E" "Job.Run" 7 "step %d err{boom}"])
  /\ (exists s',
         call E [mkFrame "main.(*Job).Run" 7] (CallDBG) "tick" None full
         = Blocked (render "D" "Job.Run" 7 "tick") s'
         /\ queue s' = repeat sample_line 1000).
Proof.
  intros E s full.
  assert (Hp : (severity (CallERR (AStr "boom")) <= Priority (L s))%Z)
    by (cbv; discriminate).
  assert (Hi : ~ int_cause (CallERR (AStr "boom"))) by (exact (fun x => x)).
  assert (Hp' : (severity CallDBG <= Priority (L full))%Z)
    by (cbv; discriminate).
  assert (Hi' : ~ int_cause CallDBG) by (exact (fun x => x)).
  destruct (facade_sends_one_line E [mkFrame "main.(*Job).Run" 7]
              (CallERR (AStr "boom")) "step %d" None s Hp Hi) as [Hroom _].
  destruct (facade_sends_one_line E [mkFrame "main.(*Job).Run" 7]
              CallDBG "tick" None full Hp' Hi') as [_ Hfull].
  split; [exact Hp |]. split; [exact Hi |]. split; [reflexivity |]. split.
  - destruct Hroom as (s' & Hr & Hq & _);
      [apply Nat.ltb_lt; vm_compute; reflexivity |].
    exists s'. split; [exact Hr | exact Hq].
  - destruct Hfull as (s' & Hr & Hq);
      [apply Nat.leb_le; vm_compute; reflexivity |].
    exists s'. split; [exact Hr | exact Hq].
Defined.

(* ================================================================= *)
(** * The console, line by line *)

(** The whole state after a turn with syslog and the file off. *)
Lemma console_turn (E : Env) (s : State) (d : N) (m : string) (q : list string) :
  worker s = Running d -> queue s = m :: q ->
  SendToSyslog (L s) = false -> SendToLogfile (L s) = false ->
  worker_step E s = set_worker (Running d) (console_state E s m q).
Proof.
  intros Hw Hq Hsys Hfile. rewrite (worker_step_running E s d m q Hw Hq).
  unfold daemon_body, daemon_syslog, daemon_logfile, console_state, stamped. go.
  cbn [L tick_now taken set_L SendToStdout SendToSyslog SendToLogfile
         set_logChan nNow].
  destruct (SendToStdout (L s)); go;
    cbn [L tick_now taken set_L add_event SendToSyslog SendToLogfile
           set_logChan];
    rewrite Hsys; go;
    cbn [L tick_now taken set_L add_event SendToSyslog SendToLogfile
           set_logChan];
    rewrite Hfile; reflexivity.
Qed.

Lemma console_steps (E : Env) (ms : list string) :
  forall (s : State) (d : N) (rest : list string),
    worker s = Running d -> queue s = (ms ++ rest)%list ->
    SendToSyslog (L s) = false -> SendToLogfile (L s) = false ->
    SendToStdout (L s) = true ->
    let s' := worker_steps E (length ms) s in
    trace s' = (trace s ++ delivered E (nNow s) ms)%list
    /\ queue s' = rest /\ worker s' = Running d
    /\ nNow s' = (nNow s + length ms)%nat.
Proof.
  induction ms as [|m ms IH]; intros s d rest Hw Hq Hsys Hfile Hout s'.
  - subst s'. cbn. rewrite app_nil_r, Nat.add_0_r. now conjs.
  - subst s'. cbn [length worker_steps].
    rewrite (console_turn E s d m (ms ++ rest) Hw Hq Hsys).
    2: exact Hfile.
    unfold console_state. rewrite Hout.
    set (s1 := set_worker (Running d)
                 (add_event (EvStdout (stamped E s m))
                            (tick_now (taken s (ms ++ rest)%list)))).
    destruct (IH s1 d rest) as (Ht & Hq' & Hw' & Hn); try reflexivity;
      try assumption.
    conjs.
    + rewrite Ht. cbn. rewrite <- app_assoc. reflexivity.
    + exact Hq'.
    + exact Hw'.
    + rewrite Hn. cbn. lia.
Qed.

(** X5.  With syslog and the file off, the worker hands the queued lines
    to the console one per step, in the order of the queue, each behind
    the timestamp of its own look at the clock; it takes nothing but the
    first lines, and goes on running. *)
Theorem console_in_queue_order (E : Env) (ms : list string) (s : State)
        (d : N) (rest : list string) :
  worker s = Running d -> queue s = (ms ++ rest)%list ->
  SendToSyslog (L s) = false -> SendToLogfile (L s) = false ->
  SendToStdout (L s) = true ->
  let s' := worker_steps E (length ms) s in
  trace s' = (trace s ++ delivered E (nNow s) ms)%list
  /\ queue s' = rest /\ worker s' = Running d
  /\ nNow s' = (nNow s + length ms)%nat.
Proof. apply console_steps. Qed.

Lemma console_in_queue_order_witness :
  let E := mkEnv (fun i => mkTime 2024 1 15 9 5 (N.of_nat i) 0) (fun _ => None)
                 "app" sample_path (fun p _ => p) in
  let s := sample_state LOG_DEBUG true false false None ["a"; "b"; "c"] in
  worker s = Running 15 /\ queue s = (["a"; "b"] ++ ["c"])%list
  /\ trace (worker_steps E 2 s)
     = [EvStdout "09:05:00.0000a"; EvStdout "09:05:01.0000b"]
  /\ queue (worker_steps E 2 s) = ["c"].
Proof.
  intros E s.
  destruct (console_in_queue_order E ["a"; "b"] s 15 ["c"]
              eq_refl eq_refl eq_refl eq_refl eq_refl) as (Ht & Hq & _).
  split; [reflexivity |]. split; [reflexivity |].
  split; [exact Ht | exact Hq].
Defined.

(** X6.  From a call to the console: on a running worker with an empty
    queue (of capacity at least one), console on, syslog and file off, a
    facade call that passes the filter followed by one step of the
    worker prints exactly the rendered line behind the timestamp, and
    leaves the queue empty again. *)
Theorem call_then_step_prints (E : Env) (callers : list Frame) (c : Call)
        (prompt : string) (v : option (list any)) (s : State) (d : N) :
  worker s = Running d -> queue s = [] ->
  (0 < cap (logChan (L s)))%nat ->
  SendToStdout (L s) = true ->
  SendToSyslog (L s) = false -> SendToLogfile (L s) = false ->
  (severity c <= Priority (L s))%Z -> ~ int_cause c ->
  let s' := worker_step E (state_of (call E callers c prompt v s)) in
  trace s'
  = (trace s ++ [EvStdout (Format_clock (clock E (nNow s))
                           ++ call_line E callers c prompt v)])%list
  /\ queue s' = [] /\ worker s' = Running d.
Proof.
  intros Hw Hq Hcap Hout Hsys Hfile Hp Hint s'. subst s'.
  rewrite (call_result E callers c prompt v s Hp Hint), chan_send_if.
  assert (Hq1 : queue (counted c v s) = queue s)
    by (unfold counted; destruct c, v; reflexivity).
  assert (Hc1 : cap (logChan (L (counted c v s))) = cap (logChan (L s)))
    by (unfold counted; destruct c, v; reflexivity).
  rewrite Hq1, Hc1, Hq. cbn [length app].
  apply Nat.ltb_lt in Hcap. rewrite Hcap. cbn [state_of].
  set (line := call_line E callers c prompt v).
  set (s1 := taken (counted c v s) [line]).
  assert (H1 : worker s1 = Running d)
    by (subst s1; unfold counted; destruct c, v; exact Hw).
  assert (H2 : SendToSyslog (L s1) = false)
    by (subst s1; unfold counted; destruct c, v; exact Hsys).
  assert (H3 : SendToLogfile (L s1) = false)
    by (subst s1; unfold counted; destruct c, v; exact Hfile).
  assert (H4 : SendToStdout (L s1) = true)
    by (subst s1; unfold counted; destruct c, v; exact Hout).
  rewrite (console_turn E s1 d line [] H1 eq_refl H2 H3).
  unfold console_state, stamped. rewrite H4.
  subst s1. unfold counted. destruct c, v; now conjs.
Qed.

Lemma call_then_step_prints_witness :
  let E := sample_env jan15 [] in
  let s := sample_state LOG_INFO true false false None [] in
  worker s = Running 15 /\ queue s = []
  /\ trace (worker_step E (state_of (call E [mkFrame "main.main" 10] CallWRN
                                          "disk almost full" None s)))
     = [EvStdout ("09:05:07.1234"
                  ++ render "W" "main.main" 10 "disk almost full")].
Proof.
  intros E s.
  assert (Hcap : (0 < cap (logChan (L s)))%nat)
    by (apply Nat.ltb_lt; vm_compute; reflexivity).
  assert (Hp : (severity CallWRN <= Priority (L s))%Z) by (cbv; discriminate).
  destruct (call_then_step_prints E [mkFrame "main.main" 10] CallWRN
              "disk almost full" None s 15
              eq_refl eq_refl Hcap eq_refl eq_refl eq_refl Hp (fun x => x))
    as (Ht & _).
  split; [reflexivity |]. split; [reflexivity |].
  rewrite Ht. reflexivity.
Defined.

(* ================================================================= *)
(** * What the worker never does *)

Lemma worker_step_no_crash (E : Env) (s : State) :
  worker s <> Crashed -> worker (worker_step E s) <> Crashed.
Proof.
  intros Hs. destruct (worker s) as [|d| |l|] eqn:Hw; try congruence.
  - unfold worker_step. rewrite Hw. discriminate.
  - destruct (queue s) as [|m q] eqn:Hq.
    + unfold worker_step, chan_recv. rewrite Hw.
      unfold queue in Hq. rewrite Hq. congruence.
    + destruct (turn_ends E s d m q Hw Hq)
        as (evs & _ & _ & [(d' & Hr & _)
                          | [(evs0 & ev & x & s_mid & _ & Hx & _ & _ & _ & _ & Hs')
                            | (l & Hd & _)]]).
      * congruence.
      * destruct (halt_report E ev x s_mid Hx) as (_ & Hstop & _).
        rewrite <- Hs' in Hstop. destruct Hstop as [H | [l H]]; congruence.
      * congruence.
  - unfold worker_step. rewrite Hw. congruence.
  - unfold worker_step. rewrite Hw. congruence.
Qed.

Lemma fstable_worker (w : Worker) : fstable (fun s => worker s = w).
Proof. constructor; intros; assumption. Qed.

(** X7.  The worker does not panic: whatever the sinks answer, whatever
    is queued and whatever the callers do, the worker is never left
    crashed; the one panic of the package, an [int] cause passed to
    [ERR], stays in the goroutine of the caller. *)
Theorem worker_never_crashes (E : Env) (acts : list action) :
  forall s, worker s <> Crashed -> worker (play E acts s) <> Crashed.
Proof.
  induction acts as [|a acts IH]; intros s Hs; [exact Hs |].
  cbn [play]. apply IH. destruct a as [|callers c prompt v|line]; cbn [act].
  - now apply worker_step_no_crash.
  - now rewrite (preserves_call _ E callers c prompt v
                   (fstable_worker (worker s)) s eq_refl).
  - now rewrite (preserves_chan_send _ line (fstable_worker (worker s)) s eq_refl).
Qed.

Lemma worker_never_crashes_witness :
  worker init <> Crashed
  /\ worker (play (sample_env jan15 [(0%nat, "refused")])
                  [Work; Say [mkFrame "main.main" 10] (CallERR (AInt 5)) "p" None;
                   Say [mkFrame "main.main" 10] CallINF "start" None; Work]
                  init) <> Crashed.
Proof.
  assert (H : worker init <> Crashed) by discriminate.
  split; [exact H |].
  apply (worker_never_crashes (sample_env jan15 [(0%nat, "refused")])
           [Work; Say [mkFrame "main.main" 10] (CallERR (AInt 5)) "p" None;
            Say [mkFrame "main.main" 10] CallINF "start" None; Work] init H).
Defined.

Lemma fstable_console_only_state : fstable console_only_state.
Proof. constructor; intros; assumption. Qed.

Lemma console_only_step (E : Env) (s : State) :
  console_only_state s -> console_only_state (worker_step E s).
Proof.
  intros (Hsys & Hfile & Hsw & Hfw & Htr & Hw).
  destruct Hw as [Hw | [d Hw]].
  - unfold worker_step. rewrite Hw. unfold console_only_state. cbn.
    conjs; try assumption. right. now eexists.
  - destruct (queue s) as [|m q] eqn:Hq.
    + unfold worker_step, chan_recv. rewrite Hw.
      unfold queue in Hq. rewrite Hq.
      unfold console_only_state. conjs; try assumption. right. now exists d.
    + rewrite (console_turn E s d m q Hw Hq Hsys Hfile).
      unfold console_only_state, console_state.
      destruct (SendToStdout (L s)); cbn; conjs; try assumption;
        try (right; now exists d).
      apply Forall_app. split; [assumption |]. repeat constructor.
Qed.

(** X8.  With syslog and the file off, as [init] sets them, the logger
    never touches syslog or the file system and its worker never stops:
    whatever is logged and in whatever order things happen, both handles
    stay [nil], every event is a write to the console, and the worker is
    about to run or running. *)
Theorem default_config_console_only (E : Env) (acts : list action) :
  forall s, console_only_state s -> console_only_state (play E acts s).
Proof.
  induction acts as [|a acts IH]; intros s Hs; [exact Hs |].
  cbn [play]. apply IH. destruct a as [|callers c prompt v|line]; cbn [act].
  - now apply console_only_step.
  - apply preserves_call; [apply fstable_console_only_state | exact Hs].
  - apply preserves_chan_send; [apply fstable_console_only_state | exact Hs].
Qed.

Lemma default_config_console_only_witness :
  console_only_state init
  /\ console_only_state
       (play (sample_env jan15 [(0%nat, "refused")])
             [Say [mkFrame "main.main" 10] CallINF "start" None; Work; Work]
             init)
  /\ trace (play (sample_env jan15 [(0%nat, "refused")])
                 [Say [mkFrame "main.main" 10] CallINF "start" None; Work; Work]
                 init)
     = [EvStdout ("09:05:07.1234" ++ render "I" "main.main" 10 "start")].
Proof.
  assert (H : console_only_state init).
  { unfold console_only_state. cbn. conjs; try reflexivity; [constructor | now left]. }
  split; [exact H |]. split; [|reflexivity].
  apply (default_config_console_only (sample_env jan15 [(0%nat, "refused")])
           [Say [mkFrame "main.main" 10] CallINF "start" None; Work; Work]
           init H).
Defined.

(* ================================================================= *)
(** * After the loop is over *)

Lemma fstable_silent_since (s0 : State) : fstable (silent_since s0).
Proof.
  unfold silent_since. constructor.
  - intros s H. exact H.
  - intros s H. exact H.
  - intros l s (Hw & Ht & more & Hq) _. conjs; try assumption.
    exists (more ++ [l])%list. cbn. now rewrite Hq, app_assoc.
Qed.

Lemma silent_since_refl (s : State) : silent_since s s.
Proof. unfold silent_since. conjs; try reflexivity. exists []. now rewrite app_nil_r. Qed.

Lemma play_after_stop (E : Env) (acts : list action) (s : State) :
  stopped s ->
  silent_since s (play E acts s) /\ stopped (play E acts s).
Proof.
  intros Hstop.
  assert (H : forall s', silent_since s s' -> silent_since s (play E acts s')).
  { induction acts as [|a acts IH]; intros s' Hs'; [exact Hs' |].
    cbn [play]. apply IH. destruct a as [|callers c prompt v|line]; cbn [act].
    - assert (Hid : worker_step E s' = s').
      { destruct Hs' as (Hw & _). unfold worker_step. rewrite Hw.
        destruct Hstop as [-> | [l ->]]; reflexivity. }
      now rewrite Hid.
    - apply preserves_call; [apply fstable_silent_since | exact Hs'].
    - apply preserves_chan_send; [apply fstable_silent_since | exact Hs']. }
  specialize (H s (silent_since_refl s)). split; [exact H |].
  destruct H as (Hw & _). unfold stopped. now rewrite Hw.
Qed.

(** X9.  Once the worker's loop is over, logging is dead for good:
    whatever is logged afterwards and however often the worker is
    scheduled, no sink is ever written to again; the lines only pile up
    at the end of the queue. *)
Theorem silent_after_stop (E : Env) (acts : list action) (s : State) :
  stopped s ->
  silent_since s (play E acts s) /\ stopped (play E acts s).
Proof. apply play_after_stop. Qed.

Lemma silent_after_stop_witness :
  let E := sample_env jan15 [(0%nat, "broken pipe")] in
  let s := worker_step E (sample_state LOG_DEBUG true true false None [sample_line]) in
  stopped s
  /\ trace (play E [Say [mkFrame "main.main" 10] CallINF "anyone?" None; Work;
                    Work] s)
     = trace s
  /\ queue (play E [Say [mkFrame "main.main" 10] CallINF "anyone?" None; Work;
                    Work] s)
     = [report "daemon" 41 "Error creating syslog" "broken pipe";
        render "I" "main.main" 10 "anyone?"].
Proof.
  intros E s.
  assert (Hstop : stopped s) by (left; reflexivity).
  destruct (silent_after_stop E [Say [mkFrame "main.main" 10] CallINF "anyone?" None;
                                 Work; Work] s Hstop) as ((_ & Ht & _) & _).
  split; [exact Hstop |]. split; [exact Ht | reflexivity].
Defined.

(** X10.  [Close] after the loop is over, with lines still queued, never
    returns: whatever the other goroutines do while it sleeps, every
    look finds the queue not empty. *)
Theorem Close_hangs_after_stop (E : Env) (schedule : nat -> list action)
        (fuel : nat) :
  forall (i : nat) (s : State),
    stopped s -> queue s <> [] ->
    Close (fun j => play E (schedule j)) fuel i s = None.
Proof.
  induction fuel as [|fuel IH]; intros i s Hstop Hq.
  - cbn. destruct (queue s); [congruence | reflexivity].
  - cbn [Close]. destruct (queue s) as [|m q] eqn:Hqs; [congruence |].
    cbn [length Nat.ltb Nat.leb]. unfold sleep.
    set (s1 := add_event (EvSleep 100) s).
    assert (Hstop1 : stopped s1) by exact Hstop.
    destruct (play_after_stop E (schedule i) s1 Hstop1)
      as ((_ & _ & more & Hmore) & Hstop2).
    apply IH; [exact Hstop2 |].
    rewrite Hmore. change (queue s1) with (queue s). rewrite Hqs. discriminate.
Qed.

Lemma Close_hangs_after_stop_witness :
  let E := sample_env jan15 [(0%nat, "broken pipe")] in
  let s := worker_step E (sample_state LOG_DEBUG true true false None
                                       [sample_line]) in
  stopped s /\ queue s <> []
  /\ Close (fun j => play E [Work; Work]) 50 0 s = None.
Proof.
  intros E s.
  assert (Hstop : stopped s) by (left; reflexivity).
  assert (Hq : queue s <> []) by discriminate.
  split; [exact Hstop |]. split; [exact Hq |].
  apply (Close_hangs_after_stop E (fun _ => [Work; Work]) 50 0 s Hstop Hq).
Defined.

(* ================================================================= *)
(** * The file sink: opening, rotating, failing *)

(** X11.  The first line for the file: with no file open, the worker
    opens [<base>_<date>.log], named after the date of that moment, for
    appending, creating it if need be, write-only, with mode 0600, and
    writes the stamped line to it; the file stays open for the next
    turns. *)
Theorem file_opened_on_first_line (E : Env) (s : State) (d : N) (m : string)
        (q : list string) :
  worker s = Running d -> queue s = m :: q ->
  SendToSyslog (L s) = false -> SendToLogfile (L s) = true ->
  fileWriter (L s) = None ->
  fault E (nSys s) = None -> fault E (S (nSys s)) = None ->
  Date_day (clock E (S (S (nNow s)))) = d ->
  let name := baseName E ++ "_" ++ Format_date (clock E (S (nNow s))) ++ ".log" in
  let s' := worker_step E s in
  trace s' = (trace s ++ console E s m
                ++ [EvOpen name open_flags open_perm None;
                    EvFileWrite (Some name) (stamped E s m) None])%list
  /\ fileWriter (L s') = Some (mkFile name false)
  /\ worker s' = Running d /\ queue s' = q
  /\ Z.land open_flags O_APPEND = O_APPEND
  /\ Z.land open_flags O_CREATE = O_CREATE
  /\ Z.land open_flags 3 = O_WRONLY
  /\ open_perm = (6 * 64)%Z.
Proof.
  intros Hw Hq Hsys Hon Hnil Hopen Hwrite Hday name s'. subst s'.
  rewrite (turn_syslog_off E s d m q Hw Hq Hsys). unfold console, console_state.
  destruct (SendToStdout (L s));
    repeat (progress (file_turn;
                      rewrite ?Hon, ?Hnil, ?Hopen, ?Hwrite, ?Hday, ?N.eqb_refl));
    file_done.
Qed.

(** X12.  Rotation: a file is open and the day of the month at this turn
    differs from the one the worker remembers; the worker closes the
    file, opens the one named after the date of that moment, writes the
    stamped line to the new file and remembers the new day. *)
Theorem file_rotated_on_new_day (E : Env) (s : State) (d : N) (m : string)
        (q : list string) (f : File) :
  worker s = Running d -> queue s = m :: q ->
  SendToSyslog (L s) = false -> SendToLogfile (L s) = true ->
  fileWriter (L s) = Some f -> fclosed f = false ->
  Date_day (clock E (S (nNow s))) <> d ->
  fault E (nSys s) = None -> fault E (S (nSys s)) = None ->
  fault E (S (S (nSys s))) = None ->
  let name := baseName E ++ "_" ++ Format_date (clock E (S (S (nNow s))))
              ++ ".log" in
  let s' := worker_step E s in
  trace s' = (trace s ++ console E s m
                ++ [EvClose (fname f) None;
                    EvOpen name open_flags open_perm None;
                    EvFileWrite (Some name) (stamped E s m) None])%list
  /\ fileWriter (L s') = Some (mkFile name false)
  /\ worker s' = Running (Date_day (clock E (S (nNow s))))
  /\ queue s' = q.
Proof.
  intros Hw Hq Hsys Hon Hf Hc Hday Hclose Hopen Hwrite name s'. subst s'.
  apply N.eqb_neq in Hday.
  rewrite (turn_syslog_off E s d m q Hw Hq Hsys). unfold console, console_state.
  destruct (SendToStdout (L s));
    repeat (progress (file_turn;
                      rewrite ?Hon, ?Hf, ?Hc, ?Hday, ?Hclose, ?Hopen, ?Hwrite));
    file_done.
Qed.

Lemma file_rotated_on_new_day_witness :
  let E := sample_env jan16 [] in
  let s := sample_state LOG_DEBUG false false true (Some jan15_file)
                        [sample_line] in
  Date_day (clock E (S (nNow s))) <> 15%N
  /\ trace (worker_step E s)
     = [EvClose "app_2024-01-15.log" None;
        EvOpen "app_2024-01-16.log" open_flags open_perm None;
        EvFileWrite (Some "app_2024-01-16.log") ("00:00:01.0050" ++ sample_line)
                    None]
  /\ worker (worker_step E s) = Running 16.
Proof.
  intros E s.
  assert (Hday : Date_day (clock E (S (nNow s))) <> 15%N) by discriminate.
  destruct (file_rotated_on_new_day E s 15 sample_line [] jan15_file
              eq_refl eq_refl eq_refl eq_refl eq_refl eq_refl Hday
              eq_refl eq_refl eq_refl) as (Ht & _ & Hw & _).
  split; [exact Hday |]. split; [exact Ht | exact Hw].
Defined.

Lemma file_opened_on_first_line_witness :
  let E := sample_env jan15 [] in
  let s := sample_state LOG_DEBUG false false true None [sample_line] in
  worker s = Running 15 /\ fileWriter (L s) = None
  /\ trace (worker_step E s)
     = [EvOpen "app_2024-01-15.log" 1089 384 None;
        EvFileWrite (Some "app_2024-01-15.log") ("09:05:07.1234" ++ sample_line)
                    None]
  /\ fileWriter (L (worker_step E s)) = Some jan15_file.
Proof.
  intros E s.
  destruct (file_opened_on_first_line E s 15 sample_line []
              eq_refl eq_refl eq_refl eq_refl eq_refl eq_refl eq_refl eq_refl)
    as (Ht & Hf & _).
  split; [reflexivity |]. split; [reflexivity |].
  split; [exact Ht | exact Hf].
Defined.

(** X13.  The first line for the file on another day than the one the
    worker noted when it started: the file is opened, closed again at
    once and opened a second time before the line is written, because
    the day the worker remembers is not the day a file was opened. *)
Theorem first_line_on_another_day_opens_twice (E : Env) (s : State) (d : N)
        (m : string) (q : list string) :
  worker s = Running d -> queue s = m :: q ->
  SendToSyslog (L s) = false -> SendToLogfile (L s) = true ->
  fileWriter (L s) = None ->
  Date_day (clock E (S (S (nNow s)))) <> d ->
  fault E (nSys s) = None -> fault E (S (nSys s)) = None ->
  fault E (S (S (nSys s))) = None -> fault E (S (S (S (nSys s)))) = None ->
  let name1 := baseName E ++ "_" ++ Format_date (clock E (S (nNow s)))
               ++ ".log" in
  let name2 := baseName E ++ "_" ++ Format_date (clock E (S (S (S (nNow s)))))
               ++ ".log" in
  let s' := worker_step E s in
  trace s' = (trace s ++ console E s m
                ++ [EvOpen name1 open_flags open_perm None;
                    EvClose name1 None;
                    EvOpen name2 open_flags open_perm None;
                    EvFileWrite (Some name2) (stamped E s m) None])%list
  /\ fileWriter (L s') = Some (mkFile name2 false)
  /\ worker s' = Running (Date_day (clock E (S (S (nNow s))))).
Proof.
  intros Hw Hq Hsys Hon Hnil Hday H0 H1 H2 H3 name1 name2 s'. subst s'.
  apply N.eqb_neq in Hday.
  rewrite (turn_syslog_off E s d m q Hw Hq Hsys). unfold console, console_state.
  destruct (SendToStdout (L s));
    repeat (progress (file_turn;
                      rewrite ?Hon, ?Hnil, ?Hday, ?H0, ?H1, ?H2, ?H3));
    file_done.
Qed.

Lemma first_line_on_another_day_opens_twice_witness :
  let E := sample_env jan16 [] in
  let s := sample_state LOG_DEBUG false false true None [sample_line] in
  Date_day (clock E (S (S (nNow s)))) <> 15%N
  /\ trace (worker_step E s)
     = [EvOpen "app_2024-01-16.log" open_flags open_perm None;
        EvClose "app_2024-01-16.log" None;
        EvOpen "app_2024-01-16.log" open_flags open_perm None;
        EvFileWrite (Some "app_2024-01-16.log") ("00:00:01.0050" ++ sample_line)
                    None].
Proof.
  intros E s.
  assert (Hday : Date_day (clock E (S (S (nNow s)))) <> 15%N) by discriminate.
  destruct (first_line_on_another_day_opens_twice E s 15 sample_line []
              eq_refl eq_refl eq_refl eq_refl eq_refl Hday
              eq_refl eq_refl eq_refl eq_refl) as (Ht & _).
  split; [exact Hday | exact Ht].
Defined.

(** The turn of a failed open without a rotation, by the room the two
    reports find. *)
Lemma failed_open_turn (E : Env) (s : State) (d : N) (m : string)
      (q : list string) (e : string) :
  worker s = Running d -> queue s = m :: q ->
  SendToSyslog (L s) = false -> SendToLogfile (L s) = true ->
  fileWriter (L s) = None ->
  fault E (nSys s) = Some e ->
  Date_day (clock E (S (S (nNow s)))) = d ->
  let name := baseName E ++ "_" ++ Format_date (clock E (S (nNow s))) ++ ".log" in
  let r1 := report "newFile" 84 "Error creating logfile" e in
  let r2 := report "daemon" 65 "Error writing to logfile" "invalid argument" in
  let opened := EvOpen name open_flags open_perm (Some e) in
  let written := EvFileWrite None (stamped E s m) (Some "invalid argument") in
  let s' := worker_step E s in
  let quiet := (Priority (L s) <? LOG_ERR)%Z in
  let room1 := (length q <? cap (logChan (L s)))%nat in
  let room2 := (length q + 1 <? cap (logChan (L s)))%nat in
  fileWriter (L s') = None
  /\ trace s' = (trace s ++ console E s m
                   ++ if quiet || room1 then [opened; written] else [opened])%list
  /\ queue s' = (q ++ if quiet then []
                      else if room1 then (if room2 then [r1; r2] else [r1])
                           else [])%list
  /\ worker s' = (if quiet then Returned
                  else if room1 then (if room2 then Returned else Deadlocked r2)
                       else Deadlocked r1).
Proof.
  intros Hw Hq Hsys Hon Hnil Hopen Hday name r1 r2 opened written s' quiet
         room1 room2.
  subst s' quiet room1 room2.
  rewrite (turn_syslog_off E s d m q Hw Hq Hsys). unfold console, console_state.
  destruct (Priority (L s) <? LOG_ERR)%Z eqn:Hp;
    [ | destruct (length q <? cap (logChan (L s)))%nat eqn:Hroom1;
        [ destruct (length q + 1 <? cap (logChan (L s)))%nat eqn:Hroom2 | ] ];
    destruct (SendToStdout (L s));
    repeat (progress (file_turn_report;
                      rewrite ?Hon, ?Hnil, ?Hopen, ?Hday, ?N.eqb_refl, ?Hp,
                        ?length_app, ?Hroom1; cbn [length]; rewrite ?Hroom2));
    cbn [orb]; rewrite ?app_nil_r;
    cbv beta delta [ret bind];
    cbn [finish set_worker trace worker L fileWriter queue buf logChan app
           set_L set_fileWriter add_event tick_sys tick_now taken set_logChan
           bump tick_sprintf tick_caller];
    rewrite ?Hnil, <- ?app_assoc; conjs; reflexivity.
Qed.

Lemma occurrences_app (l : string) (a b : list string) :
  occurrences l (a ++ b) = (occurrences l a + occurrences l b)%nat.
Proof. apply count_occ_app. Qed.

Lemma occurrences_one (l l' : string) :
  occurrences l [l'] = if string_dec l' l then 1%nat else 0%nat.
Proof. unfold occurrences. cbn. now destruct (string_dec l' l). Qed.

(** X14.  A failed open ends the loop when no rotation follows in the
    turn.  [newFile] reports "Error creating logfile"; unless the worker
    is parked for good in the send of that report, [newFile] returns
    with no file, [daemon] writes to the [nil] file, which fails with
    "invalid argument", reports "Error writing to logfile", and returns
    or is parked for good in the send of this second report.  However
    the sends go, the loop is over, no file is open, and the lines that
    were queued stay; each report is on the queue once more than before
    when it was sent, and with [Priority] under [LOG_ERR] nothing is
    sent and [daemon] returns. *)
Theorem failed_open_ends_the_loop (E : Env) (s : State) (d : N) (m : string)
        (q : list string) (e : string) :
  worker s = Running d -> queue s = m :: q ->
  SendToSyslog (L s) = false -> SendToLogfile (L s) = true ->
  fileWriter (L s) = None ->
  fault E (nSys s) = Some e ->
  Date_day (clock E (S (S (nNow s)))) = d ->
  let name := baseName E ++ "_" ++ Format_date (clock E (S (nNow s))) ++ ".log" in
  let r1 := report "newFile" 84 "Error creating logfile" e in
  let r2 := report "daemon" 65 "Error writing to logfile" "invalid argument" in
  let opened := EvOpen name open_flags open_perm (Some e) in
  let written := EvFileWrite None (stamped E s m) (Some "invalid argument") in
  let s' := worker_step E s in
  stopped s' /\ fileWriter (L s') = None
  /\ (forall E' n, worker_steps E' n s' = s')
  /\ (exists more, queue s' = (q ++ more)%list)
  /\ ((Priority (L s) < LOG_ERR)%Z -> worker s' = Returned)
  /\ ((worker s' = Deadlocked r1
       /\ trace s' = (trace s ++ console E s m ++ [opened])%list
       /\ occurrences r1 (queue s') = occurrences r1 q)
      \/ (trace s' = (trace s ++ console E s m ++ [opened; written])%list
          /\ ((worker s' = Deadlocked r2
               /\ occurrences r1 (queue s') = S (occurrences r1 q)
               /\ occurrences r2 (queue s') = occurrences r2 q)
              \/ (worker s' = Returned
                  /\ forall r, r = r1 \/ r = r2 ->
                       occurrences r (queue s')
                       = (occurrences r q
                          + if (Priority (L s) <? LOG_ERR)%Z then 0 else 1)%nat)))).
Proof.
  intros Hw Hq Hsys Hon Hnil Hopen Hday name r1 r2 opened written s'.
  destruct (failed_open_turn E s d m q e Hw Hq Hsys Hon Hnil Hopen Hday)
    as (Hf & Ht & Hqueue & Hworker).
  fold name r1 r2 opened written s' in Hf, Ht, Hqueue, Hworker.
  assert (Hdiff : r2 <> r1) by apply reports_differ.
  assert (Hstop : stopped s').
  { unfold stopped. rewrite Hworker.
    destruct (Priority (L s) <? LOG_ERR)%Z; [now left |].
    destruct (length q <? cap (logChan (L s)))%nat; [|right; now eexists].
    destruct (length q + 1 <? cap (logChan (L s)))%nat;
      [now left | right; now eexists]. }
  conjs.
  - exact Hstop.
  - exact Hf.
  - now apply stopped_forever.
  - rewrite Hqueue. now eexists.
  - intros Hp. apply Z.ltb_lt in Hp. now rewrite Hworker, Hp.
  - rewrite Ht, Hqueue, Hworker. clear Ht Hqueue Hworker Hstop.
    destruct (Priority (L s) <? LOG_ERR)%Z; cbn [orb].
    + right. split; [reflexivity |]. right. split; [reflexivity |].
      intros r _. rewrite app_nil_r. lia.
    + destruct (length q <? cap (logChan (L s)))%nat.
      * right. split; [reflexivity |].
        destruct (length q + 1 <? cap (logChan (L s)))%nat.
        -- right. split; [reflexivity |].
           intros r [-> | ->];
             rewrite occurrences_app; f_equal;
             change [r1; r2] with ([r1] ++ [r2])%list;
             rewrite occurrences_app, !occurrences_one;
             destruct (string_dec r1 r1), (string_dec r2 r2),
                      (string_dec r1 r2), (string_dec r2 r1);
             first [congruence | reflexivity].
        -- left. conjs; [reflexivity | |];
             rewrite occurrences_app, occurrences_one.
           ++ destruct (string_dec r1 r1); [lia | congruence].
           ++ destruct (string_dec r1 r2); [congruence | lia].
      * left. conjs; try reflexivity. now rewrite app_nil_r.
Qed.

Lemma failed_open_ends_the_loop_witness :
  let E := sample_env jan15 [(0%nat, "open app_2024-01-15.log: permission denied")] in
  let s := sample_state LOG_DEBUG false false true None [sample_line] in
  worker s = Running 15 /\ fileWriter (L s) = None
  /\ stopped (worker_step E s)
  /\ fileWriter (L (worker_step E s)) = None
  /\ trace (worker_step E s)
     = [EvOpen "app_2024-01-15.log" open_flags open_perm
               (Some "open app_2024-01-15.log: permission denied");
        EvFileWrite None ("09:05:07.1234" ++ sample_line)
                    (Some "invalid argument")]
  /\ queue (worker_step E s)
     = [report "newFile" 84 "Error creating logfile"
               "open app_2024-01-15.log: permission denied";
        report "daemon" 65 "Error writing to logfile" "invalid argument"]
  /\ worker (worker_step E s) = Returned.
Proof.
  intros E s.
  destruct (failed_open_ends_the_loop E s 15 sample_line []
              "open app_2024-01-15.log: permission denied"
              eq_refl eq_refl eq_refl eq_refl eq_refl eq_refl eq_refl)
    as (Hstop & Hnil & _).
  split; [reflexivity |]. split; [reflexivity |].
  split; [exact Hstop |]. split; [exact Hnil |].
  split; [reflexivity |]. split; reflexivity.
Defined.

(** The turn of a failed open with a rotation behind it, by the room
    the report finds. *)
Lemma rescued_turn (E : Env) (s : State) (d : N) (m : string)
      (q : list string) (e : string) :
  worker s = Running d -> queue s = m :: q ->
  SendToSyslog (L s) = false -> SendToLogfile (L s) = true ->
  fileWriter (L s) = None ->
  fault E (nSys s) = Some e ->
  Date_day (clock E (S (S (nNow s)))) <> d ->
  fault E (S (nSys s)) = None -> fault E (S (S (nSys s))) = None ->
  let name1 := baseName E ++ "_" ++ Format_date (clock E (S (nNow s)))
               ++ ".log" in
  let name2 := baseName E ++ "_" ++ Format_date (clock E (S (S (S (nNow s)))))
               ++ ".log" in
  let r1 := report "newFile" 84 "Error creating logfile" e in
  let failed := EvOpen name1 open_flags open_perm (Some e) in
  let again := [EvOpen name2 open_flags open_perm None;
                EvFileWrite (Some name2) (stamped E s m) None] in
  let s' := worker_step E s in
  let quiet := (Priority (L s) <? LOG_ERR)%Z in
  let room := (length q <? cap (logChan (L s)))%nat in
  trace s' = (trace s ++ console E s m
                ++ failed :: if quiet || room then again else [])%list
  /\ fileWriter (L s')
     = (if quiet || room then Some (mkFile name2 false) else None)
  /\ queue s' = (q ++ if quiet then [] else if room then [r1] else [])%list
  /\ worker s' = (if quiet || room
                  then Running (Date_day (clock E (S (S (nNow s)))))
                  else Deadlocked r1).
Proof.
  intros Hw Hq Hsys Hon Hnil Hopen Hday H1 H2 name1 name2 r1 failed again s'
         quiet room.
  subst s' quiet room. apply N.eqb_neq in Hday.
  rewrite (turn_syslog_off E s d m q Hw Hq Hsys). unfold console, console_state.
  destruct (Priority (L s) <? LOG_ERR)%Z eqn:Hp;
    [ | destruct (length q <? cap (logChan (L s)))%nat eqn:Hroom ];
    destruct (SendToStdout (L s));
    repeat (progress (file_turn_report;
                      rewrite ?Hon, ?Hnil, ?Hopen, ?Hday, ?H1, ?H2, ?Hp,
                        ?Hroom));
    cbn [orb]; rewrite ?app_nil_r;
    cbv beta delta [ret bind];
    cbn [finish set_worker trace worker L fileWriter queue buf logChan app
           set_L set_fileWriter add_event tick_sys tick_now taken set_logChan
           bump tick_sprintf tick_caller];
    rewrite ?Hnil, <- ?app_assoc; conjs; reflexivity.
Qed.

(** X15.  A failed open need not end the loop: when the day of the month
    has changed as well, [daemon] calls [newFile] a second time in the
    same turn.  The failure is reported; unless the worker is parked
    for good in the send of that report, the second call opens the file
    of the day (there is nothing to close), the line is written to it,
    the new day is remembered and the worker goes on.  With [Priority]
    under [LOG_ERR] nothing is sent, and the worker always goes on. *)
Theorem failed_open_rescued_by_rotation (E : Env) (s : State) (d : N)
        (m : string) (q : list string) (e : string) :
  worker s = Running d -> queue s = m :: q ->
  SendToSyslog (L s) = false -> SendToLogfile (L s) = true ->
  fileWriter (L s) = None ->
  fault E (nSys s) = Some e ->
  Date_day (clock E (S (S (nNow s)))) <> d ->
  fault E (S (nSys s)) = None -> fault E (S (S (nSys s))) = None ->
  let name1 := baseName E ++ "_" ++ Format_date (clock E (S (nNow s)))
               ++ ".log" in
  let name2 := baseName E ++ "_" ++ Format_date (clock E (S (S (S (nNow s)))))
               ++ ".log" in
  let r1 := report "newFile" 84 "Error creating logfile" e in
  let failed := EvOpen name1 open_flags open_perm (Some e) in
  let today := Date_day (clock E (S (S (nNow s)))) in
  let s' := worker_step E s in
  (exists more, queue s' = (q ++ more)%list)
  /\ ((Priority (L s) < LOG_ERR)%Z -> worker s' = Running today)
  /\ ((worker s' = Deadlocked r1
       /\ trace s' = (trace s ++ console E s m ++ [failed])%list
       /\ fileWriter (L s') = None
       /\ occurrences r1 (queue s') = occurrences r1 q)
      \/ (worker s' = Running today
          /\ trace s' = (trace s ++ console E s m
                           ++ [failed;
                               EvOpen name2 open_flags open_perm None;
                               EvFileWrite (Some name2) (stamped E s m) None])%list
          /\ fileWriter (L s') = Some (mkFile name2 false)
          /\ occurrences r1 (queue s')
             = (occurrences r1 q
                + if (Priority (L s) <? LOG_ERR)%Z then 0 else 1)%nat)).
Proof.
  intros Hw Hq Hsys Hon Hnil Hopen Hday H1 H2 name1 name2 r1 failed today s'.
  destruct (rescued_turn E s d m q e Hw Hq Hsys Hon Hnil Hopen Hday H1 H2)
    as (Ht & Hf & Hqueue & Hworker).
  fold name1 name2 r1 failed today s' in Ht, Hf, Hqueue, Hworker.
  conjs.
  - rewrite Hqueue. now eexists.
  - intros Hp. apply Z.ltb_lt in Hp. now rewrite Hworker, Hp.
  - rewrite Ht, Hf, Hqueue, Hworker. clear Ht Hf Hqueue Hworker.
    destruct (Priority (L s) <? LOG_ERR)%Z; cbn [orb].
    + right. conjs; try reflexivity. rewrite app_nil_r. lia.
    + destruct (length q <? cap (logChan (L s)))%nat.
      * right. conjs; try reflexivity.
        rewrite occurrences_app, occurrences_one.
        now destruct (string_dec r1 r1).
      * left. conjs; try reflexivity. now rewrite app_nil_r.
Qed.

Lemma failed_open_rescued_by_rotation_witness :
  let E := sample_env jan16 [(0%nat, "too many open files")] in
  let s := sample_state LOG_DEBUG false false true None [sample_line] in
  Date_day (clock E (S (S (nNow s)))) <> 15%N
  /\ (exists more, queue (worker_step E s) = ([] ++ more)%list)
  /\ trace (worker_step E s)
     = [EvOpen "app_2024-01-16.log" open_flags open_perm
               (Some "too many open files");
        EvOpen "app_2024-01-16.log" open_flags open_perm None;
        EvFileWrite (Some "app_2024-01-16.log") ("00:00:01.0050" ++ sample_line)
                    None]
  /\ worker (worker_step E s) = Running 16
  /\ queue (worker_step E s)
     = [report "newFile" 84 "Error creating logfile" "too many open files"].
Proof.
  intros E s.
  assert (Hday : Date_day (clock E (S (S (nNow s)))) <> 15%N) by discriminate.
  destruct (failed_open_rescued_by_rotation E s 15 sample_line []
              "too many open files"
              eq_refl eq_refl eq_refl eq_refl eq_refl eq_refl Hday
              eq_refl eq_refl) as (Hmore & _).
  split; [exact Hday |]. split; [exact Hmore |].
  split; [reflexivity |]. split; reflexivity.
Defined.

(* ================================================================= *)
(** * The syslog writer is made once *)

Lemma steady_connected (w : string) : steady (connected w).
Proof.
  unfold connected.
  constructor; [constructor; [constructor |..] |..]; intros; try assumption.
  congruence.
Qed.

(** The syslog sink's turn when the writer is there: one write. *)
Lemma daemon_syslog_connected (E : Env) (P : Event -> Prop) (m : string)
      (s : State) (w : string) :
  connected w s -> (forall err, P (EvSyslogWrite m err)) ->
  exists evs, outcome E P false s (daemon_syslog E m s) evs.
Proof.
  intros Hw HPw. unfold connected in Hw. unfold daemon_syslog. go.
  destruct (SendToSyslog (L s)) eqn:Hon.
  2:{ exists []. apply outcome_idle. discriminate. }
  rewrite Hw. go.
  destruct (fault E (nSys s)) as [e|] eqn:Hfault.
  - exists ([] ++ [EvSyslogWrite m (Some e)])%list.
    eapply out_fatal with
      (s_mid := add_event (EvSyslogWrite m (Some e)) (tick_sys s))
      (evs0 := []) (x := (48%N, "Error writing to syslog", e));
      side.
  - assert (Bok : benign (EvSyslogWrite m None))
      by (split; [reflexivity | exact (fun x => x)]).
    exists [EvSyslogWrite m None]. go.
    eapply out_pass; side.
Qed.

(** The trace a stretch of [daemon] leaves, however it ends. *)
Lemma outcome_trace (E : Env) (P : Event -> Prop) (s : State)
      (r : Res (option N)) (evs : list Event) :
  outcome E P None s r evs ->
  trace (finish r) = (trace s ++ evs)%list /\ Forall P evs.
Proof.
  intros [a s2 Hr Ha Ht Hben HP Hq2 F
         | s_mid evs0 ev x Hevs Hx Hnf Ht HP Hq2 F Hr
         | l s2 Hr Ht Hnf HP Hq2 Hfull F]; rewrite Hr.
  - destruct a as [d'|]; [|congruence]. now split.
  - assert (Hfin : finish (ending None (report_of E x s_mid))
                   = halt (report_of E x s_mid))
      by (unfold ending, halt; now destruct (report_of E x s_mid)).
    rewrite Hfin. destruct (halt_report E ev x s_mid Hx) as (Ht' & _).
    split; [now rewrite Ht', Ht | exact HP].
  - now split.
Qed.

(** A step of the worker with the writer there calls anything but
    [syslog.New]. *)
Lemma step_connected (E : Env) (s : State) (w : string) :
  connected w s ->
  exists evs,
    trace (worker_step E s) = (trace s ++ evs)%list
    /\ Forall not_syslog_new evs.
Proof.
  intros Hw.
  assert (Idle : exists evs, trace s = (trace s ++ evs)%list
                             /\ Forall not_syslog_new evs)
    by (exists []; split; [now rewrite app_nil_r | constructor]).
  destruct (worker s) as [|d| |l|] eqn:Hwk;
    try (unfold worker_step; rewrite Hwk; exact Idle).
  destruct (queue s) as [|m q] eqn:Hq.
  { unfold worker_step, chan_recv. rewrite Hwk.
    unfold queue in Hq. rewrite Hq. exact Idle. }
  rewrite (worker_step_running E s d m q Hwk Hq).
  set (P := not_syslog_new).
  assert (Hbody : exists evs,
             outcome E P None (taken s q) (daemon_body E d m (taken s q)) evs).
  { unfold daemon_body. go.
    set (s1 := if SendToStdout (L (taken s q))
               then add_event (EvStdout (stamped E (taken s q) m))
                              (tick_now (taken s q))
               else tick_now (taken s q)).
    assert (Hs1 : forall B (k : unit -> M B),
               bind (if SendToStdout (L (tick_now (taken s q)))
                     then emit (EvStdout (Format_clock (clock E (nNow (taken s q)))
                                          ++ m))
                     else ret tt) k (tick_now (taken s q))
               = k tt s1).
    { intros B k. subst s1. cbn [L tick_now].
      now destruct (SendToStdout (L (taken s q))). }
    rewrite Hs1. clear Hs1.
    assert (Hcon : connected w s1)
      by (subst s1; destruct (SendToStdout (L (taken s q))); exact Hw).
    destruct (daemon_syslog_connected E P m s1 w Hcon) as [evs1 H1];
      [intros err; exact (fun x => x) |].
    eapply outcome_bind in H1 as [evs2 H2].
    - exists (console E (taken s q) m ++ evs1 ++ evs2)%list.
      apply outcome_shift with s1.
      + subst s1. destruct (SendToStdout (L (taken s q))); frame_by_computation.
      + subst s1. unfold console.
        destruct (SendToStdout (L (taken s q))); cbn;
          [reflexivity | now rewrite app_nil_r].
      + rewrite posted_quiet.
        * subst s1. rewrite app_nil_r.
          now destruct (SendToStdout (L (taken s q))).
        * unfold console. now destruct (SendToStdout (L (taken s q))).
      + unfold console. destruct (SendToStdout (L (taken s q)));
          repeat constructor. exact (fun x => x).
      + unfold console. destruct (SendToStdout (L (taken s q)));
          repeat constructor. exact (fun x => x).
      + exact H2.
    - reflexivity.
    - intros a s2 Ha. destruct a; [|congruence].
      apply daemon_logfile_outcome.
      + intros ev Hev. destruct ev; try contradiction; exact (fun x => x).
      + intros f err. exact (fun x => x). }
  destruct Hbody as [evs Hbody]. exists evs.
  apply outcome_trace in Hbody. exact Hbody.
Qed.

Lemma fstable_trace (tr : list Event) : fstable (fun s => trace s = tr).
Proof. constructor; intros; assumption. Qed.

(** X16.  The connection to syslog is made once: from the moment the
    writer is there, whatever is logged, whatever the sinks answer and
    whatever [SyslogTag] holds, the worker keeps that writer and never
    calls [syslog.New] again. *)
Theorem syslog_connects_once (E : Env) (acts : list action) (w : string) :
  forall s,
    connected w s ->
    connected w (play E acts s)
    /\ exists evs,
        trace (play E acts s) = (trace s ++ evs)%list
        /\ Forall not_syslog_new evs.
Proof.
  induction acts as [|a acts IH]; intros s Hw.
  - split; [exact Hw |]. exists []. split; [now rewrite app_nil_r | constructor].
  - cbn [play].
    assert (Hstep : connected w (act E a s)
                    /\ exists evs, trace (act E a s) = (trace s ++ evs)%list
                                   /\ Forall not_syslog_new evs).
    { destruct a as [|callers c prompt v|line]; cbn [act].
      - split; [apply steady_worker_step; [apply steady_connected | exact Hw] |].
        now apply step_connected with w.
      - split.
        + apply preserves_call; [|exact Hw].
          apply st_facade, sd_stable, steady_connected.
        + exists []. rewrite app_nil_r. split; [|constructor].
          exact (preserves_call _ E callers c prompt v (fstable_trace (trace s))
                                s eq_refl).
      - split.
        + apply preserves_chan_send; [|exact Hw].
          apply st_facade, sd_stable, steady_connected.
        + exists []. rewrite app_nil_r. split; [|constructor].
          exact (preserves_chan_send _ line (fstable_trace (trace s)) s eq_refl). }
    destruct Hstep as (Hw1 & evs1 & Ht1 & HP1).
    destruct (IH (act E a s) Hw1) as (Hw2 & evs2 & Ht2 & HP2).
    split; [exact Hw2 |]. exists (evs1 ++ evs2)%list. split.
    + now rewrite Ht2, Ht1, app_assoc.
    + now apply Forall_app.
Qed.

Lemma syslog_connects_once_witness :
  let E := sample_env jan15 [] in
  let s := worker_step E (sample_state LOG_DEBUG false true false None
                                       [sample_line; "second"]) in
  connected "GOLOGGER" s
  /\ trace s = [EvSyslogNew LOG_INFO "GOLOGGER" None;
                EvSyslogWrite sample_line None]
  /\ trace (play E [Work; Say [mkFrame "main.main" 10] CallINF "third" None; Work] s)
     = (trace s ++ [EvSyslogWrite "second" None;
                    EvSyslogWrite (render "I" "main.main" 10 "third") None])%list.
Proof.
  intros E s.
  assert (Hc : connected "GOLOGGER" s) by reflexivity.
  destruct (syslog_connects_once E
              [Work; Say [mkFrame "main.main" 10] CallINF "third" None; Work]
              "GOLOGGER" s Hc) as (_ & evs & Ht & _).
  split; [exact Hc |]. split; reflexivity.
Defined.

(* ================================================================= *)
(** * Lines logged before the worker has started *)

(** X17.  No line is lost to a late start: lines queued before the
    worker has entered [daemon] wait in the queue; the worker's first
    step notes the day and prints nothing, and the steps after it print
    the lines in order (here with syslog and the file off). *)
Theorem lines_before_start_are_kept (E : Env) (ms : list string) (s : State) :
  worker s = Spawned -> queue s = ms ->
  SendToSyslog (L s) = false -> SendToLogfile (L s) = false ->
  SendToStdout (L s) = true ->
  trace (worker_step E s) = trace s
  /\ queue (worker_step E s) = ms
  /\ let s' := worker_steps E (S (length ms)) s in
     trace s' = (trace s ++ delivered E (S (nNow s)) ms)%list
     /\ queue s' = []
     /\ worker s' = Running (Date_day (clock E (nNow s))).
Proof.
  intros Hw Hq Hsys Hfile Hout.
  assert (Hstep : worker_step E s
                  = set_worker (Running (Date_day (clock E (nNow s)))) (tick_now s))
    by (unfold worker_step; now rewrite Hw).
  rewrite Hstep. split; [reflexivity |]. split; [exact Hq |].
  cbn [worker_steps]. rewrite Hstep.
  destruct (console_steps E ms
              (set_worker (Running (Date_day (clock E (nNow s)))) (tick_now s))
              (Date_day (clock E (nNow s))) [])
    as (Ht & Hq' & Hw' & _); try assumption; try reflexivity.
  - cbn. now rewrite app_nil_r.
  - now conjs.
Qed.

Lemma lines_before_start_are_kept_witness :
  let E := sample_env jan15 [] in
  let s := state_of (INF E [mkFrame "main.init" 3] "early" None init) in
  worker s = Spawned /\ queue s = [render "I" "main.init" 3 "early"]
  /\ trace (worker_steps E 2 s)
     = [EvStdout ("09:05:07.1234" ++ render "I" "main.init" 3 "early")]
  /\ queue (worker_steps E 2 s) = [].
Proof.
  intros E s.
  destruct (lines_before_start_are_kept E [render "I" "main.init" 3 "early"] s
              eq_refl eq_refl eq_refl eq_refl eq_refl)
    as (_ & _ & Ht & Hq & _).
  split; [reflexivity |]. split; [reflexivity |].
  split; [exact Ht | exact Hq].
Defined.

(* ================================================================= *)
(** * The printed name, once more *)

(** Whatever [FindStringSubmatch] finds for the pattern of [Log] is a
    type and a method made of the pattern's characters. *)
Lemma find_shape (name : string) (r : list string) :
  FindStringSubmatch method_pattern name = Some r ->
  exists ty me,
    r = ["(*" ++ ty ++ ")." ++ me; ty; me]
    /\ all_chars cls_type ty = true /\ all_chars cls_method me = true.
Proof.
  induction name as [|c name IH]; cbn [FindStringSubmatch].
  - destruct (match_here method_pattern "") as [r'|] eqn:Hm; [|discriminate].
    apply RegexpFacts.match_here_shape in Hm as (ty & me & Hs & _).
    discriminate.
  - destruct (match_here method_pattern (String c name)) as [r'|] eqn:Hm;
      [|exact IH].
    intros H. injection H as <-.
    apply RegexpFacts.match_here_shape in Hm as (ty & me & Hs & Hty & Hme & ->).
    exists ty, me. rewrite Hs. now conjs.
Qed.

(** X18.  The name [Log] prints is final: resolving a printed name again
    changes nothing, and a name that was rewritten has no star left in
    it. *)
Theorem caller_name_idempotent (name : string) :
  caller_name (caller_name name) = caller_name name
  /\ (caller_name name = name \/ has_char "*" (caller_name name) = false).
Proof.
  destruct (FindStringSubmatch method_pattern name) as [r|] eqn:Hf.
  - assert (Hn : exists ty me,
               caller_name name = ty ++ "." ++ me
               /\ has_char "*" (ty ++ "." ++ me) = false).
    { unfold caller_name. rewrite Hf.
      apply find_shape in Hf as (ty & me & -> & Hty & Hme).
      exists ty, me. split; [reflexivity |].
      rewrite has_char_append. cbn.
      rewrite (all_chars_has_char _ _ _ RegexpFacts.cls_type_star Hty).
      now rewrite (all_chars_has_char _ _ _ RegexpFacts.cls_method_star Hme). }
    destruct Hn as (ty & me & -> & Hstar).
    split; [now apply caller_name_plain | now right].
  - assert (Hn : caller_name name = name)
      by (unfold caller_name; now rewrite Hf).
    rewrite Hn. split; [exact Hn | now left].
Qed.
